(** * RoboBrain 2.0 pipeline chat: conversation memory, coordinate extraction,
      decomposition adapter and pipeline executor

    A shallow embedding of [scripts/conversation_memory.py],
    [scripts/pipeline_chat.py] and of the keyword classifier of
    [scripts/smart_chat.py], with the properties the specification states
    about them.

    Conventions of the embedding.
    - Python [str] is [string]; texts are taken to be ASCII, so [lower],
      [strip] and the regular-expression classes [\d] and [\s] are the
      ASCII restrictions of Python's.
    - Python [int] is [Z].
    - [Optional[str]] is [option string]; truthiness ([if x:], [x or y])
      is written out: [None] and the empty string are false.
    - Values whose Python type is [Any] or that come out of [json.loads]
      are elements of [value].
    - External collaborators (the vision model, the Groq completion
      service, the renderer, the clock) are inputs: either the reply of
      the call is an argument, or the call is a function on an abstract
      world state that is threaded through the code.
    - What [print] writes is not modelled; the evaluation of its
      arguments is, where it can raise.
    - The modules [PyObj], [DynamicMemory] and [DynamicExecutor] describe
      the code on Python objects of any type, where a field that is
      declared a string can hold anything; there an operation on an
      object of the wrong kind raises. *)

From Stdlib Require Import ZArith QArith List String Ascii Bool Lia.
From stdpp Require Import base option list strings gmap.

#[local] Set Warnings "-register-all".

Local Open Scope Z_scope.
Local Open Scope string_scope.

(** ** Python strings *)

Module PyStr.

(** [len(s)] *)
Definition len (s : string) : Z := Z.of_nat (String.length s).

(** [s[:n]] for a literal [n >= 0] *)
Definition slice_to (n : nat) (s : string) : string := substring 0 n s.

(** [sep.join(parts)] *)
Definition join (sep : string) (parts : list string) : string :=
  String.concat sep parts.

(** [c.lower()] on one ASCII character *)
Definition lower_ascii (c : ascii) : ascii :=
  let n := nat_of_ascii c in
  if (Nat.leb 65 n && Nat.leb n 90)%bool then ascii_of_nat (n + 32) else c.

(** [s.lower()] *)
Fixpoint lower (s : string) : string :=
  match s with
  | EmptyString => EmptyString
  | String c s' => String (lower_ascii c) (lower s')
  end.

(** ASCII characters for which [str.isspace] holds: TAB, LF, VT, FF, CR,
    FS, GS, RS, US and SPACE. *)
Definition is_space (c : ascii) : bool :=
  let n := nat_of_ascii c in
  ((Nat.leb 9 n && Nat.leb n 13) || (Nat.leb 28 n && Nat.leb n 32))%bool.

(** ASCII decimal digits *)
Definition is_digit (c : ascii) : bool :=
  let n := nat_of_ascii c in (Nat.leb 48 n && Nat.leb n 57)%bool.

(** [s.lstrip(chars)], with the stripped set given as a predicate *)
Fixpoint lstrip_by (p : ascii -> bool) (s : string) : string :=
  match s with
  | EmptyString => EmptyString
  | String c s' => if p c then lstrip_by p s' else s
  end.

(** [s.rstrip(chars)] *)
Fixpoint rstrip_by (p : ascii -> bool) (s : string) : string :=
  match s with
  | EmptyString => EmptyString
  | String c s' =>
      match rstrip_by p s' with
      | EmptyString => if p c then EmptyString else String c EmptyString
      | r => String c r
      end
  end.

Definition strip_by (p : ascii -> bool) (s : string) : string :=
  rstrip_by p (lstrip_by p s).

(** [s.strip()] *)
Definition strip (s : string) : string := strip_by is_space s.

(** [needle in hay] *)
Fixpoint contains (needle hay : string) : bool :=
  if String.prefix needle hay then true
  else match hay with
       | EmptyString => false
       | String _ hay' => contains needle hay'
       end.

(** [s.replace(old, new)] for a non-empty [old]: the occurrences of [old]
    are replaced from left to right, without overlap.  [skip] counts the
    characters of an occurrence that remain to be dropped. *)
Fixpoint replace_from (old new : string) (skip : nat) (s : string) : string :=
  match s with
  | EmptyString => EmptyString
  | String c s' =>
      match skip with
      | S k => replace_from old new k s'
      | O =>
          if String.prefix old s
          then new ++ replace_from old new (String.length old - 1) s'
          else String c (replace_from old new O s')
      end
  end.

Definition replace (old new s : string) : string := replace_from old new O s.

(** [str(n)] for a non-negative [n] below ten *)
Definition digit_char (n : Z) : ascii := ascii_of_nat (48 + Z.to_nat n).

(** The decimal digits of [n >= 0], most significant first; [fuel] bounds
    the number of digits. *)
Fixpoint digits_of (fuel : nat) (n : Z) (acc : string) : string :=
  match fuel with
  | O => acc
  | S fuel' =>
      let acc' := String (digit_char (n mod 10)) acc in
      if (n <? 10)%Z then acc' else digits_of fuel' (n / 10) acc'
  end.

(** [str(n)] for an [int] *)
Definition str_of_int (n : Z) : string :=
  let m := Z.abs n in
  let body := digits_of (S (Z.to_nat (Z.log2 m))) m EmptyString in
  if (n <? 0)%Z then String "-" body else body.

(** [bool(s)] for an [Optional[str]] *)
Definition truthy (o : option string) : bool :=
  match o with
  | Some s => negb (String.eqb s EmptyString)
  | None => false
  end.

(** [a or b] on [Optional[str]] *)
Definition or_else (a b : option string) : option string :=
  if truthy a then a else b.

(** [l[start:]] on a list, for any [int] [start]: a negative [start]
    counts from the end and is clamped at the beginning of the list. *)
Definition slice_from {A} (start : Z) (l : list A) : list A :=
  if (start <? 0)%Z
  then drop (Z.to_nat (Z.max 0 (Z.of_nat (length l) + start))) l
  else drop (Z.to_nat start) l.

End PyStr.

(** ** Python values of type [Any] *)

(** The values [json.loads] produces and [json.dump] writes without loss:
    [None], booleans, integers, floats (identified by their [repr]),
    strings, lists, and dictionaries with string keys, in insertion
    order. *)
Inductive value : Type :=
  | VNone
  | VBool (b : bool)
  | VInt (n : Z)
  | VFloat (repr : string)
  | VStr (s : string)
  | VList (items : list value)
  | VDict (entries : list (string * value)).

(** A dictionary with string keys, in insertion order. *)
Definition dict : Type := list (string * value).

(** [d.get(key)], as an [option]: [None] when the key is absent *)
Fixpoint dict_get (key : string) (d : dict) : option value :=
  match d with
  | [] => None
  | (k, v) :: d' => if String.eqb k key then Some v else dict_get key d'
  end.

(** [d[key] = v]: replaces the value of an existing key in place, appends
    a new key at the end. *)
Fixpoint dict_set (key : string) (v : value) (d : dict) : dict :=
  match d with
  | [] => [(key, v)]
  | (k, v') :: d' =>
      if String.eqb k key then (k, v) :: d' else (k, v') :: dict_set key v d'
  end.

Definition value_of_opt_str (o : option string) : value :=
  match o with
  | Some s => VStr s
  | None => VNone
  end.

(** ** Exceptions

    Code that can raise returns [E + A]: [inl e] is the exception [e],
    [inr a] the normal result.  Sequencing stops at the first exception. *)

#[global] Instance sum_bind {E : Type} : MBind (sum E) :=
  fun A B f x =>
    match x with
    | inl e => inl e
    | inr a => f a
    end.

(** ** [scripts/conversation_memory.py] *)

Module ConversationMemory.

(** [class Turn] *)
Record Turn : Type := mkTurn {
  role : string;
  content : string;
  image_path : option string;
  task : option string;
  timestamp : string;
  metadata : dict
}.

(** [class ConversationMemory] *)
Record Memory : Type := mkMemory {
  turns : list Turn;
  current_image : option string;
  max_turns : Z
}.

(** [ConversationMemory()] with the default field values *)
Definition new_memory : Memory :=
  {| turns := []; current_image := None; max_turns := 20 |}.

Definition set_turns (ts : list Turn) (m : Memory) : Memory :=
  {| turns := ts; current_image := current_image m; max_turns := max_turns m |}.

Definition set_current_image (img : option string) (m : Memory) : Memory :=
  {| turns := turns m; current_image := img; max_turns := max_turns m |}.

(** [__len__] *)
Definition len (m : Memory) : Z := Z.of_nat (length (turns m)).

(** [_trim_history] *)
Definition _trim_history (m : Memory) : Memory :=
  if len m >? max_turns m
  then set_turns (PyStr.slice_from (- max_turns m) (turns m)) m
  else m.

(** [add_user_turn]; [now] is the value of [datetime.now().isoformat()]
    at the call. *)
Definition add_user_turn (content : string) (image_path : option string)
    (task : string) (now : string) (m : Memory) : Memory :=
  let m1 := if PyStr.truthy image_path then set_current_image image_path m else m in
  let turn := {| role := "user";
                 content := content;
                 image_path := PyStr.or_else image_path (current_image m1);
                 task := Some task;
                 timestamp := now;
                 metadata := [] |} in
  _trim_history (set_turns (turns m1 ++ [turn]) m1).

(** [metadata or {}] *)
Definition metadata_or_empty (md : option dict) : dict :=
  match md with
  | Some (e :: d) => e :: d
  | _ => []
  end.

(** [add_assistant_turn] *)
Definition add_assistant_turn (content : string) (md : option dict)
    (now : string) (m : Memory) : Memory :=
  let turn := {| role := "assistant";
                 content := content;
                 image_path := current_image m;
                 task := None;
                 timestamp := now;
                 metadata := metadata_or_empty md |} in
  _trim_history (set_turns (turns m ++ [turn]) m).

(** [self.turns.pop()] *)
Definition pop_turn (m : Memory) : Memory :=
  set_turns (removelast (turns m)) m.

(** [clear] *)
Definition clear (m : Memory) : Memory :=
  {| turns := []; current_image := None; max_turns := max_turns m |}.

(** [get_context_prompt] *)
Definition get_context_prompt (include_images : bool) (m : Memory) : string :=
  match turns m with
  | [] => EmptyString
  | _ =>
      let line (t : Turn) :=
        let role_label := if String.eqb (role t) "user" then "User" else "Assistant" in
        if (PyStr.truthy (image_path t) && include_images
            && String.eqb (role t) "user")%bool
        then role_label ++ " (with image): " ++ content t
        else role_label ++ ": " ++ content t in
      PyStr.join (String (ascii_of_nat 10) EmptyString)
        (["[Previous conversation context]"]
           ++ map line (PyStr.slice_from (-10) (turns m))
           ++ ["[Current query]"])
  end.

(** *** Sequences of calls

    A call of [add_user_turn] or [add_assistant_turn] with its arguments
    and the clock reading at the call. *)
Inductive call : Type :=
  | AddUser (content : string) (image_path : option string) (task : string)
      (now : string)
  | AddAssistant (content : string) (md : option dict) (now : string).

Definition perform (m : Memory) (c : call) : Memory :=
  match c with
  | AddUser content image_path task now =>
      add_user_turn content image_path task now m
  | AddAssistant content md now => add_assistant_turn content md now m
  end.

Definition perform_all (calls : list call) (m : Memory) : Memory :=
  fold_left perform calls m.

(** The turn a call appends to a memory whose current image is [img],
    and the current image after the call *)
Definition appended_turn (img : option string) (c : call) : Turn :=
  match c with
  | AddUser content image_path task now =>
      {| role := "user"; content := content;
         image_path := PyStr.or_else image_path img;
         task := Some task; timestamp := now; metadata := [] |}
  | AddAssistant content md now =>
      {| role := "assistant"; content := content; image_path := img;
         task := None; timestamp := now; metadata := metadata_or_empty md |}
  end.

Definition image_after (img : option string) (c : call) : option string :=
  match c with
  | AddUser _ image_path _ _ => PyStr.or_else image_path img
  | AddAssistant _ _ _ => img
  end.

(** Every turn the calls append, in the order of the calls, starting
    from the current image [img] *)
Fixpoint appended_turns (img : option string) (calls : list call) : list Turn :=
  match calls with
  | [] => []
  | c :: calls' => appended_turn img c :: appended_turns (image_after img c) calls'
  end.

(** The last [n] elements of a list *)
Definition last_n {A : Type} (n : nat) (l : list A) : list A :=
  drop (length l - n) l.

(** *** Persistence

    The file system is a finite map from paths to JSON documents.
    [json.dump] followed by [json.load] gives back the value that was
    written, for the values of type [value]; that contract of the
    [json] library is built into the representation of a file's content
    as a [value].  The module [DynamicMemory] describes [save] and
    [load] on fields of any kind, with the conversions of [json.dump]
    written out. *)

Definition turn_record (t : Turn) : value :=
  VDict [("role", VStr (role t));
         ("content", VStr (content t));
         ("image_path", value_of_opt_str (image_path t));
         ("task", value_of_opt_str (task t));
         ("timestamp", VStr (timestamp t));
         ("metadata", VDict (metadata t))].

(** [save] *)
Definition save (filepath : string) (m : Memory) (fs : gmap string value)
    : gmap string value :=
  let data := VDict [("current_image", value_of_opt_str (current_image m));
                     ("turns", VList (map turn_record (turns m)))] in
  <[filepath := data]> fs.

(** What [load] can raise.  [IllTyped] marks a document that Python
    would load into a [Turn] whose fields do not have the types the
    dataclass declares; such objects are outside this embedding. *)
Inductive load_error : Type :=
  | FileNotFoundError
  | KeyError (key : string)
  | TypeError
  | AttributeError
  | IllTyped.

Definition as_str (v : value) : load_error + string :=
  match v with
  | VStr s => inr s
  | _ => inl IllTyped
  end.

Definition as_opt_str (v : value) : load_error + option string :=
  match v with
  | VNone => inr None
  | VStr s => inr (Some s)
  | _ => inl IllTyped
  end.

Definition as_dict (v : value) : load_error + dict :=
  match v with
  | VDict d => inr d
  | _ => inl IllTyped
  end.

(** [t[key]] on a dictionary *)
Definition dict_item (key : string) (d : dict) : load_error + value :=
  match dict_get key d with
  | Some v => inr v
  | None => inl (KeyError key)
  end.

(** [d.get(key, default)] *)
Definition dict_get_default (key : string) (default : value) (d : dict) : value :=
  match dict_get key d with
  | Some v => v
  | None => default
  end.

(** The [Turn(...)] expression of [load], for one element [t] of the
    stored list.  Subscripting anything but a dictionary with a string
    raises [TypeError]. *)
Definition load_turn (t : value) : load_error + Turn :=
  match t with
  | VDict d =>
      r ← dict_item "role" d ≫= as_str;
      c ← dict_item "content" d ≫= as_str;
      i ← as_opt_str (dict_get_default "image_path" VNone d);
      k ← as_opt_str (dict_get_default "task" VNone d);
      ts ← as_str (dict_get_default "timestamp" (VStr EmptyString) d);
      md ← as_dict (dict_get_default "metadata" (VDict []) d);
      inr {| role := r; content := c; image_path := i; task := k;
             timestamp := ts; metadata := md |}
  | _ => inl TypeError
  end.

Fixpoint load_turns (l : list value) : load_error + list Turn :=
  match l with
  | [] => inr []
  | t :: l' =>
      x ← load_turn t;
      xs ← load_turns l';
      inr (x :: xs)
  end.

(** The elements the list comprehension of [load] iterates over:
    [data.get("turns", [])].  Iterating a non-empty string or dictionary
    yields strings, on which [t["role"]] raises [TypeError]; the other
    values are not iterable. *)
Definition stored_turns (d : dict) : load_error + list value :=
  match dict_get "turns" d with
  | None => inr []
  | Some (VList l) => inr l
  | Some (VStr EmptyString) => inr []
  | Some (VDict []) => inr []
  | Some _ => inl TypeError
  end.

(** [load].  The result is the memory after the call and the exception
    raised, if any: [current_image] is assigned before the turns are
    decoded, so it is already overwritten when decoding fails. *)
Definition load (filepath : string) (fs : gmap string value) (m : Memory)
    : Memory * option load_error :=
  match fs !! filepath with
  | None => (m, Some FileNotFoundError)
  | Some (VDict d) =>
      match as_opt_str (dict_get_default "current_image" VNone d) with
      | inl e => (m, Some e)
      | inr img =>
          let m1 := set_current_image img m in
          match stored_turns d ≫= load_turns with
          | inl e => (m1, Some e)
          | inr ts => (set_turns ts m1, None)
          end
      end
  | Some _ => (m, Some AttributeError)
  end.

(** *** [class MultiTurnInference] *)

Record MultiTurnInference : Type := mkChat {
  memory : Memory;
  use_context : bool
}.

(** [MultiTurnInference(model, repo_dir)] *)
Definition new_chat : MultiTurnInference :=
  {| memory := new_memory; use_context := true |}.

(** [set_image] *)
Definition set_image (image_path : string) (c : MultiTurnInference)
    : MultiTurnInference :=
  {| memory := set_current_image (Some image_path) (memory c);
     use_context := use_context c |}.

(** A dictionary returned by [model.inference], with the entries [ask]
    reads; [md_shown] is [str(result)]. *)
Record model_dict : Type := mkModelDict {
  md_answer : option string;
  md_thinking : option string;
  md_output_image : option value;
  md_shown : string
}.

(** What [model.inference] returns: [None], a dictionary, a string, or
    another object, given by its [str()]. *)
Inductive model_result : Type :=
  | MNone
  | MDict (d : model_dict)
  | MStr (s : string)
  | MOther (shown : string).

(** The inference collaborator: prompt, image, task, [enable_thinking],
    [do_sample], [plot]; [inl e] is an exception whose [str()] is [e]. *)
Definition inference_fn : Type :=
  string -> string -> string -> bool -> bool -> bool -> string + model_result.

Definition no_image_error : dict :=
  [("error", VStr "No image set. Use set_image() or provide image_path.")].

(** The context-aware prompt [ask] sends to the model *)
Definition full_prompt (c : MultiTurnInference) (prompt : string) : string :=
  if (use_context c && (len (memory c) >? 0))%bool
  then get_context_prompt true (memory c)
         ++ String (ascii_of_nat 10) EmptyString ++ prompt
  else prompt.

(** [ask].  [now_user] and [now_reply] are the clock readings stamped on
    the user turn and on the assistant turn. *)
Definition ask (model : inference_fn) (prompt : string)
    (image_path : option string) (task : string)
    (enable_thinking do_sample plot : bool) (now_user now_reply : string)
    (c : MultiTurnInference) : MultiTurnInference * dict :=
  match PyStr.or_else image_path (current_image (memory c)) with
  | None => (c, no_image_error)
  | Some img =>
    if negb (PyStr.truthy (Some img)) then (c, no_image_error) else
    let m1 := add_user_turn prompt image_path task now_user (memory c) in
    match model (full_prompt c prompt) img task enable_thinking do_sample plot with
    | inl e =>
        let error_msg := "Inference error: " ++ e in
        let m2 :=
          match last (turns m1) with
          | Some t => if String.eqb (role t) "user" then pop_turn m1 else m1
          | None => m1
          end in
        ({| memory := m2; use_context := use_context c |},
         [("error", VStr error_msg);
          ("answer", VStr error_msg);
          ("turn_number", VInt (len m2));
          ("context_used", VBool false)])
    | inr result =>
        let '(answer, thinking, output_image) :=
          match result with
          | MNone => ("No response from model", EmptyString, VNone)
          | MDict d =>
              (default (md_shown d) (md_answer d),
               default EmptyString (md_thinking d),
               default VNone (md_output_image d))
          | MStr s => (s, EmptyString, VNone)
          | MOther shown => (shown, EmptyString, VNone)
          end in
        let m2 :=
          add_assistant_turn answer
            (Some [("thinking", VStr thinking);
                   ("task", VStr task);
                   ("output_image", output_image)])
            now_reply m1 in
        ({| memory := m2; use_context := use_context c |},
         [("answer", VStr answer);
          ("thinking", VStr thinking);
          ("output_image", output_image);
          ("context_used", VBool (use_context c && (len m2 >? 2))%bool);
          ("turn_number", VInt (len m2));
          ("task", VStr task)])
    end
  end.

(** [ground], [get_affordance], [get_trajectory], [point_at]: [ask] with
    the task fixed and the defaults of the other arguments *)
Definition ground (model : inference_fn) (object_description : string)
    (image_path : option string) (plot : bool) (now_user now_reply : string)
    (c : MultiTurnInference) : MultiTurnInference * dict :=
  ask model object_description image_path "grounding" true true plot
    now_user now_reply c.

Definition get_affordance (model : inference_fn) (action : string)
    (image_path : option string) (plot : bool) (now_user now_reply : string)
    (c : MultiTurnInference) : MultiTurnInference * dict :=
  ask model action image_path "affordance" true true plot now_user now_reply c.

Definition get_trajectory (model : inference_fn) (action : string)
    (image_path : option string) (plot : bool) (now_user now_reply : string)
    (c : MultiTurnInference) : MultiTurnInference * dict :=
  ask model action image_path "trajectory" true true plot now_user now_reply c.

Definition point_at (model : inference_fn) (description : string)
    (image_path : option string) (plot : bool) (now_user now_reply : string)
    (c : MultiTurnInference) : MultiTurnInference * dict :=
  ask model description image_path "pointing" true true plot now_user now_reply c.

(** [MultiTurnInference.reset] *)
Definition reset (c : MultiTurnInference) : MultiTurnInference :=
  {| memory := clear (memory c); use_context := use_context c |}.

(** [save_conversation] and [load_conversation] *)
Definition save_conversation (filepath : string) (c : MultiTurnInference)
    (fs : gmap string value) : gmap string value :=
  save filepath (memory c) fs.

Definition load_conversation (filepath : string) (fs : gmap string value)
    (c : MultiTurnInference) : MultiTurnInference * option load_error :=
  let '(m, err) := load filepath fs (memory c) in
  ({| memory := m; use_context := use_context c |}, err).

(** The answer, the reasoning and the output image [ask] reads from what
    the model returned *)
Definition reply_of (result : model_result) : string * string * value :=
  match result with
  | MNone => ("No response from model", EmptyString, VNone)
  | MDict d =>
      (default (md_shown d) (md_answer d),
       default EmptyString (md_thinking d),
       default VNone (md_output_image d))
  | MStr s => (s, EmptyString, VNone)
  | MOther shown => (shown, EmptyString, VNone)
  end.

(** The document [save] writes for a memory *)
Definition saved_document (m : Memory) : value :=
  VDict [("current_image", value_of_opt_str (current_image m));
         ("turns", VList (map turn_record (turns m)))].

(** A stored turn that gives its role and its content only *)
Definition minimal_record (rc : string * string) : value :=
  VDict [("role", VStr rc.1); ("content", VStr rc.2)].

End ConversationMemory.

(** ** Regular expressions

    The fragment of Python's [re] that the scripts use: literal
    characters, character classes, concatenation, greedy [*] and [+] over
    a character class, greedy [?], and capturing groups.  Matching is by
    backtracking, with Python's priorities: a greedy operator first tries
    to take as much as it can and gives characters back one at a time
    when the rest of the pattern fails. *)

Module Regex.

Inductive regex : Type :=
  | Lit (c : ascii)                  (* one given character *)
  | Class (p : ascii -> bool)        (* one character of a class *)
  | Cat (r1 r2 : regex)              (* r1 r2 *)
  | Star (p : ascii -> bool)         (* [class]*, greedy *)
  | Plus (p : ascii -> bool)         (* [class]+, greedy *)
  | Opt (r : regex)                  (* (?:r)?, greedy *)
  | Group (r : regex).               (* (r), capturing *)

(** All the characters of [w] are in the class [p]. *)
Fixpoint all_chars (p : ascii -> bool) (w : string) : bool :=
  match w with
  | EmptyString => true
  | String c w' => (p c && all_chars p w')%bool
  end.

(** The text consumed between a position [s] and a later position
    [rest] of the same string. *)
Definition consumed (s rest : string) : string :=
  substring 0 (String.length s - String.length rest) s.

Section Matcher.
Context {A : Type}.

(** [star_class p s k]: the continuation [k] is tried on the positions
    that follow a run of [p]-characters at the start of [s], the
    longest run first. *)
Fixpoint star_class (p : ascii -> bool) (s : string)
    (k : string -> option A) : option A :=
  match s with
  | String c s' =>
      if p c
      then match star_class p s' k with
           | Some x => Some x
           | None => k s
           end
      else k s
  | EmptyString => k s
  end.

(** [rmatch r s caps k]: match [r] at the start of [s]; [caps] holds
    the groups captured so far; [k] receives the remaining text and the
    captured groups, and failure of [k] makes the matcher backtrack. *)
Fixpoint rmatch (r : regex) (s : string) (caps : list string)
    (k : string -> list string -> option A) : option A :=
  match r with
  | Lit c =>
      match s with
      | String c' s' => if Ascii.eqb c c' then k s' caps else None
      | EmptyString => None
      end
  | Class p =>
      match s with
      | String c' s' => if p c' then k s' caps else None
      | EmptyString => None
      end
  | Cat r1 r2 => rmatch r1 s caps (fun s1 caps1 => rmatch r2 s1 caps1 k)
  | Star p => star_class p s (fun s' => k s' caps)
  | Plus p =>
      match s with
      | String c' s' =>
          if p c' then star_class p s' (fun s'' => k s'' caps) else None
      | EmptyString => None
      end
  | Opt r' =>
      match rmatch r' s caps k with
      | Some x => Some x
      | None => k s caps
      end
  | Group r' =>
      rmatch r' s caps (fun s' caps' => k s' (caps' ++ [consumed s s'])%list)
  end.
End Matcher.

(** [pattern.match(s)]: the remaining text and the groups of a match at
    the start of [s]. *)
Definition match_at (r : regex) (s : string) : option (string * list string) :=
  rmatch r s [] (fun rest caps => Some (rest, caps)).

(** [re.findall(pattern, s)] for a pattern with groups that cannot match
    the empty string: the groups of the non-overlapping matches, from
    left to right.  [skip] counts the characters of the last match that
    remain to be passed over. *)
Fixpoint findall_from (r : regex) (skip : nat) (s : string) : list (list string) :=
  match s with
  | EmptyString => []
  | String _ s' =>
      match skip with
      | S k => findall_from r k s'
      | O =>
          match match_at r s with
          | Some (rest, caps) =>
              caps :: findall_from r (String.length s - String.length rest - 1) s'
          | None => findall_from r O s'
          end
      end
  end.

Definition findall (r : regex) (s : string) : list (list string) :=
  findall_from r O s.

(** [re.search(pattern, s)]: the text of the leftmost match, that is
    [m.group()] *)
Fixpoint search (r : regex) (s : string) : option string :=
  match match_at r s with
  | Some (rest, _) => Some (consumed s rest)
  | None =>
      match s with
      | EmptyString => None
      | String _ s' => search r s'
      end
  end.

(** Concatenation of a pattern [r] and of the patterns [rs] that follow *)
Fixpoint seq (r : regex) (rs : list regex) : regex :=
  match rs with
  | [] => r
  | r' :: rs' => Cat r (seq r' rs')
  end.

(** [\d] and [\s] on ASCII text; [[\s\S]] is any character *)
Definition digit : ascii -> bool := PyStr.is_digit.
Definition space : ascii -> bool := PyStr.is_space.
Definition any_char : ascii -> bool := fun _ => true.

(** [(\d+(?:\.\d+)?)] *)
Definition number : regex :=
  Group (Cat (Plus digit) (Opt (Cat (Lit ".") (Plus digit)))).

(** [\s*,\s*] *)
Definition comma : regex := seq (Star space) [Lit ","; Star space].

End Regex.

(** ** [scripts/smart_chat.py]: the keyword classifier *)

Module SmartChat.

(** [at\s*\(?\s*\d+] *)
Definition at_number_pattern : Regex.regex :=
  Regex.seq (Regex.Lit "a")
    [Regex.Lit "t"; Regex.Star Regex.space; Regex.Opt (Regex.Lit "(");
     Regex.Star Regex.space; Regex.Plus Regex.digit].

(** [any(kw in text for kw in kws)] *)
Definition any_keyword (kws : list string) (text : string) : bool :=
  existsb (fun kw => PyStr.contains kw text) kws.

(** [classify_task_fallback]: task, confidence, reason, extra info *)
Definition classify_task_fallback (prompt : string)
    : string * value * string * dict :=
  let prompt_lower := PyStr.strip (PyStr.lower prompt) in
  if any_keyword ["where is"; "find"; "locate"; "show me where"] prompt_lower
  then ("grounding", VFloat "0.7", "keyword: location query", [])
  else if any_keyword ["grasp"; "grab"; "pick up"; "graspable"; "affordance"]
            prompt_lower
  then ("affordance", VFloat "0.7", "keyword: manipulation query", [])
  else if any_keyword ["path"; "trajectory"; "move to"; "reach"; "navigate"]
            prompt_lower
  then ("trajectory", VFloat "0.7", "keyword: motion planning query", [])
  else if (bool_decide (is_Some (Regex.search at_number_pattern prompt_lower))
           || PyStr.contains "at coordinate" prompt_lower)%bool
  then ("pointing", VFloat "0.7", "keyword: coordinate query", [])
  else ("general", VFloat "0.6", "default: general question", []).

(** The task of the classification *)
Definition fallback_task (prompt : string) : string :=
  (classify_task_fallback prompt).1.1.1.

End SmartChat.

(** ** [scripts/pipeline_chat.py] *)

Module PipelineChat.

(** The keys of [ROBOBRAIN_TASKS], in the order of the table *)
Definition ROBOBRAIN_TASKS : list string :=
  ["general"; "grounding"; "affordance"; "trajectory"; "pointing"].

(** [x in xs] for strings *)
Definition str_in (x : string) (xs : list string) : bool :=
  existsb (String.eqb x) xs.

(** *** [class GroqPipelineDecomposer]

    The reply of [self.client.chat.completions.create(...)] followed by
    [response.choices[0].message.content] is an input of each method:
    [inl e] when any of this raises, [inr content] otherwise. *)

Definition completion : Type := string + string.

(** [\[[\s\S]*\]] *)
Definition json_array_pattern : Regex.regex :=
  Regex.seq (Regex.Lit "[") [Regex.Star Regex.any_char; Regex.Lit "]"].

(** The single-step pipeline [decompose] returns when it cannot use the
    decomposer's output *)
Definition single_general_step (query description : string) : list value :=
  [VDict [("step", VInt 1);
          ("task", VStr "general");
          ("prompt", VStr query);
          ("description", VStr description);
          ("use_previous", VBool false)]].

(** What can be raised while the decoded pipeline is post-processed *)
Inductive exn : Type :=
  | AttributeError
  | TypeError
  | ValueError.

(** [len(v)] *)
Definition py_len (v : value) : exn + Z :=
  match v with
  | VStr s => inr (PyStr.len s)
  | VList l => inr (Z.of_nat (length l))
  | VDict d => inr (Z.of_nat (length d))
  | _ => inl TypeError
  end.

Definition value_is_str (v : option value) (s : string) : bool :=
  match v with
  | Some (VStr s') => String.eqb s' s
  | _ => false
  end.

(** A step is a dictionary and, when its task is trajectory, its prompt
    is at least 50 long. *)
Definition well_formed_step (step : value) : Prop :=
  exists d, step = VDict d
    /\ (value_is_str (dict_get "task" d) "trajectory" = true ->
        exists p n, dict_get "prompt" d = Some p /\ py_len p = inr n /\ 50 <= n).

(** What [enhance_step] may change in a step: nothing but the entry
    [prompt], and that only when the task is trajectory. *)
Definition same_but_prompt (step step' : value) : Prop :=
  exists d d', step = VDict d /\ step' = VDict d'
    /\ (forall k, k <> "prompt" -> dict_get k d' = dict_get k d)
    /\ (value_is_str (dict_get "task" d) "trajectory" = false -> d' = d).

Section Decompose.
(** [json.loads] on a text that starts with an opening bracket: the
    decoded list, or [None] when [JSONDecodeError] is raised. *)
Variable json_loads : string -> option (list value).
(** [str(v)] for a list or a dictionary, as an f-string formats it *)
Variable py_str : value -> string.

(** [f"{v}"] *)
Definition format_value (v : value) : string :=
  match v with
  | VStr s => s
  | _ => py_str v
  end.

(** The body of the loop that lengthens short trajectory prompts, for
    one [step] of the decoded pipeline.  Only a dictionary has [get]. *)
Definition enhance_step (step : value) : exn + value :=
  match step with
  | VDict d =>
      if value_is_str (dict_get "task" d) "trajectory"
      then
        let prompt := default (VStr EmptyString) (dict_get "prompt" d) in
        n ← py_len prompt;
        if (n <? 50)%Z
        then inr (VDict (dict_set "prompt"
                (VStr ("generate trajectory waypoints for the robot end-effector to "
                         ++ format_value prompt)) d))
        else inr step
      else inr step
  | _ => inl AttributeError
  end.

Fixpoint enhance_steps (pipeline : list value) : exn + list value :=
  match pipeline with
  | [] => inr []
  | step :: rest =>
      step' ← enhance_step step;
      rest' ← enhance_steps rest;
      inr (step' :: rest')
  end.

(** [decompose] *)
Definition decompose (response : completion) (query : string) : list value :=
  match response with
  | inl _ => single_general_step query "Fallback: process as general query"
  | inr raw =>
      let content := PyStr.strip raw in
      match Regex.search json_array_pattern content with
      | Some text =>
          match json_loads text with
          | Some pipeline =>
              match enhance_steps pipeline with
              | inr pipeline' => pipeline'
              | inl _ =>
                  single_general_step query "Fallback: process as general query"
              end
          | None =>
              single_general_step query "Fallback: process as general query"
          end
      | None => single_general_step query "Process query directly"
      end
  end.

(** The reply of the decomposer cannot be used: the call raised, or the
    reply holds no bracketed span, or the span from its first opening
    bracket to its last closing bracket does not decode. *)
Definition unusable_reply (response : completion) : Prop :=
  match response with
  | inl _ => True
  | inr raw =>
      match Regex.search json_array_pattern (PyStr.strip raw) with
      | None => True
      | Some text => json_loads text = None
      end
  end.
End Decompose.

(** [classify_single] *)
Definition classify_single (response : completion) (query : string) : string :=
  match response with
  | inl _ => "general"
  | inr raw =>
      let task := PyStr.lower (PyStr.strip raw) in
      if str_in task ROBOBRAIN_TASKS then task else "general"
  end.

(** The characters removed from both ends of the reply: the double and
    the single quotation mark *)
Definition is_quote (c : ascii) : bool :=
  (Ascii.eqb c (ascii_of_nat 34) || Ascii.eqb c (ascii_of_nat 39))%bool.

(** [enhance_trajectory_prompt] *)
Definition enhance_trajectory_prompt (response : completion)
    (original_prompt : string) : string :=
  match response with
  | inl _ => original_prompt
  | inr raw =>
      let enhanced := PyStr.strip_by is_quote (PyStr.strip raw) in
      if PyStr.len enhanced >? PyStr.len original_prompt
      then enhanced else original_prompt
  end.

(** *** Coordinate extraction *)

(** [\((\d+(?:\.\d+)?)\s*,\s*(\d+(?:\.\d+)?)\)] *)
Definition point_pattern : Regex.regex :=
  Regex.seq (Regex.Lit "(")
    [Regex.number; Regex.comma; Regex.number; Regex.Lit ")"].

(** [\[(\d+(?:\.\d+)?)\s*,\s*(\d+(?:\.\d+)?)\s*,\s*(\d+(?:\.\d+)?)\s*,\s*(\d+(?:\.\d+)?)\]] *)
Definition box_pattern : Regex.regex :=
  Regex.seq (Regex.Lit "[")
    [Regex.number; Regex.comma; Regex.number; Regex.comma;
     Regex.number; Regex.comma; Regex.number; Regex.Lit "]"].

(** [\[(\d+(?:\.\d+)?)\s*,\s*(\d+(?:\.\d+)?)\]] *)
Definition bracket_pair_pattern : Regex.regex :=
  Regex.seq (Regex.Lit "[")
    [Regex.number; Regex.comma; Regex.number; Regex.Lit "]"].

(** The patterns [_parse_coordinates] tries for a task, in the order in
    which it tries them *)
Definition patterns_for (task : string) : list Regex.regex :=
  if String.eqb task "pointing" then [point_pattern]
  else if str_in task ["affordance"; "grounding"] then [box_pattern; point_pattern]
  else if String.eqb task "trajectory" then [bracket_pair_pattern; point_pattern]
  else [].

Section Engine.
(** Python's [float], with the operations the extraction uses.
    [py_float s] is [float(s)], [None] when it raises [ValueError];
    [float_of_int] converts the integer literal of a mixed
    operation. *)
Context {F : Type}.
Variable py_float : string -> option F.
Variable float_add float_sub : F -> F -> F.
Variable float_of_int : Z -> F.

(** The lists [_parse_coordinates] returns hold pairs for pointing and
    trajectory and quadruples for grounding and affordance. *)
Inductive geometry : Type :=
  | Points (pts : list (F * F))
  | Boxes (bxs : list (F * F * F * F)).

(** [bool(coords)] for an optional list *)
Definition geometry_truthy (g : option geometry) : bool :=
  match g with
  | Some (Points (_ :: _)) => true
  | Some (Boxes (_ :: _)) => true
  | _ => false
  end.

Definition to_float (s : string) : exn + F :=
  match py_float s with
  | Some x => inr x
  | None => inl ValueError
  end.

(** [(float(x), float(y))] for [x, y] bound to the groups of one match *)
Definition point_of (groups : list string) : exn + F * F :=
  match groups with
  | [x; y] =>
      fx ← to_float x;
      fy ← to_float y;
      inr (fx, fy)
  | _ => inl ValueError
  end.

(** [(float(x1), float(y1), float(x2), float(y2))] *)
Definition box_of (groups : list string) : exn + F * F * F * F :=
  match groups with
  | [x1; y1; x2; y2] =>
      a ← to_float x1;
      b ← to_float y1;
      c ← to_float x2;
      d ← to_float y2;
      inr (a, b, c, d)
  | _ => inl ValueError
  end.

(** [(cx - 30, cy - 30, cx + 30, cy + 30)] *)
Definition box_around (groups : list string) : exn + F * F * F * F :=
  match groups with
  | [x; y] =>
      cx ← to_float x;
      cy ← to_float y;
      inr (float_sub cx (float_of_int 30), float_sub cy (float_of_int 30),
           float_add cx (float_of_int 30), float_add cy (float_of_int 30))
  | _ => inl ValueError
  end.

(** A list comprehension whose element expression can raise *)
Fixpoint comprehension {A B : Type} (f : A -> exn + B) (l : list A)
    : exn + list B :=
  match l with
  | [] => inr []
  | a :: l' =>
      b ← f a;
      bs ← comprehension f l';
      inr (b :: bs)
  end.

(** The body of the [try] of [_parse_coordinates] *)
Definition parse_coordinates_body (answer task : string)
    : exn + option geometry :=
  if String.eqb task "pointing" then
    match Regex.findall point_pattern answer with
    | [] => inr None
    | matches => pts ← comprehension point_of matches; inr (Some (Points pts))
    end
  else if str_in task ["affordance"; "grounding"] then
    match Regex.findall box_pattern answer with
    | [] =>
        match Regex.findall point_pattern answer with
        | [] => inr None
        | matches =>
            bxs ← comprehension box_around matches; inr (Some (Boxes bxs))
        end
    | matches => bxs ← comprehension box_of matches; inr (Some (Boxes bxs))
    end
  else if String.eqb task "trajectory" then
    match Regex.findall bracket_pair_pattern answer with
    | [] =>
        match Regex.findall point_pattern answer with
        | [] => inr None
        | matches =>
            pts ← comprehension point_of matches; inr (Some (Points pts))
        end
    | matches => pts ← comprehension point_of matches; inr (Some (Points pts))
    end
  else inr None.

(** [_parse_coordinates]: an exception of the body is swallowed *)
Definition _parse_coordinates (answer task : string) : option geometry :=
  match parse_coordinates_body answer task with
  | inr result => result
  | inl _ => None
  end.

(** What the extraction reads from the groups of one match: a point,
    a box, and the box of half-width 30 around a point. *)
Definition reads_point (groups : list string) (p : F * F) : Prop :=
  exists x y cx cy,
    groups = [x; y] /\ py_float x = Some cx /\ py_float y = Some cy
    /\ p = (cx, cy).

Definition reads_box (groups : list string) (b : F * F * F * F) : Prop :=
  exists x1 y1 x2 y2 a1 b1 a2 b2,
    groups = [x1; y1; x2; y2]
    /\ py_float x1 = Some a1 /\ py_float y1 = Some b1
    /\ py_float x2 = Some a2 /\ py_float y2 = Some b2
    /\ b = (a1, b1, a2, b2).

Definition reads_box_around (groups : list string) (b : F * F * F * F) : Prop :=
  exists x y cx cy,
    groups = [x; y] /\ py_float x = Some cx /\ py_float y = Some cy
    /\ b = (float_sub cx (float_of_int 30), float_sub cy (float_of_int 30),
            float_add cx (float_of_int 30), float_add cy (float_of_int 30)).

(** *** [class PipelineExecutor] *)

(** A step of a pipeline: a dictionary whose entries may be absent *)
Record step_info : Type := mkStepInfo {
  si_step : option Z;
  si_task : option string;
  si_prompt : option string;
  si_description : option string;
  si_use_previous : option bool
}.

(** An entry of [results["steps"]].  The keys [answer] and [thinking]
    are present in the entry of a step that returned, the key [error]
    in the entry of a step that raised; [coordinates] and
    [visualization] are added when there is something to record. *)
Record step_result : Type := mkStepResult {
  sr_step : Z;
  sr_task : string;
  sr_prompt : string;
  sr_description : string;
  sr_answer : option string;
  sr_thinking : option string;
  sr_error : option string;
  sr_success : bool;
  sr_coordinates : option geometry;
  sr_visualization : option string
}.

(** The dictionary [execute_pipeline] returns *)
Record results : Type := mkResults {
  steps : list step_result;
  final_answer : string;
  visualizations : list string;
  success : bool
}.

(** The number, task and description an entry of the ledger takes from
    the step at position [i] of the pipeline, counted from 0 *)
Definition entry_of (i : nat) (si : step_info) (r : step_result) : Prop :=
  sr_step r = default (Z.of_nat i + 1) (si_step si)
  /\ sr_task r = default "general" (si_task si)
  /\ sr_description r = default EmptyString (si_description si).

(** [f"Step {step['step']} ({step['task']}): {step.get('answer', '')[:200]}"] *)
Definition step_summary (s : step_result) : string :=
  "Step " ++ PyStr.str_of_int (sr_step s) ++ " (" ++ sr_task s ++ "): "
    ++ PyStr.slice_to 200 (default EmptyString (sr_answer s)).

(** The separator of the summaries: two line feeds *)
Definition blank_line : string :=
  String (ascii_of_nat 10) (String (ascii_of_nat 10) EmptyString).

(** [_combine_results] *)
Definition _combine_results (steps : list step_result) : string :=
  match steps with
  | [] => "No results available."
  | _ =>
      let successful_steps := filter (fun s => sr_success s = true) steps in
      match successful_steps with
      | [s] => default EmptyString (sr_answer s)
      | _ => PyStr.join blank_line (map step_summary successful_steps)
      end
  end.

(** The entries [answer] and [thinking] of the dictionary [chat.ask]
    returns *)
Record ask_reply : Type := mkReply {
  reply_answer : option string;
  reply_thinking : option string
}.

(** The collaborators of the executor act on a world state [World],
    which holds the conversation memory with its current image, the
    remote services and the file system.
    - [chat_ask w prompt task enable_thinking] is [self.chat.ask(...)]:
      the new world and either the [str()] of the exception raised or
      the reply;
    - [groq_enhance], when the executor has a decomposer, is the
      completion call of [enhance_trajectory_prompt];
    - [visualize_step w answer task prompt step_num] is
      [_visualize_step] on the current image: the path of the picture,
      if one was written. *)
Context {World : Type}.
Variable chat_ask : World -> string -> string -> bool -> World * (string + ask_reply).
Variable groq_enhance : option (World -> string -> World * completion).
Variable visualize_step : World -> string -> string -> string -> Z -> World * option string.

(** The variables of the loop of [execute_pipeline] *)
Record exec_state : Type := mkExec {
  st_results : results;
  st_previous : option string;
  st_world : World
}.

Definition PLACEHOLDER : string := "{previous_result}".

(** The prompt after the previous result has been injected *)
Definition inject_previous (si : step_info) (previous_result : option string)
    : string :=
  let prompt := default EmptyString (si_prompt si) in
  match previous_result with
  | Some prev =>
      if (default false (si_use_previous si) && PyStr.truthy (Some prev))%bool
      then
        let prompt1 := PyStr.replace PLACEHOLDER prev prompt in
        if negb (PyStr.contains PLACEHOLDER (default EmptyString (si_prompt si)))
        then prompt1 ++ " (Context: " ++ PyStr.slice_to 200 prev ++ ")"
        else prompt1
      else prompt
  | None => prompt
  end.

(** The statements of an iteration that precede the [try]: the world
    and the prompt with which [chat.ask] is called *)
Definition prepare_step (st : exec_state) (si : step_info) : World * string :=
  let task := default "general" (si_task si) in
  let prompt1 := inject_previous si (st_previous st) in
  match groq_enhance with
  | Some enhance =>
      if (String.eqb task "trajectory" && (PyStr.len prompt1 <? 80)%Z)%bool
      then let '(w', response) := enhance (st_world st) prompt1 in
           (w', enhance_trajectory_prompt response prompt1)
      else (st_world st, prompt1)
  | None => (st_world st, prompt1)
  end.

(** The entry recorded for a step that raised [e] *)
Definition failed_step (step_num : Z) (task prompt description e : string)
    : step_result :=
  {| sr_step := step_num; sr_task := task; sr_prompt := prompt;
     sr_description := description;
     sr_answer := None; sr_thinking := None;
     sr_error := Some e; sr_success := false;
     sr_coordinates := None; sr_visualization := None |}.

(** One iteration of the loop *)
Definition execute_step (enable_thinking : bool) (st : exec_state)
    (si : step_info) : exec_state :=
  let res := st_results st in
  let step_num := default (Z.of_nat (length (steps res)) + 1) (si_step si) in
  let task := default "general" (si_task si) in
  let description := default EmptyString (si_description si) in
  let '(w1, prompt) := prepare_step st si in
  match chat_ask w1 prompt task enable_thinking with
  | (w2, inr reply) =>
      let answer := default EmptyString (reply_answer reply) in
      let thinking := default EmptyString (reply_thinking reply) in
      let coords := _parse_coordinates answer task in
      let has_coords := geometry_truthy coords in
      let '(w3, vis_path) :=
        if (str_in task ["grounding"; "affordance"; "trajectory"; "pointing"]
            && has_coords)%bool
        then visualize_step w2 answer task prompt step_num
        else (w2, None) in
      let step_result :=
        {| sr_step := step_num; sr_task := task; sr_prompt := prompt;
           sr_description := description;
           sr_answer := Some answer; sr_thinking := Some thinking;
           sr_error := None; sr_success := true;
           sr_coordinates := if has_coords then coords else None;
           sr_visualization := vis_path |} in
      {| st_results :=
           {| steps := (steps res ++ [step_result])%list;
              final_answer := final_answer res;
              visualizations :=
                match vis_path with
                | Some p => (visualizations res ++ [p])%list
                | None => visualizations res
                end;
              success := success res |};
         st_previous := Some answer;
         st_world := w3 |}
  | (w2, inl e) =>
      let step_result := failed_step step_num task prompt description e in
      {| st_results :=
           {| steps := (steps res ++ [step_result])%list;
              final_answer := final_answer res;
              visualizations := visualizations res;
              success := false |};
         st_previous := Some ("Error: " ++ e);
         st_world := w2 |}
  end.

(** The state before the first iteration *)
Definition initial_state (w : World) : exec_state :=
  {| st_results := {| steps := []; final_answer := EmptyString;
                      visualizations := []; success := true |};
     st_previous := None;
     st_world := w |}.

(** The state after the loop over [pipeline] *)
Definition run_steps (enable_thinking : bool) (pipeline : list step_info)
    (st : exec_state) : exec_state :=
  fold_left (execute_step enable_thinking) pipeline st.

(** [execute_pipeline]: the world after the run and the results *)
Definition execute_pipeline (w : World) (pipeline : list step_info)
    (enable_thinking : bool) : World * results :=
  let st := run_steps enable_thinking pipeline (initial_state w) in
  let res := st_results st in
  (st_world st,
   {| steps := steps res;
      final_answer := _combine_results (steps res);
      visualizations := visualizations res;
      success := success res |}).
(** The tasks whose answers are drawn on the image *)
Definition spatial_tasks : list string :=
  ["grounding"; "affordance"; "trajectory"; "pointing"].

(** An entry of the ledger is consistent: a success has an answer and a
    reasoning and no error, its coordinates are what
    [_parse_coordinates] finds in its answer, and it has a visualization
    only for a spatial task with coordinates; a failure has an error and
    nothing else. *)
Definition consistent_entry (r : step_result) : Prop :=
  if sr_success r
  then exists answer thinking,
         sr_answer r = Some answer /\ sr_thinking r = Some thinking
         /\ sr_error r = None
         /\ sr_coordinates r
            = (if geometry_truthy (_parse_coordinates answer (sr_task r))
               then _parse_coordinates answer (sr_task r) else None)
         /\ (is_Some (sr_visualization r) ->
             str_in (sr_task r) spatial_tasks = true
             /\ geometry_truthy (sr_coordinates r) = true)
  else sr_answer r = None /\ sr_thinking r = None
       /\ is_Some (sr_error r)
       /\ sr_coordinates r = None /\ sr_visualization r = None.

(** The paths of the visualizations of the entries of a ledger, in the
    order of the entries *)
Definition visualization_paths (l : list step_result) : list string :=
  omap sr_visualization l.

(** What the loop keeps as [previous_result] after it recorded an entry:
    the answer of a step that returned, [Error: ] followed by the error
    of a step that raised *)
Definition carried_result (r : step_result) : string :=
  if sr_success r then default EmptyString (sr_answer r)
  else "Error: " ++ default EmptyString (sr_error r).
End Engine.

End PipelineChat.

(** ** The coordinate parsers of the other chat scripts *)

(** [scripts/smart_chat.py]: [parse_coordinates] *)
Module SmartChatCoordinates.
Import PipelineChat.

Section Parser.
Context {F : Type}.
Variable py_float : string -> option F.
Variable float_add float_sub : F -> F -> F.
Variable float_of_int : Z -> F.

(** The body of the [try] *)
Definition parse_coordinates_body (answer task : string)
    : exn + option (geometry (F:=F)) :=
  if String.eqb task "pointing" then
    match Regex.findall point_pattern answer with
    | [] => inr None
    | matches =>
        pts ← comprehension (point_of py_float) matches; inr (Some (Points pts))
    end
  else if (String.eqb task "affordance" || String.eqb task "grounding")%bool then
    match Regex.findall box_pattern answer with
    | [] =>
        match Regex.findall point_pattern answer with
        | [] => inr None
        | matches =>
            bxs ← comprehension
                    (box_around py_float float_add float_sub float_of_int)
                    matches;
            inr (Some (Boxes bxs))
        end
    | matches =>
        bxs ← comprehension (box_of py_float) matches; inr (Some (Boxes bxs))
    end
  else if String.eqb task "trajectory" then
    match Regex.findall bracket_pair_pattern answer with
    | [] =>
        match Regex.findall point_pattern answer with
        | [] => inr None
        | matches =>
            pts ← comprehension (point_of py_float) matches;
            inr (Some (Points pts))
        end
    | matches =>
        pts ← comprehension (point_of py_float) matches; inr (Some (Points pts))
    end
  else inr None.

(** [parse_coordinates]: an exception of the body is reported on the
    console and the result is [None] *)
Definition parse_coordinates (answer task : string) : option (geometry (F:=F)) :=
  match parse_coordinates_body answer task with
  | inr result => result
  | inl _ => None
  end.
End Parser.

End SmartChatCoordinates.

(** [scripts/interactive_chat.py]: [parse_coordinates] *)
Module InteractiveChat.
Import PipelineChat.

Section Parser.
Context {F : Type}.
Variable py_float : string -> option F.

(** The body of the [try] *)
Definition parse_coordinates_body (answer task : string)
    : exn + option (geometry (F:=F)) :=
  if String.eqb task "pointing" then
    match Regex.findall point_pattern answer with
    | [] => inr None
    | matches =>
        pts ← comprehension (point_of py_float) matches; inr (Some (Points pts))
    end
  else if (String.eqb task "affordance" || String.eqb task "grounding")%bool then
    match Regex.findall box_pattern answer with
    | [] => inr None
    | matches =>
        bxs ← comprehension (box_of py_float) matches; inr (Some (Boxes bxs))
    end
  else if String.eqb task "trajectory" then
    match Regex.findall bracket_pair_pattern answer with
    | [] =>
        match Regex.findall point_pattern answer with
        | [] => inr None
        | matches =>
            pts ← comprehension (point_of py_float) matches;
            inr (Some (Points pts))
        end
    | matches =>
        pts ← comprehension (point_of py_float) matches; inr (Some (Points pts))
    end
  else inr None.

(** [parse_coordinates] *)
Definition parse_coordinates (answer task : string) : option (geometry (F:=F)) :=
  match parse_coordinates_body answer task with
  | inr result => result
  | inl _ => None
  end.
End Parser.

End InteractiveChat.

(** ** Numerals and an exact model of [float] *)

Module Numerals.

(** The texts a group [(\d+(?:\.\d+)?)] captures: one or more digits,
    optionally followed by a point and one or more digits.  [seen] tells
    whether a digit was read since the start or since the point; [frac]
    whether the point was read. *)
Fixpoint numeral_from (seen frac : bool) (s : string) : bool :=
  match s with
  | EmptyString => seen
  | String c s' =>
      if PyStr.is_digit c then numeral_from true frac s'
      else if (Ascii.eqb c "." && seen && negb frac)%bool
      then numeral_from false true s'
      else false
  end.

Definition is_numeral (s : string) : bool := numeral_from false false s.

(** The value of a sequence of digits that follows the digits of value
    [acc]; the count of digits read after the point is added to [scale]
    when [frac] is set. *)
Fixpoint read_digits (frac : bool) (acc : Z) (scale : nat) (s : string)
    : Z * nat :=
  match s with
  | EmptyString => (acc, scale)
  | String c s' =>
      if PyStr.is_digit c
      then read_digits frac (10 * acc + Z.of_nat (nat_of_ascii c - 48))
             (if frac then S scale else scale) s'
      else read_digits true acc scale s'
  end.

(** [float(s)] on a numeral, as the exact rational it denotes; the
    rounding to binary floating point is left out of this model. *)
Definition exact_float (s : string) : option Q :=
  if is_numeral s
  then let '(m, k) := read_digits false 0 O s in
       Some (Qred (Qmake m (Z.to_pos (10 ^ Z.of_nat k))))
  else None.

Definition exact_add (a b : Q) : Q := Qred (Qplus a b).
Definition exact_sub (a b : Q) : Q := Qred (Qminus a b).
Definition exact_of_int (n : Z) : Q := inject_Z n.

End Numerals.

(** ** Scripted collaborators

    Stand-ins for the remote services, for running the executor on
    examples: the world is the list of the outcomes the next calls of
    [chat.ask] will have; there is no decomposer and no renderer. *)

Module Scripted.

Definition world : Type := list (string + PipelineChat.ask_reply).

Definition chat_ask (w : world) (prompt task : string) (enable_thinking : bool)
    : world * (string + PipelineChat.ask_reply) :=
  match w with
  | outcome :: w' => (w', outcome)
  | [] => ([], inl "script exhausted")
  end.

Definition visualize_step (w : world) (answer task prompt : string) (step_num : Z)
    : world * option string :=
  (w, None).

(** The reply [{"answer": a, "thinking": ""}] *)
Definition answers (a : string) : string + PipelineChat.ask_reply :=
  inr {| PipelineChat.reply_answer := Some a;
         PipelineChat.reply_thinking := Some EmptyString |}.

(** [execute_pipeline] with exact floats and the scripted collaborators *)
Definition execute_pipeline (w : world)
    (pipeline : list PipelineChat.step_info) (enable_thinking : bool)
    : world * PipelineChat.results (F := Q) :=
  PipelineChat.execute_pipeline Numerals.exact_float
    Numerals.exact_add Numerals.exact_sub Numerals.exact_of_int
    chat_ask None visualize_step w pipeline enable_thinking.

(** [_parse_coordinates] with exact floats *)
Definition parse_coordinates (answer task : string)
    : option (PipelineChat.geometry (F := Q)) :=
  PipelineChat._parse_coordinates Numerals.exact_float
    Numerals.exact_add Numerals.exact_sub Numerals.exact_of_int answer task.

(** A stand-in for [json.loads] that decodes two texts only *)
Definition json_loads (text : string) : option (list value) :=
  if String.eqb text "[]" then Some []
  else if String.eqb text "[1, 2]" then Some [VInt 1; VInt 2]
  else None.

(** A stand-in for [str] on containers *)
Definition py_str (v : value) : string := "<container>".

(** A step given by all its entries *)
Definition step (n : Z) (task prompt description : string) (use_previous : bool)
    : PipelineChat.step_info :=
  {| PipelineChat.si_step := Some n;
     PipelineChat.si_task := Some task;
     PipelineChat.si_prompt := Some prompt;
     PipelineChat.si_description := Some description;
     PipelineChat.si_use_previous := Some use_previous |}.

(** A text between double quotation marks *)
Definition quoted (s : string) : string :=
  String (ascii_of_nat 34) (s ++ String (ascii_of_nat 34) EmptyString).

(** The JSON text of a pipeline of two steps: a grounding step and a
    trajectory step with a short prompt *)
Definition two_steps_text : string :=
  "[{" ++ quoted "step" ++ ": 1, " ++ quoted "task" ++ ": " ++ quoted "grounding"
    ++ ", " ++ quoted "prompt" ++ ": " ++ quoted "the red cup" ++ "}, {"
    ++ quoted "step" ++ ": 2, " ++ quoted "task" ++ ": " ++ quoted "trajectory"
    ++ ", " ++ quoted "prompt" ++ ": " ++ quoted "move to the cup" ++ "}]".

(** What [json.loads] gives for [two_steps_text] *)
Definition two_steps : list value :=
  [VDict [("step", VInt 1); ("task", VStr "grounding");
          ("prompt", VStr "the red cup")];
   VDict [("step", VInt 2); ("task", VStr "trajectory");
          ("prompt", VStr "move to the cup")]].

(** A stand-in for [json.loads] that decodes [two_steps_text] only *)
Definition json_loads_two_steps (text : string) : option (list value) :=
  if String.eqb text two_steps_text then Some two_steps else None.

End Scripted.

(** ** The executor on its own chat object

    [PipelineExecutor.__init__] builds [self.chat] as a
    [MultiTurnInference], so that [self.chat.ask] is the [ask] of
    [conversation_memory.py].  The world is then the chat object, the
    outcomes the next calls of [model.inference] will have, and a clock;
    there is no decomposer and no renderer. *)

Module Integrated.

Record world : Type := mkWorld {
  chat : ConversationMemory.MultiTurnInference;
  model_outcomes : list (string + ConversationMemory.model_result);
  clock : Z
}.

(** The text of an entry of a dictionary, when it is a string *)
Definition text_entry (key : string) (d : dict) : option string :=
  match dict_get key d with
  | Some (VStr s) => Some s
  | _ => None
  end.

(** [self.chat.ask(prompt, task=task, enable_thinking=enable_thinking)]:
    [ask] catches what the model raises, so the call returns a
    dictionary in every case. *)
Definition chat_ask (w : world) (prompt task : string) (enable_thinking : bool)
    : world * (string + PipelineChat.ask_reply) :=
  let model : ConversationMemory.inference_fn :=
    fun _ _ _ _ _ _ =>
      match model_outcomes w with
      | outcome :: _ => outcome
      | [] => inr ConversationMemory.MNone
      end in
  let '(chat', d) :=
    ConversationMemory.ask model prompt None task enable_thinking true false
      (PyStr.str_of_int (clock w)) (PyStr.str_of_int (clock w + 1)) (chat w) in
  ({| chat := chat'; model_outcomes := tail (model_outcomes w);
      clock := clock w + 2 |},
   inr {| PipelineChat.reply_answer := text_entry "answer" d;
          PipelineChat.reply_thinking := text_entry "thinking" d |}).

Definition visualize_step (w : world) (answer task prompt : string) (step_num : Z)
    : world * option string :=
  (w, None).

(** [PipelineExecutor(model, repo_dir)] followed by [set_image(image)] *)
Definition new_world (image : string)
    (outcomes : list (string + ConversationMemory.model_result)) : world :=
  {| chat := ConversationMemory.set_image image ConversationMemory.new_chat;
     model_outcomes := outcomes;
     clock := 0 |}.

Definition execute_pipeline (w : world)
    (pipeline : list PipelineChat.step_info) (enable_thinking : bool)
    : world * PipelineChat.results (F := Q) :=
  PipelineChat.execute_pipeline Numerals.exact_float
    Numerals.exact_add Numerals.exact_sub Numerals.exact_of_int
    chat_ask None visualize_step w pipeline enable_thinking.

End Integrated.

(** ** [backend.py]: the task classifier and the sessions store *)

Module Backend.

(** [classify_task_with_groq].  [api_key] is what
    [os.getenv] returns for the key; [response] is the outcome of the
    statements of the [try] up to [message.content]. *)
Definition classify_task_with_groq (api_key : option string)
    (response : PipelineChat.completion) : string :=
  if negb (PyStr.truthy api_key) then "general"
  else
    match response with
    | inl _ => "general"
    | inr content =>
        let task := PyStr.lower (PyStr.strip content) in
        let valid_tasks :=
          ["general"; "grounding"; "affordance"; "trajectory"; "pointing"] in
        if negb (PipelineChat.str_in task valid_tasks) then "general" else task
    end.

(** The module-level state the session handlers use: whether [model] is
    not [None], and the dictionary [sessions] *)
Record server : Type := mkServer {
  model_loaded : bool;
  sessions : gmap string ConversationMemory.MultiTurnInference
}.

Definition set_sessions
    (ss : gmap string ConversationMemory.MultiTurnInference) (s : server)
    : server :=
  {| model_loaded := model_loaded s; sessions := ss |}.

(** The body given to [jsonify] and the status of the response *)
Definition response : Type := (value * Z)%type.

Definition session_not_found : response :=
  (VDict [("error", VStr "Session not found")], 404).

(** [health_check] *)
Definition health_check (s : server) : response :=
  (VDict [("status", VStr "healthy");
          ("model_loaded", VBool (model_loaded s));
          ("active_sessions", VInt (Z.of_nat (size (sessions s))))], 200).

(** [create_session]; [session_id] is [str(uuid.uuid4())]. *)
Definition create_session (session_id : string) (s : server)
    : server * response :=
  if negb (model_loaded s)
  then (s, (VDict [("error", VStr "Model not initialized")], 503))
  else (set_sessions (<[session_id := ConversationMemory.new_chat]> (sessions s)) s,
        (VDict [("session_id", VStr session_id);
                ("sessionId", VStr session_id)], 200)).

(** [delete_session] *)
Definition delete_session (session_id : string) (s : server)
    : server * response :=
  match sessions s !! session_id with
  | Some _ =>
      (set_sessions (delete session_id (sessions s)) s,
       (VDict [("status", VStr "deleted")], 200))
  | None => (s, session_not_found)
  end.

(** [reset_session] *)
Definition reset_session (session_id : string) (s : server)
    : server * response :=
  match sessions s !! session_id with
  | Some c =>
      (set_sessions (<[session_id := ConversationMemory.reset c]> (sessions s)) s,
       (VDict [("status", VStr "reset")], 200))
  | None => (s, session_not_found)
  end.

(** [get_history] *)
Definition get_history (session_id : string) (s : server) : response :=
  match sessions s !! session_id with
  | Some c =>
      (VList (map ConversationMemory.turn_record
                (ConversationMemory.turns (ConversationMemory.memory c))), 200)
  | None => session_not_found
  end.

End Backend.

(** ** Python objects

    The typed modules above describe the code on arguments of the
    declared types.  Nothing in the code enforces these types: a decoded
    step, the answer of the model and the metadata of a turn are Python
    objects of any kind.  The modules below describe the same code on
    objects. *)

Module PyObj.

(** Python objects: [None], booleans, integers, floats (identified by
    their [repr]), strings, lists, tuples, and dictionaries in insertion
    order, whose keys are objects too. *)
Inductive pyval : Type :=
  | PNone
  | PBool (b : bool)
  | PInt (n : Z)
  | PFloat (repr : string)
  | PStr (s : string)
  | PList (items : list pyval)
  | PTuple (items : list pyval)
  | PDict (entries : list (pyval * pyval)).

Definition pdict : Type := list (pyval * pyval).

Definition is_nil {A : Type} (l : list A) : bool :=
  match l with
  | [] => true
  | _ => false
  end.

(** [bool(v)] *)
Definition truthy (v : pyval) : bool :=
  match v with
  | PNone => false
  | PBool b => b
  | PInt n => negb (n =? 0)%Z
  | PFloat r => negb (String.eqb r "0.0" || String.eqb r "-0.0")
  | PStr s => negb (String.eqb s EmptyString)
  | PList l => negb (is_nil l)
  | PTuple l => negb (is_nil l)
  | PDict d => negb (is_nil d)
  end.

(** [a or b] *)
Definition or_else (a b : pyval) : pyval := if truthy a then a else b.

(** [v == s] for a string [s]: only a string equals a string. *)
Definition eq_str (v : pyval) (s : string) : bool :=
  match v with
  | PStr s' => String.eqb s' s
  | _ => false
  end.

(** [d.get(key)] for a string [key], as an [option] *)
Fixpoint pget (key : string) (d : pdict) : option pyval :=
  match d with
  | [] => None
  | (k, v) :: d' => if eq_str k key then Some v else pget key d'
  end.

(** [d.get(key, dflt)] *)
Definition get_default (key : string) (dflt : pyval) (d : pdict) : pyval :=
  match pget key d with
  | Some v => v
  | None => dflt
  end.

(** [d[key] = v] for a string [key] *)
Fixpoint pset (key : string) (v : pyval) (d : pdict) : pdict :=
  match d with
  | [] => [(PStr key, v)]
  | (k, v') :: d' =>
      if eq_str k key then (k, v) :: d' else (k, v') :: pset key v d'
  end.

(** What a failed operation on an object raises: [obj.name] on an
    object without that attribute, [obj[:n]] on an object that cannot be
    sliced, [len(obj)] on an object without a length. *)
Inductive exn : Type :=
  | NoAttribute (obj : pyval) (name : string)
  | CannotSlice (obj : pyval)
  | NoLength (obj : pyval).

(** [v[:n]] for a literal [n >= 0] *)
Definition slice_to (n : nat) (v : pyval) : exn + pyval :=
  match v with
  | PStr s => inr (PStr (PyStr.slice_to n s))
  | PList l => inr (PList (take n l))
  | PTuple l => inr (PTuple (take n l))
  | _ => inl (CannotSlice v)
  end.

(** The objects that can be sliced: strings, lists and tuples *)
Definition sliceable (v : pyval) : bool :=
  match v with
  | PStr _ | PList _ | PTuple _ => true
  | _ => false
  end.

(** [len(v)] *)
Definition len (v : pyval) : exn + Z :=
  match v with
  | PStr s => inr (PyStr.len s)
  | PList l => inr (Z.of_nat (length l))
  | PTuple l => inr (Z.of_nat (length l))
  | PDict d => inr (Z.of_nat (length d))
  | _ => inl (NoLength v)
  end.

Section Text.
(** [str(v)] for a list, a tuple or a dictionary *)
Variable container_str : pyval -> string.

(** [str(v)], which is also how an f-string formats [v] *)
Definition to_text (v : pyval) : string :=
  match v with
  | PNone => "None"
  | PBool true => "True"
  | PBool false => "False"
  | PInt n => PyStr.str_of_int n
  | PFloat r => r
  | PStr s => s
  | _ => container_str v
  end.
End Text.

(** *** The [json] library

    A document is a [value].  [json.dump] writes lists and tuples as
    arrays, and turns the keys of a dictionary into strings; it raises
    [TypeError] on a key that is a tuple.  [json.load] reads an array as
    a list and an object as a dictionary, in which a repeated key keeps
    its first position and its last value. *)

(** The key [json.dump] writes for a float *)
Definition float_key (r : string) : string :=
  if String.eqb r "nan" then "NaN"
  else if String.eqb r "inf" then "Infinity"
  else if String.eqb r "-inf" then "-Infinity"
  else r.

Definition json_key (k : pyval) : option string :=
  match k with
  | PStr s => Some s
  | PInt n => Some (PyStr.str_of_int n)
  | PBool true => Some "true"
  | PBool false => Some "false"
  | PNone => Some "null"
  | PFloat r => Some (float_key r)
  | _ => None
  end.

(** The document [json.dump] writes for an object, [None] when it
    raises *)
Fixpoint to_json (v : pyval) : option value :=
  match v with
  | PNone => Some VNone
  | PBool b => Some (VBool b)
  | PInt n => Some (VInt n)
  | PFloat r => Some (VFloat r)
  | PStr s => Some (VStr s)
  | PList l =>
      VList <$> (fix go (l : list pyval) : option (list value) :=
                   match l with
                   | [] => Some []
                   | x :: l' =>
                       match to_json x, go l' with
                       | Some j, Some js => Some (j :: js)
                       | _, _ => None
                       end
                   end) l
  | PTuple l =>
      VList <$> (fix go (l : list pyval) : option (list value) :=
                   match l with
                   | [] => Some []
                   | x :: l' =>
                       match to_json x, go l' with
                       | Some j, Some js => Some (j :: js)
                       | _, _ => None
                       end
                   end) l
  | PDict d =>
      VDict <$> (fix go (d : pdict) : option (list (string * value)) :=
                   match d with
                   | [] => Some []
                   | (k, x) :: d' =>
                       match json_key k, to_json x, go d' with
                       | Some s, Some j, Some js => Some ((s, j) :: js)
                       | _, _, _ => None
                       end
                   end) d
  end.

(** The object [json.load] builds from a document *)
Fixpoint of_json (j : value) : pyval :=
  match j with
  | VNone => PNone
  | VBool b => PBool b
  | VInt n => PInt n
  | VFloat r => PFloat r
  | VStr s => PStr s
  | VList l => PList (map of_json l)
  | VDict d =>
      PDict ((fix go (d : list (string * value)) (acc : pdict) : pdict :=
                match d with
                | [] => acc
                | (k, x) :: d' => go d' (pset k (of_json x) acc)
                end) d [])
  end.

(** The string keys of a dictionary *)
Definition str_keys (d : pdict) : list string :=
  omap (fun kv => match kv.1 with PStr s => Some s | _ => None end) d.

(** The objects a document stands for: no tuple, and dictionaries whose
    keys are distinct strings *)
Fixpoint json_like (v : pyval) : bool :=
  match v with
  | PList l => forallb json_like l
  | PTuple _ => false
  | PDict d =>
      ((fix go (d : pdict) : bool :=
          match d with
          | [] => true
          | (PStr _, x) :: d' => json_like x && go d'
          | _ => false
          end) d
       && bool_decide (NoDup (str_keys d)))%bool
  | _ => true
  end.

End PyObj.

(** ** [conversation_memory.py] on objects *)

Module DynamicMemory.
Import PyObj.

(** [class Turn]: the fields hold what they were given. *)
Record Turn : Type := mkTurn {
  role : pyval;
  content : pyval;
  image_path : pyval;
  task : pyval;
  timestamp : pyval;
  metadata : pyval
}.

(** [class ConversationMemory] *)
Record Memory : Type := mkMemory {
  turns : list Turn;
  current_image : pyval;
  max_turns : Z
}.

(** [ConversationMemory()] *)
Definition new_memory : Memory :=
  {| turns := []; current_image := PNone; max_turns := 20 |}.

Definition set_turns (ts : list Turn) (m : Memory) : Memory :=
  {| turns := ts; current_image := current_image m; max_turns := max_turns m |}.

Definition set_current_image (img : pyval) (m : Memory) : Memory :=
  {| turns := turns m; current_image := img; max_turns := max_turns m |}.

(** [__len__] *)
Definition len (m : Memory) : Z := Z.of_nat (length (turns m)).

(** [_trim_history] *)
Definition _trim_history (m : Memory) : Memory :=
  if len m >? max_turns m
  then set_turns (PyStr.slice_from (- max_turns m) (turns m)) m
  else m.

(** [add_user_turn]; [now] is [datetime.now().isoformat()] at the call. *)
Definition add_user_turn (content image_path task : pyval) (now : string)
    (m : Memory) : Memory :=
  let m1 := if truthy image_path then set_current_image image_path m else m in
  let turn := {| role := PStr "user";
                 content := content;
                 image_path := or_else image_path (current_image m1);
                 task := task;
                 timestamp := PStr now;
                 metadata := PDict [] |} in
  _trim_history (set_turns (turns m1 ++ [turn]) m1).

(** [add_assistant_turn] *)
Definition add_assistant_turn (content metadata : pyval) (now : string)
    (m : Memory) : Memory :=
  let turn := {| role := PStr "assistant";
                 content := content;
                 image_path := current_image m;
                 task := PNone;
                 timestamp := PStr now;
                 metadata := or_else metadata (PDict []) |} in
  _trim_history (set_turns (turns m ++ [turn]) m).

(** [self.turns.pop()] *)
Definition pop_turn (m : Memory) : Memory :=
  set_turns (removelast (turns m)) m.

(** *** Persistence

    A file holds the text of a document, or a text that is not one:
    [json.dump] writes as it goes, so that a [save] that raises leaves
    the beginning of a document behind. *)
Inductive file : Type :=
  | Document (doc : value)
  | Unfinished.

Inductive error : Type :=
  | FileNotFoundError
  | JSONDecodeError
  | KeyError (key : string)
  | TypeError
  | AttributeError.

Definition turn_record (t : Turn) : pyval :=
  PDict [(PStr "role", role t);
         (PStr "content", content t);
         (PStr "image_path", image_path t);
         (PStr "task", task t);
         (PStr "timestamp", timestamp t);
         (PStr "metadata", metadata t)].

(** The dictionary [save] gives to [json.dump] *)
Definition saved_data (m : Memory) : pyval :=
  PDict [(PStr "current_image", current_image m);
         (PStr "turns", PList (map turn_record (turns m)))].

(** [save]: the file system after the call and the exception raised, if
    any *)
Definition save (filepath : string) (m : Memory) (fs : gmap string file)
    : gmap string file * option error :=
  match to_json (saved_data m) with
  | Some doc => (<[filepath := Document doc]> fs, None)
  | None => (<[filepath := Unfinished]> fs, Some TypeError)
  end.

(** [t[key]] on a dictionary *)
Definition item (key : string) (d : pdict) : error + pyval :=
  match pget key d with
  | Some v => inr v
  | None => inl (KeyError key)
  end.

(** The [Turn(...)] expression of [load] for one element of the stored
    list: subscripting anything but a dictionary with a string raises
    [TypeError]. *)
Definition load_turn (t : pyval) : error + Turn :=
  match t with
  | PDict d =>
      r ← item "role" d;
      c ← item "content" d;
      inr {| role := r; content := c;
             image_path := get_default "image_path" PNone d;
             task := get_default "task" PNone d;
             timestamp := get_default "timestamp" (PStr EmptyString) d;
             metadata := get_default "metadata" (PDict []) d |}
  | _ => inl TypeError
  end.

Fixpoint load_turns (l : list pyval) : error + list Turn :=
  match l with
  | [] => inr []
  | t :: l' =>
      x ← load_turn t;
      xs ← load_turns l';
      inr (x :: xs)
  end.

(** The elements a [for] loop over an object visits *)
Definition iterate (v : pyval) : error + list pyval :=
  match v with
  | PList l => inr l
  | PTuple l => inr l
  | PDict d => inr (map fst d)
  | PStr s =>
      inr (map (fun c => PStr (String c EmptyString)) (list_ascii_of_string s))
  | _ => inl TypeError
  end.

(** [load]: the memory after the call and the exception raised, if any *)
Definition load (filepath : string) (fs : gmap string file) (m : Memory)
    : Memory * option error :=
  match fs !! filepath with
  | None => (m, Some FileNotFoundError)
  | Some Unfinished => (m, Some JSONDecodeError)
  | Some (Document doc) =>
      match of_json doc with
      | PDict d =>
          let m1 := set_current_image (get_default "current_image" PNone d) m in
          match iterate (get_default "turns" (PList []) d) ≫= load_turns with
          | inl e => (m1, Some e)
          | inr ts => (set_turns ts m1, None)
          end
      | _ => (m, Some AttributeError)
      end
  end.

(** A memory whose fields are objects a document stands for *)
Definition turn_json_like (t : Turn) : bool :=
  (json_like (role t) && json_like (content t) && json_like (image_path t)
   && json_like (task t) && json_like (timestamp t)
   && json_like (metadata t))%bool.

Definition memory_json_like (m : Memory) : bool :=
  (json_like (current_image m) && forallb turn_json_like (turns m))%bool.

(** *** [class MultiTurnInference] *)

Record MultiTurnInference : Type := mkChat {
  memory : Memory;
  use_context : bool
}.

(** [MultiTurnInference(model, repo_dir)] *)
Definition new_chat : MultiTurnInference :=
  {| memory := new_memory; use_context := true |}.

(** [set_image] *)
Definition set_image (image_path : pyval) (c : MultiTurnInference)
    : MultiTurnInference :=
  {| memory := set_current_image image_path (memory c);
     use_context := use_context c |}.

Section Ask.
Variable container_str : pyval -> string.
Local Abbreviation to_text := (to_text container_str).

(** [get_context_prompt] *)
Definition get_context_prompt (include_images : bool) (m : Memory) : string :=
  match turns m with
  | [] => EmptyString
  | _ =>
      let line (t : Turn) :=
        let role_label := if eq_str (role t) "user" then "User" else "Assistant" in
        if (truthy (image_path t) && include_images
            && eq_str (role t) "user")%bool
        then role_label ++ " (with image): " ++ to_text (content t)
        else role_label ++ ": " ++ to_text (content t) in
      PyStr.join (String (ascii_of_nat 10) EmptyString)
        (["[Previous conversation context]"]
           ++ map line (PyStr.slice_from (-10) (turns m))
           ++ ["[Current query]"])
  end.

(** The collaborators of [ask] act on an environment [Env]: the state
    of the vision model and the clock.
    - [clock e] is [datetime.now().isoformat()];
    - [inference e full_prompt img task enable_thinking do_sample plot]
      is [self.model.inference(...)]: [inl s] is an exception whose
      [str()] is [s], [inr result] the object returned. *)
Context {Env : Type}.
Variable clock : Env -> Env * string.
Variable inference :
  Env -> pyval -> pyval -> pyval -> bool -> bool -> bool -> Env * (string + pyval).

Definition no_image_error : pdict :=
  [(PStr "error", PStr "No image set. Use set_image() or provide image_path.")].

(** The prompt [ask] sends to the model *)
Definition full_prompt (c : MultiTurnInference) (prompt : pyval) : pyval :=
  if (use_context c && (len (memory c) >? 0))%bool
  then PStr (get_context_prompt true (memory c)
               ++ String (ascii_of_nat 10) EmptyString ++ to_text prompt)
  else prompt.

(** The answer, the reasoning and the output image [ask] reads from
    what the model returned *)
Definition reply_of (result : pyval) : pyval * pyval * pyval :=
  match result with
  | PNone => (PStr "No response from model", PStr EmptyString, PNone)
  | PDict d =>
      (get_default "answer" (PStr (to_text result)) d,
       get_default "thinking" (PStr EmptyString) d,
       get_default "output_image" PNone d)
  | PStr s => (result, PStr EmptyString, PNone)
  | _ => (PStr (to_text result), PStr EmptyString, PNone)
  end.

(** [ask]: no statement of it raises, the call of the model being
    guarded. *)
Definition ask (prompt image_path task : pyval)
    (enable_thinking do_sample plot : bool)
    (w : MultiTurnInference * Env) : (MultiTurnInference * Env) * pdict :=
  let '(c, e) := w in
  let img := or_else image_path (current_image (memory c)) in
  if negb (truthy img) then (w, no_image_error) else
  let sent := full_prompt c prompt in
  let '(e1, now_user) := clock e in
  let m1 := add_user_turn prompt image_path task now_user (memory c) in
  match inference e1 sent img task enable_thinking do_sample plot with
  | (e2, inl s) =>
      let error_msg := "Inference error: " ++ s in
      let m2 :=
        match last (turns m1) with
        | Some t => if eq_str (role t) "user" then pop_turn m1 else m1
        | None => m1
        end in
      (({| memory := m2; use_context := use_context c |}, e2),
       [(PStr "error", PStr error_msg);
        (PStr "answer", PStr error_msg);
        (PStr "turn_number", PInt (len m2));
        (PStr "context_used", PBool false)])
  | (e2, inr result) =>
      let '(answer, thinking, output_image) := reply_of result in
      let '(e3, now_reply) := clock e2 in
      let m2 :=
        add_assistant_turn answer
          (PDict [(PStr "thinking", thinking);
                  (PStr "task", task);
                  (PStr "output_image", output_image)])
          now_reply m1 in
      (({| memory := m2; use_context := use_context c |}, e3),
       [(PStr "answer", answer);
        (PStr "thinking", thinking);
        (PStr "output_image", output_image);
        (PStr "context_used", PBool (use_context c && (len m2 >? 2))%bool);
        (PStr "turn_number", PInt (len m2));
        (PStr "task", task)])
  end.
End Ask.

End DynamicMemory.

(** ** [class PipelineExecutor] on objects

    The executor with the chat object its constructor builds, so that
    [self.chat.ask] is the [ask] above.  A step of the pipeline is an
    object, as [json.loads] decoded it. *)

Module DynamicExecutor.
Import PyObj.

Section Executor.
Context {F : Type}.
Variable py_float : string -> option F.
Variable float_add float_sub : F -> F -> F.
Variable float_of_int : Z -> F.
Variable container_str : pyval -> string.
(** [str(e)] for the exception a failed operation raises *)
Variable exn_str : exn -> string.

Local Abbreviation to_text := (to_text container_str).

(** The collaborators act on an environment [Env]: besides the model
    and the clock of [ask],
    - [groq_enhance], when the executor has a decomposer, is the
      completion call of [enhance_trajectory_prompt];
    - [visualize_step e image answer task prompt step_num] is
      [_visualize_step], which raises nothing: the path of the picture,
      if one was written. *)
Context {Env : Type}.
Variable clock : Env -> Env * string.
Variable inference :
  Env -> pyval -> pyval -> pyval -> bool -> bool -> bool -> Env * (string + pyval).
Variable groq_enhance : option (Env -> pyval -> Env * PipelineChat.completion).
Variable visualize_step :
  Env -> pyval -> pyval -> string -> pyval -> pyval -> Env * option string.

Definition World : Type := (DynamicMemory.MultiTurnInference * Env)%type.

(** An entry of [results["steps"]] *)
Record step_result : Type := mkStepResult {
  sr_step : pyval;
  sr_task : string;
  sr_prompt : pyval;
  sr_description : pyval;
  sr_answer : option pyval;
  sr_thinking : option pyval;
  sr_error : option string;
  sr_success : bool;
  sr_coordinates : option (PipelineChat.geometry (F:=F));
  sr_visualization : option string
}.

(** The dictionary [execute_pipeline] returns *)
Record results : Type := mkResults {
  steps : list step_result;
  final_answer : pyval;
  visualizations : list string;
  success : bool
}.

(** The variables of the loop: [results] and [previous_result] *)
Record loop_state : Type := mkLoop {
  ls_results : results;
  ls_previous : pyval
}.

(** The prompt after the previous result has been injected: only a
    string has [replace], and only a string, a list or a tuple can be
    sliced. *)
Definition inject_previous (prompt use_previous previous_result : pyval)
    : exn + pyval :=
  if (truthy use_previous && truthy previous_result)%bool
  then
    match prompt with
    | PStr p =>
        let prompt1 :=
          PyStr.replace PipelineChat.PLACEHOLDER (to_text previous_result) p in
        if negb (PyStr.contains PipelineChat.PLACEHOLDER p)
        then
          context ← slice_to 200 previous_result;
          inr (PStr (prompt1 ++ " (Context: " ++ to_text context ++ ")"))
        else inr (PStr prompt1)
    | _ => inl (NoAttribute prompt "replace")
    end
  else inr prompt.

(** [enhance_trajectory_prompt], called on a prompt that has a length *)
Definition enhance_trajectory_prompt (response : PipelineChat.completion)
    (original_prompt : pyval) : pyval :=
  match response with
  | inl _ => original_prompt
  | inr raw =>
      let enhanced := PyStr.strip_by PipelineChat.is_quote (PyStr.strip raw) in
      match len original_prompt with
      | inr n => if PyStr.len enhanced >? n then PStr enhanced else original_prompt
      | inl _ => original_prompt
      end
  end.

(** What the statements of an iteration that precede the [try] compute:
    the number, the task, the prompt and the description of the step *)
Record prepared : Type := mkPrepared {
  pr_step : pyval;
  pr_task : string;
  pr_prompt : pyval;
  pr_description : pyval
}.

(** The statements of an iteration that precede the [try].  An
    exception raised here is not caught: [get] on a step that is not a
    dictionary, [replace] on a prompt that is not a string, [len] or a
    slice of a prompt that has none, [upper] on a task that is not a
    string. *)
Definition prepare_step (e : Env) (count : nat) (previous_result : pyval)
    (step_info : pyval) : Env * (exn + prepared) :=
  match step_info with
  | PDict d =>
      let step_num := get_default "step" (PInt (Z.of_nat count + 1)) d in
      let task := get_default "task" (PStr "general") d in
      let prompt := get_default "prompt" (PStr EmptyString) d in
      let description := get_default "description" (PStr EmptyString) d in
      let use_previous := get_default "use_previous" (PBool false) d in
      match inject_previous prompt use_previous previous_result with
      | inl x => (e, inl x)
      | inr prompt1 =>
          let '(e1, enhanced) :=
            match groq_enhance with
            | Some enhance =>
                if eq_str task "trajectory"
                then
                  match len prompt1 with
                  | inl x => (e, inl x)
                  | inr n =>
                      if (n <? 80)%Z
                      then let '(e', response) := enhance e prompt1 in
                           (e', inr (enhance_trajectory_prompt response prompt1))
                      else (e, inr prompt1)
                  end
                else (e, inr prompt1)
            | None => (e, inr prompt1)
            end in
          match enhanced with
          | inl x => (e1, inl x)
          | inr prompt2 =>
              match task with
              | PStr t =>
                  match slice_to 100 prompt2 with
                  | inl x => (e1, inl x)
                  | inr _ =>
                      (e1, inr {| pr_step := step_num; pr_task := t;
                                  pr_prompt := prompt2;
                                  pr_description := description |})
                  end
              | _ => (e1, inl (NoAttribute task "upper"))
              end
          end
      end
  | _ => (e, inl (NoAttribute step_info "get"))
  end.

(** [_parse_coordinates] on an answer: [re.findall] raises on anything
    but a string, and the exception is swallowed. *)
Definition _parse_coordinates (answer : pyval) (task : string)
    : option (PipelineChat.geometry (F:=F)) :=
  match answer with
  | PStr s =>
      PipelineChat._parse_coordinates py_float float_add float_sub
        float_of_int s task
  | _ => None
  end.

(** What the body of the [try] computes when it raises nothing *)
Record outcome : Type := mkOutcome {
  oc_answer : pyval;
  oc_thinking : pyval;
  oc_coordinates : option (PipelineChat.geometry (F:=F));
  oc_visualization : option string
}.

(** The body of the [try]: the call of [self.chat.ask] and the reading
    of its result.  The answer is sliced to be printed, which raises
    when it is not a string, a list or a tuple. *)
Definition guarded (w : World) (p : prepared) (enable_thinking : bool)
    : World * (exn + outcome) :=
  let '(w1, result) :=
    DynamicMemory.ask container_str clock inference
      (pr_prompt p) PNone (PStr (pr_task p)) enable_thinking true false w in
  let answer := get_default "answer" (PStr EmptyString) result in
  let thinking := get_default "thinking" (PStr EmptyString) result in
  match slice_to 300 answer with
  | inl x => (w1, inl x)
  | inr _ =>
      let coords := _parse_coordinates answer (pr_task p) in
      let has_coords := PipelineChat.geometry_truthy coords in
      let '(w2, vis_path) :=
        if (PipelineChat.str_in (pr_task p) PipelineChat.spatial_tasks
            && has_coords)%bool
        then
          let '(c1, e1) := w1 in
          let '(e2, path) :=
            visualize_step e1
              (DynamicMemory.current_image (DynamicMemory.memory c1))
              answer (pr_task p) (pr_prompt p) (pr_step p) in
          ((c1, e2), path)
        else (w1, None) in
      (w2, inr {| oc_answer := answer; oc_thinking := thinking;
                  oc_coordinates := if has_coords then coords else None;
                  oc_visualization := vis_path |})
  end.

(** The entry of a step that returned, and of a step that raised *)
Definition succeeded_step (p : prepared) (o : outcome) : step_result :=
  {| sr_step := pr_step p; sr_task := pr_task p; sr_prompt := pr_prompt p;
     sr_description := pr_description p;
     sr_answer := Some (oc_answer o); sr_thinking := Some (oc_thinking o);
     sr_error := None; sr_success := true;
     sr_coordinates := oc_coordinates o;
     sr_visualization := oc_visualization o |}.

Definition failed_step (p : prepared) (e : string) : step_result :=
  {| sr_step := pr_step p; sr_task := pr_task p; sr_prompt := pr_prompt p;
     sr_description := pr_description p;
     sr_answer := None; sr_thinking := None;
     sr_error := Some e; sr_success := false;
     sr_coordinates := None; sr_visualization := None |}.

(** One iteration of the loop: [inl x] when it raises [x], which ends
    the call of [execute_pipeline]. *)
Definition execute_step (enable_thinking : bool) (w : World) (st : loop_state)
    (step_info : pyval) : World * (exn + loop_state) :=
  let res := ls_results st in
  let '(e1, p) :=
    prepare_step w.2 (length (steps res)) (ls_previous st) step_info in
  match p with
  | inl x => ((w.1, e1), inl x)
  | inr p =>
      match guarded (w.1, e1) p enable_thinking with
      | (w2, inr o) =>
          (w2,
           inr {| ls_results :=
                    {| steps := (steps res ++ [succeeded_step p o])%list;
                       final_answer := final_answer res;
                       visualizations :=
                         match oc_visualization o with
                         | Some path => (visualizations res ++ [path])%list
                         | None => visualizations res
                         end;
                       success := success res |};
                  ls_previous := oc_answer o |})
      | (w2, inl x) =>
          (w2,
           inr {| ls_results :=
                    {| steps := (steps res ++ [failed_step p (exn_str x)])%list;
                       final_answer := final_answer res;
                       visualizations := visualizations res;
                       success := false |};
                  ls_previous := PStr ("Error: " ++ exn_str x) |})
      end
  end.

(** The state before the first iteration *)
Definition initial_state : loop_state :=
  {| ls_results := {| steps := []; final_answer := PStr EmptyString;
                      visualizations := []; success := true |};
     ls_previous := PNone |}.

(** The loop over the steps *)
Fixpoint run_steps (enable_thinking : bool) (w : World) (st : loop_state)
    (pipeline : list pyval) : World * (exn + loop_state) :=
  match pipeline with
  | [] => (w, inr st)
  | step_info :: rest =>
      match execute_step enable_thinking w st step_info with
      | (w', inr st') => run_steps enable_thinking w' st' rest
      | (w', inl x) => (w', inl x)
      end
  end.

(** The summary of an entry in the combined answer *)
Definition step_summary (s : step_result) : exn + string :=
  shown ← slice_to 200 (default (PStr EmptyString) (sr_answer s));
  inr ("Step " ++ to_text (sr_step s) ++ " (" ++ sr_task s ++ "): "
         ++ to_text shown).

Fixpoint summaries (l : list step_result) : exn + list string :=
  match l with
  | [] => inr []
  | s :: l' =>
      x ← step_summary s;
      xs ← summaries l';
      inr (x :: xs)
  end.

(** [_combine_results] *)
Definition _combine_results (steps : list step_result) : exn + pyval :=
  match steps with
  | [] => inr (PStr "No results available.")
  | _ =>
      let successful_steps := filter (fun s => sr_success s = true) steps in
      match successful_steps with
      | [s] => inr (default (PStr EmptyString) (sr_answer s))
      | _ =>
          parts ← summaries successful_steps;
          inr (PStr (PyStr.join PipelineChat.blank_line parts))
      end
  end.

(** [execute_pipeline] *)
Definition execute_pipeline (w : World) (pipeline : list pyval)
    (enable_thinking : bool) : World * (exn + results) :=
  match run_steps enable_thinking w initial_state pipeline with
  | (w', inl x) => (w', inl x)
  | (w', inr st) =>
      let res := ls_results st in
      match _combine_results (steps res) with
      | inl x => (w', inl x)
      | inr answer =>
          (w', inr {| steps := steps res;
                      final_answer := answer;
                      visualizations := visualizations res;
                      success := success res |})
      end
  end.

(** What an entry takes from the step at position [i], counted from 0,
    a dictionary [d] *)
Definition entry_of (i : nat) (d : pdict) (r : step_result) : Prop :=
  sr_step r = get_default "step" (PInt (Z.of_nat i + 1)) d
  /\ PStr (sr_task r) = get_default "task" (PStr "general") d
  /\ sr_description r = get_default "description" (PStr EmptyString) d.

(** A successful entry has an answer that can be sliced. *)
Definition answered (r : step_result) : Prop :=
  sr_success r = true ->
  exists a, sr_answer r = Some a /\ sliceable a = true.

End Executor.

End DynamicExecutor.

(** ** A scripted model

    The vision model is outside the repository.  For running the code
    on examples the environment holds the outcomes the next calls of
    [model.inference] will have, and a clock; there is no decomposer,
    and the drawing library is not installed, so that no picture is
    written. *)

Module ScriptedModel.
Import PyObj.

Record env : Type := mkEnv {
  outcomes : list (string + pyval);
  ticks : Z
}.

Definition clock (e : env) : env * string :=
  ({| outcomes := outcomes e; ticks := ticks e + 1 |}, PyStr.str_of_int (ticks e)).

Definition inference (e : env) (full_prompt img task : pyval)
    (enable_thinking do_sample plot : bool) : env * (string + pyval) :=
  match outcomes e with
  | outcome :: rest => ({| outcomes := rest; ticks := ticks e |}, outcome)
  | [] => (e, inr PNone)
  end.

Definition visualize_step (e : env) (image answer : pyval) (task : string)
    (prompt step_num : pyval) : env * option string :=
  (e, None).

(** A stand-in for [str] on containers *)
Definition container_str (v : pyval) : string := "<container>".

Definition type_name (v : pyval) : string :=
  match v with
  | PNone => "NoneType"
  | PBool _ => "bool"
  | PInt _ => "int"
  | PFloat _ => "float"
  | PStr _ => "str"
  | PList _ => "list"
  | PTuple _ => "tuple"
  | PDict _ => "dict"
  end.

(** The texts of the exceptions, as CPython 3.11 words them *)
Definition exn_str (x : exn) : string :=
  match x with
  | NoAttribute obj name =>
      "'" ++ type_name obj ++ "' object has no attribute '" ++ name ++ "'"
  | CannotSlice (PDict _) => "unhashable type: 'slice'"
  | CannotSlice obj => "'" ++ type_name obj ++ "' object is not subscriptable"
  | NoLength obj => "object of type '" ++ type_name obj ++ "' has no len()"
  end.

(** [PipelineExecutor(model, repo_dir)] followed by [set_image(image)] *)
Definition new_world (image : string) (script : list (string + pyval))
    : DynamicMemory.MultiTurnInference * env :=
  (DynamicMemory.set_image (PStr image) DynamicMemory.new_chat,
   {| outcomes := script; ticks := 0 |}).

Definition execute_pipeline (w : DynamicMemory.MultiTurnInference * env)
    (pipeline : list pyval) (enable_thinking : bool) :=
  DynamicExecutor.execute_pipeline Numerals.exact_float Numerals.exact_add
    Numerals.exact_sub Numerals.exact_of_int container_str exn_str
    clock inference None visualize_step w pipeline enable_thinking.

(** A step given by its task and its prompt *)
Definition step (task prompt : pyval) (use_previous : bool) : pyval :=
  PDict [(PStr "task", task); (PStr "prompt", prompt);
         (PStr "use_previous", PBool use_previous)].

(** The dictionary [{"answer": a}] *)
Definition answers (a : pyval) : string + pyval :=
  inr (PDict [(PStr "answer", a)]).

End ScriptedModel.

(** * Properties *)

(** ** Conversation memory *)

Module MemoryProps.
Import ConversationMemory.

Lemma slice_from_neg {A} (n : Z) (l : list A) :
  0 < n -> PyStr.slice_from (- n) l = last_n (Z.to_nat n) l.
Proof.
  intros Hn. unfold PyStr.slice_from, last_n.
  destruct (Z.ltb_spec (- n) 0) as [_|]; [|lia].
  f_equal. lia.
Qed.

Lemma length_last_n {A} (n : nat) (l : list A) :
  length (last_n n l) = Nat.min n (length l).
Proof. unfold last_n. rewrite length_drop. lia. Qed.

Lemma last_n_all {A} (n : nat) (l : list A) :
  (length l <= n)%nat -> last_n n l = l.
Proof. intros H. unfold last_n. replace (length l - n)%nat with O by lia. done. Qed.

Lemma last_n_app {A} (n : nat) (l1 l2 : list A) :
  last_n n (last_n n l1 ++ l2) = last_n n (l1 ++ l2).
Proof.
  unfold last_n.
  rewrite !length_app, !drop_app, drop_drop, !length_drop.
  f_equal; f_equal; lia.
Qed.

(** [_trim_history] keeps the last [max_turns] turns when the bound is
    positive. *)
Lemma trim_history_turns (m : Memory) :
  0 < max_turns m ->
  turns (_trim_history m) = last_n (Z.to_nat (max_turns m)) (turns m).
Proof.
  intros Hpos. unfold _trim_history, len.
  destruct (Z.gtb_spec (Z.of_nat (length (turns m))) (max_turns m)) as [Hgt|Hle].
  - simpl. by apply slice_from_neg.
  - rewrite last_n_all; [done | lia].
Qed.

Lemma trim_history_fields (m : Memory) :
  current_image (_trim_history m) = current_image m
  /\ max_turns (_trim_history m) = max_turns m.
Proof. unfold _trim_history. by destruct (len m >? max_turns m). Qed.

Lemma perform_fields (m : Memory) (c : call) :
  current_image (perform m c) = image_after (current_image m) c
  /\ max_turns (perform m c) = max_turns m.
Proof.
  destruct c as [ct img tk now | ct md now]; simpl;
    unfold add_user_turn, add_assistant_turn;
    match goal with |- context [_trim_history ?x] =>
      destruct (trim_history_fields x) as [-> ->] end; simpl.
  - unfold PyStr.or_else. by destruct (PyStr.truthy img).
  - done.
Qed.

Lemma perform_turns (m : Memory) (c : call) :
  0 < max_turns m ->
  turns (perform m c)
  = last_n (Z.to_nat (max_turns m))
      (turns m ++ [appended_turn (current_image m) c]).
Proof.
  intros Hpos.
  destruct c as [ct img tk now | ct md now]; simpl;
    unfold add_user_turn, add_assistant_turn.
  - rewrite trim_history_turns; simpl.
    + unfold PyStr.or_else.
      destruct (PyStr.truthy img) eqn:Himg; simpl; rewrite ?Himg; done.
    + by destruct (PyStr.truthy img).
  - by rewrite trim_history_turns.
Qed.

Lemma perform_all_fields (calls : list call) (m : Memory) :
  max_turns (perform_all calls m) = max_turns m.
Proof.
  revert m. induction calls as [|c calls IH]; intros m; simpl; [done|].
  unfold perform_all in *. simpl. rewrite IH. apply perform_fields.
Qed.

(** After a non-empty sequence of calls on a memory with a positive
    bound, the turns are the last [max_turns] of the initial turns
    followed by all the appended ones. *)
Lemma perform_all_turns (calls : list call) (m : Memory) :
  0 < max_turns m -> calls <> [] ->
  turns (perform_all calls m)
  = last_n (Z.to_nat (max_turns m))
      (turns m ++ appended_turns (current_image m) calls).
Proof.
  intros Hpos. revert m Hpos.
  induction calls as [|c calls IH]; intros m Hpos Hne; [done|].
  unfold perform_all in *. simpl.
  destruct (perform_fields m c) as [Himg Hmax].
  destruct calls as [|c' calls].
  - simpl. by apply perform_turns.
  - rewrite IH by (rewrite ?Hmax; done).
    rewrite Hmax, Himg, perform_turns by done.
    rewrite last_n_app.
    by rewrite <- app_assoc.
Qed.

Lemma perform_all_bound (calls : list call) (m : Memory) :
  0 < max_turns m -> calls <> [] ->
  len (perform_all calls m) <= max_turns m.
Proof.
  intros Hpos Hne. unfold len.
  rewrite perform_all_turns, length_last_n by done. lia.
Qed.

(** C8, at the input on which the code departs from the claim: a memory
    built with [max_turns = 0].  The slice [turns[-0:]] is the whole
    list, so the turn just appended is kept and the length, 1, exceeds
    the bound. *)
Lemma zero_bound_is_not_enforced :
  let m := {| turns := []; current_image := None; max_turns := 0 |} in
  let m' := add_user_turn "hello" None "general" "2025-01-01T00:00:00" m in
  len m' = 1 /\ max_turns m' = 0 /\ ~ (len m' <= max_turns m').
Proof. vm_compute. split; [done|]. split; [done|]. intros H. by apply H. Qed.

Lemma load_turn_record (t : Turn) : load_turn (turn_record t) = inr t.
Proof. destruct t as [r c i k ts md]. by destruct i, k. Qed.

Lemma load_turns_records (ts : list Turn) :
  load_turns (map turn_record ts) = inr ts.
Proof.
  induction ts as [|t ts IH]; [done|].
  cbn [map load_turns]. rewrite load_turn_record, IH. done.
Qed.

Lemma add_user_turn_below_bound content img tk now m :
  len m < max_turns m ->
  turns (add_user_turn content img tk now m)
  = (turns m ++ [appended_turn (current_image m) (AddUser content img tk now)])%list.
Proof.
  intros Hlt. unfold add_user_turn, _trim_history, len in *.
  set (m1 := if PyStr.truthy img then set_current_image img m else m).
  assert (Hm1 : turns m1 = turns m /\ max_turns m1 = max_turns m
                /\ PyStr.or_else img (current_image m1)
                   = PyStr.or_else img (current_image m)).
  { subst m1. unfold PyStr.or_else.
    destruct (PyStr.truthy img) eqn:Himg; simpl; rewrite ?Himg; done. }
  destruct Hm1 as (Ht & Hmax & Himg).
  cbn [turns max_turns set_turns]. rewrite length_app, Ht, Hmax, Himg.
  cbn [length].
  destruct (Z.gtb_spec (Z.of_nat (length (turns m) + 1)) (max_turns m)); [lia|].
  done.
Qed.

(** C10.  When an image is available, the model raises [e] and the
    memory held fewer than [max_turns] turns, [ask] leaves the list of
    turns as it was before the call and returns a dictionary whose
    [error] and [answer] entries are the message built from [e]. *)
Theorem ask_inference_error_restores_turns
    (model : inference_fn) (prompt : string) (image_path : option string)
    (task : string) (enable_thinking do_sample plot : bool)
    (now_user now_reply : string) (c : MultiTurnInference)
    (img e : string) :
  PyStr.or_else image_path (current_image (memory c)) = Some img ->
  PyStr.truthy (Some img) = true ->
  model (full_prompt c prompt) img task enable_thinking do_sample plot = inl e ->
  len (memory c) < max_turns (memory c) ->
  let r := ask model prompt image_path task enable_thinking do_sample plot
             now_user now_reply c in
  turns (memory r.1) = turns (memory c)
  /\ dict_get "error" r.2 = Some (VStr ("Inference error: " ++ e))
  /\ dict_get "answer" r.2 = Some (VStr ("Inference error: " ++ e))
  /\ dict_get "turn_number" r.2 = Some (VInt (len (memory c)))
  /\ dict_get "context_used" r.2 = Some (VBool false).
Proof.
  intros Himg Htruthy Hraise Hlt. unfold ask.
  rewrite Himg, Htruthy. cbn [negb]. rewrite Hraise.
  pose proof (add_user_turn_below_bound prompt image_path task now_user
                (memory c) Hlt) as Hturns.
  rewrite Hturns, last_snoc. cbn [appended_turn role String.eqb Ascii.eqb Bool.eqb].
  assert (Hpop : turns (pop_turn (add_user_turn prompt image_path task now_user
                                    (memory c))) = turns (memory c)).
  { unfold pop_turn. simpl. rewrite Hturns. apply removelast_last. }
  cbn [fst snd memory]. rewrite Hpop. split; [done|].
  cbn. unfold len. rewrite Hpop. done.
Qed.

Lemma ask_inference_error_restores_turns_witness :
  let c := set_image "scene.jpg" new_chat in
  let model : inference_fn := fun _ _ _ _ _ _ => inl "CUDA out of memory" in
  len (memory c) < max_turns (memory c)
  /\ turns (memory (ask model "what is on the table?" None "general"
                     true true false "t1" "t2" c).1) = [].
Proof.
  split; [vm_compute; reflexivity|].
  apply (ask_inference_error_restores_turns
           (fun _ _ _ _ _ _ => inl "CUDA out of memory")
           "what is on the table?" None "general" true true false "t1" "t2"
           (set_image "scene.jpg" new_chat) "scene.jpg" "CUDA out of memory");
    [reflexivity | reflexivity | reflexivity | vm_compute; reflexivity].
Defined.

End MemoryProps.

(** ** Regular expressions: what a match captures *)

Module RegexProps.
Import Regex.

Lemma append_nil_l (b : string) : EmptyString ++ b = b.
Proof. reflexivity. Qed.

Lemma append_cons (c : ascii) (a b : string) :
  String c a ++ b = String c (a ++ b).
Proof. reflexivity. Qed.

Lemma append_nil_r (a : string) : a ++ EmptyString = a.
Proof. induction a as [|c a IH]; [done|]. by rewrite append_cons, IH. Qed.

Lemma length_append (a b : string) :
  String.length (a ++ b) = (String.length a + String.length b)%nat.
Proof.
  induction a as [|c a IH]; [done|].
  rewrite append_cons. cbn. by rewrite IH.
Qed.

Lemma substring_prefix (w s : string) :
  substring 0 (String.length w) (w ++ s) = w.
Proof.
  induction w as [|c w IH].
  - rewrite append_nil_l. by destruct s.
  - rewrite append_cons. cbn. by rewrite IH.
Qed.

Lemma consumed_app (w s : string) : consumed (w ++ s) s = w.
Proof.
  unfold consumed. rewrite length_append.
  replace (String.length w + String.length s - String.length s)%nat
    with (String.length w) by lia.
  apply substring_prefix.
Qed.

Lemma append_assoc (a b c : string) : (a ++ b) ++ c = a ++ (b ++ c).
Proof.
  induction a as [|x a IH]; [done|]. by rewrite !append_cons, IH.
Qed.

Lemma numeral_digits (frac : bool) (w rest : string) :
  all_chars PyStr.is_digit w = true ->
  Numerals.numeral_from true frac (w ++ rest)
  = Numerals.numeral_from true frac rest.
Proof.
  induction w as [|c w IH]; [done|].
  rewrite append_cons. cbn.
  intros [Hc Hw]%andb_true_iff. rewrite Hc. by apply IH.
Qed.

Lemma numeral_integer (c : ascii) (w : string) :
  PyStr.is_digit c = true -> all_chars PyStr.is_digit w = true ->
  Numerals.is_numeral (String c w) = true.
Proof.
  intros Hc Hw. unfold Numerals.is_numeral. cbn. rewrite Hc.
  pose proof (numeral_digits false w EmptyString Hw) as H.
  by rewrite append_nil_r in H.
Qed.

Lemma numeral_decimal (c c' : ascii) (w w' : string) :
  PyStr.is_digit c = true -> all_chars PyStr.is_digit w = true ->
  PyStr.is_digit c' = true -> all_chars PyStr.is_digit w' = true ->
  Numerals.is_numeral (String c w ++ String "." (String c' w')) = true.
Proof.
  intros Hc Hw Hc' Hw'. unfold Numerals.is_numeral.
  rewrite append_cons. cbn. rewrite Hc.
  rewrite numeral_digits by done. cbn. rewrite Hc'.
  pose proof (numeral_digits true w' EmptyString Hw') as H.
  by rewrite append_nil_r in H.
Qed.

Section Inversion.
Context {A : Type}.
Implicit Types (k : string -> list string -> option A) (x : A).

Lemma rmatch_cat r1 r2 s caps k :
  rmatch (Cat r1 r2) s caps k
  = rmatch r1 s caps (fun s1 caps1 => rmatch r2 s1 caps1 k).
Proof. reflexivity. Qed.

Lemma rmatch_group r s caps k :
  rmatch (Group r) s caps k
  = rmatch r s caps (fun s' caps' => k s' (caps' ++ [consumed s s'])%list).
Proof. reflexivity. Qed.

Lemma rmatch_opt r s caps k :
  rmatch (Opt r) s caps k
  = match rmatch r s caps k with
    | Some x => Some x
    | None => k s caps
    end.
Proof. reflexivity. Qed.

Lemma rmatch_star p s caps k :
  rmatch (Star p) s caps k = star_class p s (fun s' => k s' caps).
Proof. reflexivity. Qed.

(** A successful [star_class] called its continuation after a run of
    characters of the class. *)
Lemma star_class_inv p s (k : string -> option A) x :
  star_class p s k = Some x ->
  exists w s', s = w ++ s' /\ all_chars p w = true /\ k s' = Some x.
Proof.
  induction s as [|c s IH]; cbn; intros H.
  - by exists EmptyString, EmptyString.
  - destruct (p c) eqn:Hc.
    + destruct (star_class p s k) as [y|] eqn:Hs.
      * injection H as ->.
        destruct (IH eq_refl) as (w & s' & -> & Hw & Hk).
        exists (String c w), s'. cbn. by rewrite Hc, Hw.
      * by exists EmptyString, (String c s).
    + by exists EmptyString, (String c s).
Qed.

Lemma plus_inv p s caps k x :
  rmatch (Plus p) s caps k = Some x ->
  exists c w s', s = String c w ++ s' /\ p c = true
                 /\ all_chars p w = true /\ k s' caps = Some x.
Proof.
  simpl. destruct s as [|c s]; [done|].
  destruct (p c) eqn:Hc; [|done]. intros H.
  apply star_class_inv in H as (w & s' & -> & Hw & Hk).
  by exists c, w, s'.
Qed.

Lemma lit_inv c s caps k x :
  rmatch (Lit c) s caps k = Some x ->
  exists s', s = String c s' /\ k s' caps = Some x.
Proof.
  simpl. destruct s as [|c' s]; [done|].
  destruct (Ascii.eqb_spec c c') as [->|]; [|done]. eauto.
Qed.

(** [\s*,\s*] captures nothing. *)
Lemma comma_inv s caps k x :
  rmatch comma s caps k = Some x -> exists s', k s' caps = Some x.
Proof.
  unfold comma. cbn [seq]. rewrite !rmatch_cat, rmatch_star. intros H.
  apply star_class_inv in H as (w & s1 & -> & _ & H).
  apply lit_inv in H as (s2 & -> & H). cbv beta in H.
  rewrite ?rmatch_star in H.
  apply star_class_inv in H as (w2 & s3 & -> & _ & H). eauto.
Qed.

(** A match of [(\d+(?:\.\d+)?)] appends one captured text, and that
    text is a numeral. *)
Lemma number_inv s caps k x :
  rmatch number s caps k = Some x ->
  exists w s', Numerals.is_numeral w = true
               /\ k s' (caps ++ [w])%list = Some x.
Proof.
  unfold number. rewrite rmatch_group, rmatch_cat. intros H.
  apply plus_inv in H as (c & w & s1 & -> & Hc & Hw & H).
  cbv beta in H. rewrite rmatch_opt in H.
  destruct (rmatch (Cat (Lit ".") (Plus digit)) s1 caps _) as [y|] eqn:Hfrac.
  - injection H as ->. rewrite rmatch_cat in Hfrac.
    apply lit_inv in Hfrac as (s2 & -> & Hfrac). cbv beta in Hfrac.
    apply plus_inv in Hfrac as (c' & w' & s3 & -> & Hc' & Hw' & Hk).
    exists (String c w ++ String "." (String c' w')), s3.
    split; [by apply numeral_decimal|].
    rewrite <- Hk. do 3 f_equal.
    replace (String c w ++ String "." (String c' w' ++ s3))
      with ((String c w ++ String "." (String c' w')) ++ s3)
      by (by rewrite append_assoc).
    by rewrite consumed_app.
  - exists (String c w), s1. split; [by apply numeral_integer|].
    by rewrite <- H, consumed_app.
Qed.
End Inversion.

(** Inversion of a successful match along the structure of a pattern *)
Ltac invert_match H :=
  repeat (first
    [ rewrite rmatch_cat in H
    | apply lit_inv in H as (? & -> & H)
    | apply comma_inv in H as (? & H)
    | let Hn := fresh "Hnum" in apply number_inv in H as (? & ? & Hn & H) ];
    cbv beta in H).

(** The groups of a match of each pattern of the extraction are
    numerals, two or four of them. *)
Lemma point_pattern_groups s rest caps :
  match_at PipelineChat.point_pattern s = Some (rest, caps) ->
  exists x y, caps = [x; y]
              /\ Numerals.is_numeral x = true /\ Numerals.is_numeral y = true.
Proof.
  unfold match_at, PipelineChat.point_pattern. cbn [seq]. intros H.
  invert_match H. injection H as _ <-. eauto 10.
Qed.

Lemma bracket_pair_pattern_groups s rest caps :
  match_at PipelineChat.bracket_pair_pattern s = Some (rest, caps) ->
  exists x y, caps = [x; y]
              /\ Numerals.is_numeral x = true /\ Numerals.is_numeral y = true.
Proof.
  unfold match_at, PipelineChat.bracket_pair_pattern. cbn [seq]. intros H.
  invert_match H. injection H as _ <-. eauto 10.
Qed.

Lemma box_pattern_groups s rest caps :
  match_at PipelineChat.box_pattern s = Some (rest, caps) ->
  exists x1 y1 x2 y2,
    caps = [x1; y1; x2; y2]
    /\ Numerals.is_numeral x1 = true /\ Numerals.is_numeral y1 = true
    /\ Numerals.is_numeral x2 = true /\ Numerals.is_numeral y2 = true.
Proof.
  unfold match_at, PipelineChat.box_pattern. cbn [seq]. intros H.
  invert_match H. injection H as _ <-. eauto 15.
Qed.

(** Every element of [findall] is the list of groups of a match. *)
Lemma findall_from_match r skip s caps :
  caps ∈ findall_from r skip s ->
  exists s' rest, match_at r s' = Some (rest, caps).
Proof.
  revert skip. induction s as [|c s IH]; intros skip; cbn.
  - by intros ?%elem_of_nil.
  - destruct skip as [|skip]; [|by apply IH].
    destruct (match_at r (String c s)) as [[rest caps']|] eqn:Hm; [|by apply IH].
    intros [->|Hin]%elem_of_cons; [eauto | by eapply IH].
Qed.

Lemma findall_match r s caps :
  caps ∈ findall r s -> exists s' rest, match_at r s' = Some (rest, caps).
Proof. apply findall_from_match. Qed.

End RegexProps.

(** ** Coordinate extraction *)

Module ExtractionProps.
Import PipelineChat.

Lemma findall_box_example :
  Regex.findall box_pattern "the box is at [10, 20, 110, 220]"
  = [["10"; "20"; "110"; "220"]].
Proof. vm_compute. reflexivity. Qed.

Lemma exact_float_numeral (s : string) :
  Numerals.is_numeral s = true -> is_Some (Numerals.exact_float s).
Proof.
  intros H. unfold Numerals.exact_float. rewrite H.
  destruct (Numerals.read_digits false 0 0 s). eauto.
Qed.

Section WithFloat.
Context {F : Type}.
Variable py_float : string -> option F.
Variable float_add float_sub : F -> F -> F.
Variable float_of_int : Z -> F.

(** [float] accepts every numeral. *)
Hypothesis py_float_numeral :
  forall s, Numerals.is_numeral s = true -> is_Some (py_float s).

Local Abbreviation parse := (_parse_coordinates py_float float_add float_sub float_of_int).
Local Abbreviation body := (parse_coordinates_body py_float float_add float_sub float_of_int).

Local Abbreviation reads_point := (reads_point py_float).
Local Abbreviation reads_box := (reads_box py_float).
Local Abbreviation reads_box_around :=
  (reads_box_around py_float float_add float_sub float_of_int).

Lemma comprehension_ok {A B : Type} (f : A -> exn + B) (R : A -> B -> Prop)
    (l : list A) :
  (forall a, a ∈ l -> exists b, f a = inr b /\ R a b) ->
  exists bs, comprehension f l = inr bs /\ Forall2 R l bs.
Proof.
  induction l as [|a l IH]; intros H; cbn.
  - exists []. by split; [|constructor].
  - destruct (H a) as (b & Hb & HR); [by left|].
    destruct IH as (bs & Hbs & HF); [intros; apply H; by right|].
    exists (b :: bs). rewrite Hb. cbn. rewrite Hbs. cbn.
    by split; [|constructor].
Qed.

Lemma to_float_numeral s :
  Numerals.is_numeral s = true -> exists x, py_float s = Some x
    /\ to_float py_float s = inr x.
Proof.
  intros [x Hx]%py_float_numeral. exists x. unfold to_float. by rewrite Hx.
Qed.

Lemma boxes_of_matches answer :
  exists bxs, comprehension (box_of py_float) (Regex.findall box_pattern answer)
              = inr bxs
              /\ Forall2 reads_box (Regex.findall box_pattern answer) bxs.
Proof.
  apply comprehension_ok. intros groups (s' & rest & Hm)%RegexProps.findall_match.
  apply RegexProps.box_pattern_groups in Hm
    as (x1 & y1 & x2 & y2 & -> & H1 & H2 & H3 & H4).
  apply to_float_numeral in H1 as (a1 & Ha1 & E1), H2 as (b1 & Hb1 & E2),
    H3 as (a2 & Ha2 & E3), H4 as (b2 & Hb2 & E4).
  exists (a1, b1, a2, b2). cbn. rewrite E1, E2, E3, E4. cbn.
  split; [done|]. unfold PipelineChat.reads_box. eauto 20.
Qed.

Lemma boxes_around_matches answer :
  exists bxs, comprehension (box_around py_float float_add float_sub float_of_int)
                (Regex.findall point_pattern answer) = inr bxs
              /\ Forall2 reads_box_around (Regex.findall point_pattern answer) bxs.
Proof.
  apply comprehension_ok. intros groups (s' & rest & Hm)%RegexProps.findall_match.
  apply RegexProps.point_pattern_groups in Hm as (x & y & -> & H1 & H2).
  apply to_float_numeral in H1 as (cx & Hx & E1), H2 as (cy & Hy & E2).
  eexists. cbn. rewrite E1, E2. cbn.
  split; [done|]. unfold PipelineChat.reads_box_around. eauto 20.
Qed.

Lemma points_of_matches r answer :
  r = point_pattern \/ r = bracket_pair_pattern ->
  exists pts, comprehension (point_of py_float) (Regex.findall r answer) = inr pts
              /\ Forall2 reads_point (Regex.findall r answer) pts.
Proof.
  intros Hr. apply comprehension_ok.
  intros groups (s' & rest & Hm)%RegexProps.findall_match.
  assert (exists x y, groups = [x; y] /\ Numerals.is_numeral x = true
                      /\ Numerals.is_numeral y = true)
    as (x & y & -> & H1 & H2).
  { destruct Hr as [-> | ->];
      eauto using RegexProps.point_pattern_groups,
                  RegexProps.bracket_pair_pattern_groups. }
  apply to_float_numeral in H1 as (cx & Hx & E1), H2 as (cy & Hy & E2).
  eexists. cbn. rewrite E1, E2. cbn.
  split; [done|]. unfold PipelineChat.reads_point. eauto 20.
Qed.

(** C5.  For the tasks grounding and affordance: when the answer holds
    bracketed quadruples, the result is the list of the boxes read from
    them, one per occurrence and in their order; when it holds none but
    holds parenthesized pairs, the result is the list of the boxes of
    half-width 30 around the points read from the pairs; when it holds
    neither, there is no result.  The answer
    [the box is at [10, 20, 110, 220]] gives the single box whose
    coordinates are the floats of 10, 20, 110 and 220. *)
Theorem boxes_before_points (answer task : string) :
  task = "grounding" \/ task = "affordance" ->
  (Regex.findall box_pattern answer <> [] ->
     exists bxs, parse answer task = Some (Boxes bxs)
       /\ Forall2 reads_box (Regex.findall box_pattern answer) bxs)
  /\ (Regex.findall box_pattern answer = [] ->
      Regex.findall point_pattern answer <> [] ->
      exists bxs, parse answer task = Some (Boxes bxs)
        /\ Forall2 reads_box_around (Regex.findall point_pattern answer) bxs)
  /\ (Regex.findall box_pattern answer = [] ->
      Regex.findall point_pattern answer = [] ->
      parse answer task = None)
  /\ exists a b c d,
       py_float "10" = Some a /\ py_float "20" = Some b
       /\ py_float "110" = Some c /\ py_float "220" = Some d
       /\ parse "the box is at [10, 20, 110, 220]" "grounding"
          = Some (Boxes [(a, b, c, d)]).
Proof.
  intros Htask.
  assert (Hbody : body answer task
    = match Regex.findall box_pattern answer with
      | [] =>
          match Regex.findall point_pattern answer with
          | [] => inr None
          | matches =>
              bxs ← comprehension
                      (box_around py_float float_add float_sub float_of_int)
                      matches;
              inr (Some (Boxes bxs))
          end
      | matches => bxs ← comprehension (box_of py_float) matches;
                   inr (Some (Boxes bxs))
      end).
  { by destruct Htask as [-> | ->]. }
  unfold _parse_coordinates. rewrite Hbody. clear Hbody.
  destruct (boxes_of_matches answer) as (bxs & Hb & HFb).
  destruct (boxes_around_matches answer) as (bxs' & Hb' & HFb').
  split; [|split; [|split]].
  - intros Hne. exists bxs. split; [|done].
    destruct (Regex.findall box_pattern answer); [done|].
    by rewrite Hb.
  - intros -> Hne. exists bxs'. split; [|done].
    destruct (Regex.findall point_pattern answer); [done|].
    by rewrite Hb'.
  - by intros -> ->.
  - destruct (py_float_numeral "10") as [a Ha]; [done|].
    destruct (py_float_numeral "20") as [b Hb2]; [done|].
    destruct (py_float_numeral "110") as [c Hc]; [done|].
    destruct (py_float_numeral "220") as [d Hd]; [done|].
    exists a, b, c, d. repeat (split; [done|]).
    unfold parse_coordinates_body. cbn [String.eqb Ascii.eqb Bool.eqb str_in existsb orb].
    rewrite findall_box_example. cbn. unfold to_float.
    by rewrite Ha, Hb2, Hc, Hd.
Qed.

(** C6.  [_parse_coordinates] is a function of the answer and of the
    task alone: it takes no state and returns an optional value, so
    that equal arguments give equal results and no exception leaves it.
    Moreover the body of its [try] raises nothing; the result is [None]
    exactly when none of the patterns tried for the task occurs in the
    answer; and a result that is not [None] is a non-empty list. *)
Theorem extraction_is_total (answer task : string) :
  (exists result, body answer task = inr result)
  /\ ((forall p, p ∈ patterns_for task -> Regex.findall p answer = [])
       <-> parse answer task = None)
  /\ (forall g, parse answer task = Some g -> geometry_truthy (Some g) = true).
Proof.
  unfold _parse_coordinates, parse_coordinates_body, patterns_for.
  destruct (boxes_of_matches answer) as (bxs & Hb & HFb).
  destruct (boxes_around_matches answer) as (bxs' & Hb' & HFb').
  destruct (points_of_matches point_pattern answer) as (pts & Hp & HFp);
    [by left|].
  destruct (points_of_matches bracket_pair_pattern answer) as (pts' & Hp' & HFp');
    [by right|].
  destruct (String.eqb task "pointing");
    [|destruct (str_in task ["affordance"; "grounding"]);
      [|destruct (String.eqb task "trajectory")]].
  - destruct (Regex.findall point_pattern answer) as [|m ms] eqn:E.
    + split; [eauto|]. split; [|done]. split; [done|].
      intros _ p ->%list_elem_of_singleton. done.
    + rewrite Hp. inversion HFp; subst. cbn. split; [eauto|].
      split; [|by intros ? [= <-]].
      split; [|done]. intros H. specialize (H point_pattern).
      rewrite E in H. discriminate H. by left.
  - destruct (Regex.findall box_pattern answer) as [|m ms] eqn:E.
    + destruct (Regex.findall point_pattern answer) as [|m' ms'] eqn:E'.
      * split; [eauto|]. split; [|done]. split; [done|].
        intros _ p [->|[->|[]%elem_of_nil]%elem_of_cons]%elem_of_cons; done.
      * rewrite Hb'. inversion HFb'; subst. cbn. split; [eauto|].
        split; [|by intros ? [= <-]]. split; [|done].
        intros H. specialize (H point_pattern). rewrite E' in H.
        discriminate H. right. by left.
    + rewrite Hb. inversion HFb; subst. cbn. split; [eauto|].
      split; [|by intros ? [= <-]]. split; [|done].
      intros H. specialize (H box_pattern). rewrite E in H.
      discriminate H. by left.
  - destruct (Regex.findall bracket_pair_pattern answer) as [|m ms] eqn:E.
    + destruct (Regex.findall point_pattern answer) as [|m' ms'] eqn:E'.
      * split; [eauto|]. split; [|done]. split; [done|].
        intros _ p [->|[->|[]%elem_of_nil]%elem_of_cons]%elem_of_cons; done.
      * rewrite Hp. inversion HFp; subst. cbn. split; [eauto|].
        split; [|by intros ? [= <-]]. split; [|done].
        intros H. specialize (H point_pattern). rewrite E' in H.
        discriminate H. right. by left.
    + rewrite Hp'. inversion HFp'; subst. cbn. split; [eauto|].
      split; [|by intros ? [= <-]]. split; [|done].
      intros H. specialize (H bracket_pair_pattern). rewrite E in H.
      discriminate H. by left.
  - split; [eauto|]. split; [|done]. split; [done|].
    by intros _ p ?%elem_of_nil.
Qed.
End WithFloat.

Lemma boxes_before_points_witness :
  (forall s, Numerals.is_numeral s = true -> is_Some (Numerals.exact_float s))
  /\ ("grounding" = "grounding" \/ "grounding" = "affordance")
  /\ Scripted.parse_coordinates "the box is at [10, 20, 110, 220]" "grounding"
     = Some (Boxes [(10, 20, 110, 220)%Q]).
Proof.
  split; [exact exact_float_numeral|]. split; [by left|].
  destruct (boxes_before_points Numerals.exact_float Numerals.exact_add
              Numerals.exact_sub Numerals.exact_of_int exact_float_numeral
              "the box is at [10, 20, 110, 220]" "grounding")
    as (_ & _ & _ & a & b & c & d & Ha & Hb & Hc & Hd & H); [by left|].
  injection Ha as <-. injection Hb as <-. injection Hc as <-. injection Hd as <-.
  exact H.
Defined.

Lemma extraction_is_total_witness :
  (forall s, Numerals.is_numeral s = true -> is_Some (Numerals.exact_float s))
  /\ Scripted.parse_coordinates "nothing to see here" "trajectory" = None.
Proof.
  split; [exact exact_float_numeral|].
  apply (extraction_is_total Numerals.exact_float Numerals.exact_add
           Numerals.exact_sub Numerals.exact_of_int exact_float_numeral
           "nothing to see here" "trajectory").
  intros p Hp. cbn in Hp.
  apply elem_of_cons in Hp as [->|Hp]; [reflexivity|].
  apply elem_of_cons in Hp as [->|Hp]; [reflexivity|].
  by apply elem_of_nil in Hp.
Defined.
End ExtractionProps.

(** ** Decomposition and single-task classification *)

Module DecomposerProps.
Import PipelineChat.

(** C4.  When the call of the decomposer raises, or its reply holds no
    span that decodes as a JSON array, [decompose] returns a pipeline of
    exactly one step, whose task is general, whose prompt is the query
    and whose [use_previous] is false.  [decompose] is a total function:
    it returns this list and raises nothing. *)
Theorem decompose_falls_back (json_loads : string -> option (list value))
    (py_str : value -> string) (response : completion) (query : string) :
  unusable_reply json_loads response ->
  exists description,
    decompose json_loads py_str response query
    = [VDict [("step", VInt 1);
              ("task", VStr "general");
              ("prompt", VStr query);
              ("description", VStr description);
              ("use_previous", VBool false)]].
Proof.
  unfold unusable_reply, decompose, single_general_step.
  destruct response as [e|raw]; [eauto|].
  destruct (Regex.search json_array_pattern (PyStr.strip raw)) as [text|];
    [|eauto].
  intros ->. eauto.
Qed.

Lemma decompose_falls_back_witness :
  unusable_reply Scripted.json_loads (inr "try [a] or [b], sorry")
  /\ decompose Scripted.json_loads Scripted.py_str
       (inr "try [a] or [b], sorry") "pick up the red cup"
     = [VDict [("step", VInt 1);
               ("task", VStr "general");
               ("prompt", VStr "pick up the red cup");
               ("description", VStr "Fallback: process as general query");
               ("use_previous", VBool false)]].
Proof.
  split; [vm_compute; reflexivity|].
  destruct (decompose_falls_back Scripted.json_loads Scripted.py_str
              (inr "try [a] or [b], sorry") "pick up the red cup")
    as [description H]; [vm_compute; reflexivity|].
  rewrite H. vm_compute in H. injection H as <-. reflexivity.
Defined.

(** The same holds when the decoded list cannot be post-processed, for
    instance because an element is not a dictionary. *)
Lemma decompose_falls_back_on_bad_steps json_loads py_str raw text pipeline e query :
  Regex.search json_array_pattern (PyStr.strip raw) = Some text ->
  json_loads text = Some pipeline ->
  enhance_steps py_str pipeline = inl e ->
  decompose json_loads py_str (inr raw) query
  = single_general_step query "Fallback: process as general query".
Proof. intros H1 H2 H3. unfold decompose. by rewrite H1, H2, H3. Qed.

(** A reply that is the empty array gives a pipeline without steps. *)
Example decompose_can_return_no_step :
  decompose Scripted.json_loads Scripted.py_str (inr " [] ") "do nothing" = [].
Proof. reflexivity. Qed.

Lemma str_in_elem (x : string) (xs : list string) :
  str_in x xs = true -> x ∈ xs.
Proof.
  unfold str_in. induction xs as [|y xs IH]; cbn; [done|].
  destruct (String.eqb_spec x y) as [->|_]; [left | right; by apply IH].
Qed.

(** C7, as the code has it.  [classify_single] raises nothing and always
    returns one of the five task names; when the classification call
    raises, the name is general, whatever the query. *)
Theorem classify_single_error_is_general (response : completion) (query : string) :
  classify_single response query ∈ ROBOBRAIN_TASKS
  /\ forall e, response = inl e -> classify_single response query = "general".
Proof.
  split; [|by intros e ->].
  destruct response as [e|raw]; unfold classify_single.
  - unfold ROBOBRAIN_TASKS. by left.
  - destruct (str_in (PyStr.lower (PyStr.strip raw)) ROBOBRAIN_TASKS) eqn:Hin.
    + by apply str_in_elem.
    + unfold ROBOBRAIN_TASKS. by left.
Qed.

(** C7 at a query with a location keyword: the keyword classifier says
    grounding, [classify_single] on a failed call says general. *)
Lemma classify_single_ignores_keywords :
  SmartChat.fallback_task "where is the cup" = "grounding"
  /\ classify_single (inl "connection refused") "where is the cup" = "general"
  /\ classify_single (inl "connection refused") "where is the cup"
     <> SmartChat.fallback_task "where is the cup".
Proof. vm_compute. repeat split; discriminate. Qed.

End DecomposerProps.

(** ** Pipeline executor *)

Module ExecutorProps.
Import PipelineChat.

Section WithCollaborators.
Context {F World : Type}.
Variable py_float : string -> option F.
Variable float_add float_sub : F -> F -> F.
Variable float_of_int : Z -> F.
Variable chat_ask : World -> string -> string -> bool -> World * (string + ask_reply).
Variable groq_enhance : option (World -> string -> World * completion).
Variable visualize_step : World -> string -> string -> string -> Z -> World * option string.

Local Abbreviation execute_step :=
  (execute_step py_float float_add float_sub float_of_int
     chat_ask groq_enhance visualize_step).
Local Abbreviation run_steps :=
  (run_steps py_float float_add float_sub float_of_int
     chat_ask groq_enhance visualize_step).
Local Abbreviation execute_pipeline :=
  (execute_pipeline py_float float_add float_sub float_of_int
     chat_ask groq_enhance visualize_step).
Local Abbreviation prepare_step := (prepare_step (F:=F) groq_enhance).

Implicit Types (st : exec_state (F:=F) (World:=World)) (si : step_info)
  (r : step_result (F:=F)).

Local Abbreviation entry_of := (entry_of (F:=F)).

(** An iteration appends exactly one entry to the ledger. *)
Lemma execute_step_appends th st si :
  exists r,
    steps (st_results (execute_step th st si))
    = (steps (st_results st) ++ [r])%list
    /\ entry_of (length (steps (st_results st))) si r
    /\ sr_prompt r = (prepare_step st si).2
    /\ (sr_success r = true -> is_Some (sr_answer r))
    /\ success (st_results (execute_step th st si))
       = (success (st_results st) && sr_success r)%bool.
Proof.
  unfold PipelineChat.execute_step.
  destruct (prepare_step st si) as [w1 prompt].
  destruct (chat_ask w1 prompt _ th) as [w2 [e|reply]].
  - eexists. cbn. split; [done|]. split; [done|].
    by rewrite andb_false_r.
  - destruct (if (_ && _)%bool then _ else _) as [w3 vis]. 
    eexists. cbn. split; [done|]. split; [done|]. split; [done|].
    split; [eauto|]. by rewrite andb_true_r.
Qed.

Lemma run_steps_app th p1 p2 st :
  run_steps th (p1 ++ p2)%list st = run_steps th p2 (run_steps th p1 st).
Proof. apply fold_left_app. Qed.

Lemma run_steps_cons th si p st :
  run_steps th (si :: p) st = run_steps th p (execute_step th st si).
Proof. reflexivity. Qed.

(** The ledger after a run: the entries there were, followed by one
    entry per step, in the order of the steps. *)
Lemma run_steps_ledger th p st :
  exists l,
    steps (st_results (run_steps th p st)) = (steps (st_results st) ++ l)%list
    /\ length l = length p
    /\ (forall i si, p !! i = Some si ->
          exists r, l !! i = Some r
                    /\ entry_of (length (steps (st_results st)) + i) si r)
    /\ (Forall (fun r => sr_success r = true -> is_Some (sr_answer r)) l)
    /\ success (st_results (run_steps th p st))
       = (success (st_results st) && forallb sr_success l)%bool.
Proof.
  revert st. induction p as [|si p IH]; intros st.
  - exists []. cbn. rewrite app_nil_r, andb_true_r.
    repeat split; [|constructor]. by intros i si ?.
  - rewrite run_steps_cons.
    destruct (execute_step_appends th st si) as (r & Hr & Hentry & _ & Hans & Hsucc).
    destruct (IH (execute_step th st si)) as (l & Hl & Hlen & Hidx & Hall & Hs).
    exists (r :: l). rewrite Hl, Hr, <- app_assoc. cbn.
    split; [done|]. split; [by rewrite Hlen|]. split; [|split].
    + intros [|i] si' Hi; cbn in Hi.
      * injection Hi as <-. exists r. split; [done|].
        by rewrite Nat.add_0_r.
      * destruct (Hidx i si' Hi) as (r' & Hr' & He). exists r'. split; [done|].
        rewrite Hr, length_app in He. cbn in He.
        by replace (length (steps (st_results st)) + S i)%nat
          with (length (steps (st_results st)) + 1 + i)%nat by lia.
    + by constructor.
    + by rewrite Hs, Hsucc, andb_assoc.
Qed.

(** The result of [execute_pipeline] in terms of the ledger of the run *)
Lemma execute_pipeline_ledger w pipeline th :
  let res := (execute_pipeline w pipeline th).2 in
  length (steps res) = length pipeline
  /\ (forall i si, pipeline !! i = Some si ->
        exists r, steps res !! i = Some r /\ entry_of i si r)
  /\ Forall (fun r => sr_success r = true -> is_Some (sr_answer r)) (steps res)
  /\ success res = forallb sr_success (steps res)
  /\ final_answer res = _combine_results (steps res).
Proof.
  cbn. destruct (run_steps_ledger th pipeline (initial_state w))
    as (l & Hl & Hlen & Hidx & Hall & Hs).
  cbn in Hl, Hidx, Hs. rewrite Hl, Hs. done.
Qed.

Lemma forallb_Forall {A} (f : A -> bool) (l : list A) :
  forallb f l = true <-> Forall (fun a => f a = true) l.
Proof.
  induction l as [|a l IH]; cbn.
  - split; [constructor | done].
  - rewrite andb_true_iff, IH. split.
    + intros [? ?]. by constructor.
    + by inversion 1.
Qed.


End WithCollaborators.


(** With the chat object of the repository, an exception of the model
    does not reach the executor: [ask] turns it into an answer, the step
    is recorded as a success and the flag stays true. *)
Example inference_error_is_an_answer :
  let res := (Integrated.execute_pipeline
                (Integrated.new_world "scene.jpg" [inl "out of memory"])
                [Scripted.step 1 "general" "what is this" "describe" false]
                false).2 in
  map sr_success (steps res) = [true]
  /\ map sr_answer (steps res) = [Some "Inference error: out of memory"]
  /\ success res = true.
Proof. vm_compute. repeat split. Qed.

End ExecutorProps.

(** * Further properties *)

(** ** Conversation memory and the chat object *)

Module MemoryFacts.
Import ConversationMemory.

(** X1.  On a memory whose bound is at least 1, after any non-empty
    sequence of [add_user_turn] and [add_assistant_turn] calls the bound
    is unchanged, the number of turns is at most the bound, and the turns
    are the last [max_turns] of the initial turns followed by the
    appended ones, in their order. *)
Theorem history_is_bounded (calls : list call) (m : Memory) :
  0 < max_turns m -> calls <> [] ->
  let m' := perform_all calls m in
  max_turns m' = max_turns m
  /\ len m' <= max_turns m
  /\ turns m'
     = last_n (Z.to_nat (max_turns m))
         (turns m ++ appended_turns (current_image m) calls).
Proof.
  intros Hpos Hne m'. subst m'.
  split; [apply MemoryProps.perform_all_fields|].
  split; [by apply MemoryProps.perform_all_bound|].
  by apply MemoryProps.perform_all_turns.
Qed.

Lemma history_is_bounded_witness :
  let m := {| turns := []; current_image := None; max_turns := 2 |} in
  let calls := [AddUser "find the cup" (Some "a.jpg") "grounding" "t1";
                AddAssistant "it is at [1, 2, 3, 4]" None "t2";
                AddUser "and the plate" None "grounding" "t3"] in
  0 < max_turns m /\ calls <> []
  /\ map content (turns (perform_all calls m))
     = ["it is at [1, 2, 3, 4]"; "and the plate"].
Proof.
  split; [reflexivity|]. split; [discriminate|].
  destruct (history_is_bounded
              [AddUser "find the cup" (Some "a.jpg") "grounding" "t1";
               AddAssistant "it is at [1, 2, 3, 4]" None "t2";
               AddUser "and the plate" None "grounding" "t3"]
              {| turns := []; current_image := None; max_turns := 2 |})
    as (_ & _ & H); [reflexivity | discriminate |].
  rewrite H. reflexivity.
Defined.

Lemma last_last_n {A} (n : nat) (l : list A) (x : A) :
  (0 < n)%nat -> last (last_n n (l ++ [x])) = Some x.
Proof.
  intros Hn. unfold last_n. rewrite length_app. cbn [length].
  rewrite drop_app_le by lia. apply last_snoc.
Qed.

(** X2.  On a memory whose bound is at least 1, the turn a call appends
    is the last turn after the call, and the image it records is the
    current image of the memory after the call: the image given with a
    user turn, or else the image that was current. *)
Theorem new_turn_is_last (m : Memory) (c : call) :
  0 < max_turns m ->
  exists t,
    last (turns (perform m c)) = Some t
    /\ t = appended_turn (current_image m) c
    /\ image_path t = current_image (perform m c).
Proof.
  intros Hpos. exists (appended_turn (current_image m) c).
  rewrite MemoryProps.perform_turns by done.
  split; [apply last_last_n; lia|]. split; [done|].
  destruct (MemoryProps.perform_fields m c) as [-> _].
  by destruct c.
Qed.

Lemma new_turn_is_last_witness :
  let m := {| turns := []; current_image := Some "old.jpg"; max_turns := 20 |} in
  0 < max_turns m
  /\ exists t,
       last (turns (perform m (AddAssistant "done" None "t1"))) = Some t
       /\ t = appended_turn (current_image m) (AddAssistant "done" None "t1")
       /\ image_path t
          = current_image (perform m (AddAssistant "done" None "t1")).
Proof.
  split; [reflexivity|].
  apply (new_turn_is_last
           {| turns := []; current_image := Some "old.jpg"; max_turns := 20 |}
           (AddAssistant "done" None "t1")).
  reflexivity.
Defined.

Lemma slice_from_last_n {A} (l : list A) :
  PyStr.slice_from (-10) l = last_n 10 l.
Proof. apply (MemoryProps.slice_from_neg 10); lia. Qed.

Lemma last_n_nil_iff {A} (n : nat) (l : list A) :
  (0 < n)%nat -> last_n n l = [] <-> l = [].
Proof.
  intros Hn. split; [|by intros ->].
  unfold last_n. intros H. apply (f_equal length) in H.
  rewrite length_drop in H. cbn in H.
  destruct l; [done | cbn in H; lia].
Qed.

(** X3.  The context prompt is a function of the last ten turns: two
    memories with the same last ten turns give the same prompt, whatever
    their older turns, their current image and their bound. *)
Theorem context_uses_last_ten (include_images : bool) (m m' : Memory) :
  last_n 10 (turns m) = last_n 10 (turns m') ->
  get_context_prompt include_images m = get_context_prompt include_images m'.
Proof.
  intros H. unfold get_context_prompt.
  rewrite !slice_from_last_n, <- H.
  destruct (turns m) as [|t ts] eqn:E, (turns m') as [|t' ts'] eqn:E'; try done.
  - symmetry in H. apply last_n_nil_iff in H; [done | lia].
  - apply last_n_nil_iff in H; [done | lia].
Qed.

Lemma context_uses_last_ten_witness :
  let t1 := appended_turn None (AddUser "one" None "general" "t1") in
  let t2 := appended_turn None (AddUser "two" None "general" "t2") in
  let old := repeat t1 5 in
  let recent := repeat t2 10 in
  let m := {| turns := (old ++ recent)%list; current_image := None;
              max_turns := 20 |} in
  let m' := {| turns := recent; current_image := Some "x.jpg";
               max_turns := 10 |} in
  last_n 10 (turns m) = last_n 10 (turns m')
  /\ get_context_prompt true m = get_context_prompt true m'.
Proof.
  split; [reflexivity|].
  apply (context_uses_last_ten true
    {| turns := (repeat (appended_turn None (AddUser "one" None "general" "t1")) 5
                 ++ repeat (appended_turn None (AddUser "two" None "general" "t2")) 10)%list;
       current_image := None; max_turns := 20 |}
    {| turns := repeat (appended_turn None (AddUser "two" None "general" "t2")) 10;
       current_image := Some "x.jpg"; max_turns := 10 |}).
  reflexivity.
Defined.


(** X4.  When neither the call nor the memory gives an image, [ask]
    returns the dictionary with the single entry [error], does not call
    the model, and leaves the chat object as it was. *)
Theorem ask_without_image (model : inference_fn) (prompt : string)
    (image_path : option string) (task : string)
    (enable_thinking do_sample plot : bool) (now_user now_reply : string)
    (c : MultiTurnInference) :
  PyStr.truthy (PyStr.or_else image_path (current_image (memory c))) = false ->
  ask model prompt image_path task enable_thinking do_sample plot
    now_user now_reply c
  = (c, [("error", VStr "No image set. Use set_image() or provide image_path.")]).
Proof.
  intros H. unfold ask.
  destruct (PyStr.or_else image_path (current_image (memory c))) as [img|];
    [|done].
  by rewrite H.
Qed.

Lemma ask_without_image_witness :
  let c := reset (set_image "scene.jpg" new_chat) in
  let model : inference_fn := fun _ _ _ _ _ _ => inr (MStr "a cup") in
  PyStr.truthy (PyStr.or_else None (current_image (memory c))) = false
  /\ ask model "what is this?" None "general" true true false "t1" "t2" c
     = (c, no_image_error).
Proof.
  split; [reflexivity|].
  apply (ask_without_image (fun _ _ _ _ _ _ => inr (MStr "a cup"))
           "what is this?" None "general" true true false "t1" "t2"
           (reset (set_image "scene.jpg" new_chat))).
  reflexivity.
Defined.

Lemma add_assistant_turn_below_bound content md now m :
  len m < max_turns m ->
  turns (add_assistant_turn content md now m)
  = (turns m ++ [appended_turn (current_image m) (AddAssistant content md now)])%list.
Proof.
  intros Hlt. unfold add_assistant_turn, _trim_history, len in *.
  cbn [turns max_turns set_turns]. rewrite length_app. cbn [length].
  destruct (Z.gtb_spec (Z.of_nat (length (turns m) + 1)) (max_turns m)); [lia|].
  done.
Qed.

Lemma add_user_turn_fields content img tk now m :
  current_image (add_user_turn content img tk now m)
  = PyStr.or_else img (current_image m)
  /\ max_turns (add_user_turn content img tk now m) = max_turns m.
Proof.
  apply (MemoryProps.perform_fields m (AddUser content img tk now)).
Qed.

(** X5.  When the model returns and the memory has room for two more
    turns, [ask] appends the user turn and then the assistant turn, both
    with the image that was used; the content of the assistant turn is
    the answer the dictionary returns, [turn_number] is the new number
    of turns, and the dictionary has no [error] entry. *)
Theorem ask_success_appends_two_turns
    (model : inference_fn) (prompt : string) (image : option string)
    (tk : string) (enable_thinking do_sample plot : bool)
    (now_user now_reply : string) (c : MultiTurnInference)
    (img : string) (result : model_result) :
  PyStr.or_else image (current_image (memory c)) = Some img ->
  PyStr.truthy (Some img) = true ->
  model (full_prompt c prompt) img tk enable_thinking do_sample plot
  = inr result ->
  len (memory c) + 2 <= max_turns (memory c) ->
  let r := ask model prompt image tk enable_thinking do_sample plot
             now_user now_reply c in
  let answer := (reply_of result).1.1 in
  exists user_turn reply_turn,
    turns (memory r.1) = (turns (memory c) ++ [user_turn; reply_turn])%list
    /\ role user_turn = "user" /\ content user_turn = prompt
    /\ image_path user_turn = Some img
    /\ role reply_turn = "assistant" /\ content reply_turn = answer
    /\ image_path reply_turn = Some img
    /\ current_image (memory r.1) = Some img
    /\ dict_get "answer" r.2 = Some (VStr answer)
    /\ dict_get "turn_number" r.2 = Some (VInt (len (memory c) + 2))
    /\ dict_get "error" r.2 = None.
Proof.
  intros Himg Htruthy Hmodel Hroom r answer. subst r answer.
  unfold ask. rewrite Himg, Htruthy. cbn [negb]. rewrite Hmodel.
  set (m1 := add_user_turn prompt image tk now_user (memory c)).
  assert (Hm1 : turns m1 = (turns (memory c)
            ++ [appended_turn (current_image (memory c))
                  (AddUser prompt image tk now_user)])%list).
  { apply MemoryProps.add_user_turn_below_bound. lia. }
  destruct (add_user_turn_fields prompt image tk now_user (memory c))
    as [Hci Hmax]. fold m1 in Hci, Hmax. rewrite Himg in Hci.
  assert (Hlen1 : len m1 = len (memory c) + 1).
  { unfold len. rewrite Hm1, length_app. cbn. lia. }
  assert (Hturns2 : forall a md,
    turns (add_assistant_turn a md now_reply m1)
    = (turns (memory c)
       ++ [appended_turn (current_image (memory c))
             (AddUser prompt image tk now_user);
           appended_turn (Some img) (AddAssistant a md now_reply)])%list).
  { intros a md. rewrite add_assistant_turn_below_bound by lia.
    by rewrite Hm1, Hci, <- app_assoc. }
  assert (Hci2 : forall a md,
    current_image (add_assistant_turn a md now_reply m1) = Some img).
  { intros a md.
    destruct (MemoryProps.perform_fields m1 (AddAssistant a md now_reply))
      as [H _]. cbn in H. by rewrite H. }
  assert (Hlen2 : forall a md,
    len (add_assistant_turn a md now_reply m1) = len (memory c) + 2).
  { intros a md. unfold len. rewrite Hturns2, length_app. cbn. lia. }
  destruct result as [|d|s|shown]; cbn [reply_of fst snd memory];
    eexists _, _; rewrite Hturns2, Hci2;
    (split; [reflexivity|]); cbn [appended_turn role content image_path];
    rewrite Himg;
    repeat (split; [reflexivity|]);
    cbn [dict_get String.eqb Ascii.eqb Bool.eqb]; rewrite Hlen2; done.
Qed.

Lemma ask_success_appends_two_turns_witness :
  let c := set_image "scene.jpg" new_chat in
  let model : inference_fn := fun _ _ _ _ _ _ => inr (MStr "a red cup") in
  len (memory c) + 2 <= max_turns (memory c)
  /\ map content
       (turns (memory (ask model "what is this?" None "general" true true false
                         "t1" "t2" c).1))
     = ["what is this?"; "a red cup"].
Proof.
  split; [vm_compute; discriminate|].
  destruct (ask_success_appends_two_turns
              (fun _ _ _ _ _ _ => inr (MStr "a red cup"))
              "what is this?" None "general" true true false "t1" "t2"
              (set_image "scene.jpg" new_chat) "scene.jpg" (MStr "a red cup"))
    as (u & a & H & _ & Hu & _ & _ & Ha & _);
    [reflexivity | reflexivity | reflexivity | vm_compute; discriminate |].
  rewrite H. cbn. by rewrite Hu, Ha.
Defined.

Lemma last_n_snoc_full {A} (l : list A) (x : A) :
  l <> [] -> last_n (length l) (l ++ [x]) = (drop 1 l ++ [x])%list.
Proof.
  intros Hne. unfold last_n. rewrite length_app. cbn [length].
  replace (length l + 1 - length l)%nat with 1%nat by lia.
  rewrite drop_app_le; [done|]. destruct l; [done | cbn; lia].
Qed.

(** X6.  When the memory is full and the model raises, [ask] does not
    restore the turns: appending the user turn pushed the oldest turn
    out, and removing the user turn again leaves the previous turns
    without their first. *)
Theorem ask_failure_on_full_memory
    (model : inference_fn) (prompt : string) (image : option string)
    (tk : string) (enable_thinking do_sample plot : bool)
    (now_user now_reply : string) (c : MultiTurnInference)
    (img e : string) :
  PyStr.or_else image (current_image (memory c)) = Some img ->
  PyStr.truthy (Some img) = true ->
  model (full_prompt c prompt) img tk enable_thinking do_sample plot = inl e ->
  0 < max_turns (memory c) ->
  len (memory c) = max_turns (memory c) ->
  let r := ask model prompt image tk enable_thinking do_sample plot
             now_user now_reply c in
  turns (memory r.1) = drop 1 (turns (memory c))
  /\ dict_get "turn_number" r.2 = Some (VInt (len (memory c) - 1)).
Proof.
  intros Himg Htruthy Hraise Hpos Hfull r. subst r.
  unfold ask. rewrite Himg, Htruthy. cbn [negb]. rewrite Hraise.
  set (m1 := add_user_turn prompt image tk now_user (memory c)).
  assert (Hne : turns (memory c) <> []).
  { unfold len in Hfull. destruct (turns (memory c)); [cbn in Hfull; lia | done]. }
  assert (Hm1 : turns m1
    = (drop 1 (turns (memory c))
       ++ [appended_turn (current_image (memory c))
             (AddUser prompt image tk now_user)])%list).
  { subst m1.
    pose proof (MemoryProps.perform_turns (memory c)
                  (AddUser prompt image tk now_user) Hpos) as H.
    cbn [perform] in H. rewrite H.
    rewrite <- Hfull. unfold len. rewrite Nat2Z.id. by apply last_n_snoc_full. }
  rewrite Hm1, last_snoc.
  cbn [appended_turn role String.eqb Ascii.eqb Bool.eqb].
  assert (Hpop : turns (pop_turn m1) = drop 1 (turns (memory c))).
  { unfold pop_turn. cbn [turns set_turns]. rewrite Hm1. apply removelast_last. }
  cbn [fst snd memory]. split; [done|].
  cbn. unfold len. rewrite Hpop, length_drop. do 2 f_equal.
  destruct (turns (memory c)); [done | cbn; lia].
Qed.

Lemma ask_failure_on_full_memory_witness :
  let t := appended_turn (Some "scene.jpg") (AddUser "first" None "general" "t0") in
  let c := {| memory := {| turns := [t]; current_image := Some "scene.jpg";
                           max_turns := 1 |};
              use_context := true |} in
  let model : inference_fn := fun _ _ _ _ _ _ => inl "out of memory" in
  len (memory c) = max_turns (memory c)
  /\ turns (memory (ask model "second" None "general" true true false
                      "t1" "t2" c).1) = [].
Proof.
  split; [reflexivity|].
  apply (ask_failure_on_full_memory
           (fun _ _ _ _ _ _ => inl "out of memory")
           "second" None "general" true true false "t1" "t2"
           {| memory :=
                {| turns := [appended_turn (Some "scene.jpg")
                               (AddUser "first" None "general" "t0")];
                   current_image := Some "scene.jpg"; max_turns := 1 |};
              use_context := true |}
           "scene.jpg" "out of memory");
    reflexivity.
Defined.

Lemma removelast_length {A} (l : list A) :
  (length (removelast l) <= length l)%nat.
Proof.
  induction l as [|a [|b l] IH]; cbn in *; lia.
Qed.

Lemma perform_one_bound (m : Memory) (c : call) :
  0 < max_turns m ->
  len (perform m c) <= max_turns m /\ max_turns (perform m c) = max_turns m.
Proof.
  intros Hpos. split.
  - apply (MemoryProps.perform_all_bound [c] m); done.
  - apply MemoryProps.perform_fields.
Qed.

(** X7.  [ask] keeps a memory within its bound: if the bound is at
    least 1 and the number of turns is at most the bound before the
    call, it is so after the call, whatever the model does; the bound
    and the [use_context] flag are unchanged. *)
Theorem ask_keeps_the_bound
    (model : inference_fn) (prompt : string) (image : option string)
    (tk : string) (enable_thinking do_sample plot : bool)
    (now_user now_reply : string) (c : MultiTurnInference) :
  0 < max_turns (memory c) ->
  len (memory c) <= max_turns (memory c) ->
  let c' := (ask model prompt image tk enable_thinking do_sample plot
               now_user now_reply c).1 in
  len (memory c') <= max_turns (memory c)
  /\ max_turns (memory c') = max_turns (memory c)
  /\ use_context c' = use_context c.
Proof.
  intros Hpos Hle c'. subst c'. unfold ask.
  destruct (PyStr.or_else image (current_image (memory c))) as [img|]; [|done].
  destruct (negb (PyStr.truthy (Some img))); [done|].
  set (m1 := add_user_turn prompt image tk now_user (memory c)).
  assert (H1 : len m1 <= max_turns (memory c) /\ max_turns m1 = max_turns (memory c)).
  { by apply (perform_one_bound (memory c) (AddUser prompt image tk now_user)). }
  destruct H1 as [Hl1 Hmax1].
  destruct (model _ img tk enable_thinking do_sample plot) as [e|result].
  - cbn [fst memory use_context]. split; [|split; [|done]].
    + destruct (last (turns m1)) as [t|]; [|done].
      destruct (String.eqb (role t) "user"); [|done].
      unfold len, pop_turn in *. cbn [turns set_turns].
      pose proof (removelast_length (turns m1)). lia.
    + destruct (last (turns m1)) as [t|]; [|done].
      by destruct (String.eqb (role t) "user").
  - destruct (match result with
              | MNone => _ | MDict d => _ | MStr s => _ | MOther shown => _
              end) as [[answer thinking] output_image].
    cbn [fst memory use_context].
    match goal with |- context [add_assistant_turn ?a ?md ?n m1] =>
      destruct (perform_one_bound m1 (AddAssistant a md n))
        as (Hl & Hm); [lia |] end.
    cbn [perform] in Hm, Hl. rewrite Hm. split; [lia | done].
Qed.

Lemma ask_keeps_the_bound_witness :
  let c := set_image "scene.jpg" new_chat in
  let model : inference_fn := fun _ _ _ _ _ _ => inr MNone in
  0 < max_turns (memory c) /\ len (memory c) <= max_turns (memory c)
  /\ len (memory (ask model "hello" None "general" true true false
                    "t1" "t2" c).1) <= 20.
Proof.
  split; [reflexivity|]. split; [vm_compute; discriminate|].
  apply (ask_keeps_the_bound (fun _ _ _ _ _ _ => inr MNone)
           "hello" None "general" true true false "t1" "t2"
           (set_image "scene.jpg" new_chat));
    [reflexivity | vm_compute; discriminate].
Defined.

(** X9.  A [load] that raises leaves the turns and the bound as they
    were; when the file does not exist the memory is unchanged; but when
    the document gives a current image and its turns cannot be read, the
    current image has already been replaced. *)
Theorem failed_load_keeps_turns (filepath : string) (fs : gmap string value)
    (m : Memory) (e : load_error) :
  (load filepath fs m).2 = Some e ->
  turns (load filepath fs m).1 = turns m
  /\ max_turns (load filepath fs m).1 = max_turns m
  /\ (fs !! filepath = None -> (load filepath fs m).1 = m)
  /\ (forall d img,
        fs !! filepath = Some (VDict d) ->
        as_opt_str (dict_get_default "current_image" VNone d) = inr img ->
        current_image (load filepath fs m).1 = img).
Proof.
  unfold load. destruct (fs !! filepath) as [doc|] eqn:Hdoc.
  2: { intros _. repeat split; [done..|]. by intros d img H. }
  destruct doc as [| | | | |l|d]; try (intros _; repeat split; [done..|];
    intros d' img H; discriminate H).
  destruct (as_opt_str (dict_get_default "current_image" VNone d)) as [e'|img] eqn:Himg.
  { intros _. repeat split; [done..|]. intros d' img [= <-] H.
    rewrite Himg in H. discriminate H. }
  destruct (stored_turns d ≫= load_turns) as [e'|ts]; [|done].
  intros _. cbn [fst]. repeat split; [done..|].
  intros d' img' [= <-] H. rewrite Himg in H. by injection H as <-.
Qed.

Lemma failed_load_keeps_turns_witness :
  let doc := VDict [("current_image", VStr "new.jpg");
                    ("turns", VList [VDict [("content", VStr "no role here")]])] in
  let m := add_user_turn "find the cup" (Some "old.jpg") "grounding" "t1" new_memory in
  let r := load "c.json" {["c.json" := doc]} m in
  r.2 = Some (KeyError "role")
  /\ turns r.1 = turns m /\ current_image r.1 = Some "new.jpg".
Proof.
  split; [reflexivity|].
  destruct (failed_load_keeps_turns "c.json"
              {["c.json" := VDict [("current_image", VStr "new.jpg");
                  ("turns", VList [VDict [("content", VStr "no role here")]])]]}
              (add_user_turn "find the cup" (Some "old.jpg") "grounding" "t1" new_memory)
              (KeyError "role")) as (H1 & _ & _ & H2); [reflexivity|].
  split; [exact H1|].
  apply (H2 [("current_image", VStr "new.jpg");
             ("turns", VList [VDict [("content", VStr "no role here")]])]);
    reflexivity.
Defined.

Lemma load_minimal_records (rcs : list (string * string)) :
  load_turns (map minimal_record rcs)
  = inr (map (fun rc => {| role := rc.1; content := rc.2;
                           image_path := None; task := None;
                           timestamp := EmptyString; metadata := [] |}) rcs).
Proof.
  induction rcs as [|[r c] rcs IH]; [done|].
  cbn [map load_turns]. by rewrite IH.
Qed.

(** X10.  A stored turn needs its role and its content only: a document
    that gives nothing else loads with no image, no task, an empty
    timestamp and empty metadata for every turn, and with no current
    image. *)
Theorem load_fills_defaults (filepath : string) (fs : gmap string value)
    (m : Memory) (rcs : list (string * string)) :
  fs !! filepath = Some (VDict [("turns", VList (map minimal_record rcs))]) ->
  load filepath fs m
  = ({| turns := map (fun rc => {| role := rc.1; content := rc.2;
                                   image_path := None; task := None;
                                   timestamp := EmptyString; metadata := [] |})
                   rcs;
        current_image := None;
        max_turns := max_turns m |}, None).
Proof.
  intros Hfs. unfold load. rewrite Hfs. cbn.
  by rewrite load_minimal_records.
Qed.

Lemma load_fills_defaults_witness :
  let doc := VDict [("turns", VList (map minimal_record
                                       [("user", "hi"); ("assistant", "hello")]))] in
  let m := set_current_image (Some "old.jpg") new_memory in
  ({["d.json" := doc]} : gmap string value) !! "d.json" = Some doc
  /\ current_image (load "d.json" {["d.json" := doc]} m).1 = None
  /\ map timestamp (turns (load "d.json" {["d.json" := doc]} m).1)
     = [EmptyString; EmptyString].
Proof.
  split; [reflexivity|].
  rewrite (load_fills_defaults "d.json"
             {["d.json" := VDict [("turns", VList (map minimal_record
                                  [("user", "hi"); ("assistant", "hello")]))]]}
             (set_current_image (Some "old.jpg") new_memory)
             [("user", "hi"); ("assistant", "hello")]); [|reflexivity].
  split; reflexivity.
Defined.

End MemoryFacts.

(** ** Coordinate extraction, the other tasks and the other scripts *)

Module ExtractionFacts.
Import PipelineChat.

Section WithFloat.
Context {F : Type}.
Variable py_float : string -> option F.
Variable float_add float_sub : F -> F -> F.
Variable float_of_int : Z -> F.

Local Abbreviation parse := (_parse_coordinates py_float float_add float_sub float_of_int).
Local Abbreviation body := (parse_coordinates_body py_float float_add float_sub float_of_int).
Local Abbreviation reads_point := (reads_point py_float).

(** X13.  For a task that is none of pointing, grounding, affordance and
    trajectory, no pattern is tried and there is no result, whatever the
    answer holds. *)
Theorem no_geometry_for_other_tasks (answer task : string) :
  task <> "pointing" -> task <> "grounding" -> task <> "affordance" ->
  task <> "trajectory" ->
  parse answer task = None /\ patterns_for task = [].
Proof.
  intros H1 H2 H3 H4.
  unfold _parse_coordinates, parse_coordinates_body, patterns_for, str_in.
  cbn [existsb].
  apply String.eqb_neq in H1, H2, H3, H4. by rewrite H1, H2, H3, H4.
Qed.

(** X14.  [parse_coordinates] of [smart_chat.py] and
    [_parse_coordinates] of the pipeline executor give the same result
    on every answer and every task. *)
Theorem smart_chat_parser_agrees (answer task : string) :
  SmartChatCoordinates.parse_coordinates py_float float_add float_sub
    float_of_int answer task
  = parse answer task.
Proof.
  unfold SmartChatCoordinates.parse_coordinates,
    SmartChatCoordinates.parse_coordinates_body,
    _parse_coordinates, parse_coordinates_body, str_in.
  cbn [existsb]. by rewrite orb_false_r.
Qed.

(** X15.  [parse_coordinates] of [interactive_chat.py] differs from the
    parser of the pipeline executor in one case only: for the tasks
    grounding and affordance it has no fallback to parenthesized pairs,
    so that an answer without a bracketed quadruple gives no result. *)
Theorem interactive_parser_has_no_point_fallback (answer task : string) :
  InteractiveChat.parse_coordinates py_float answer task
  = if ((String.eqb task "affordance" || String.eqb task "grounding")
        && bool_decide (Regex.findall box_pattern answer = []))%bool
    then None
    else parse answer task.
Proof.
  unfold InteractiveChat.parse_coordinates,
    InteractiveChat.parse_coordinates_body,
    _parse_coordinates, parse_coordinates_body, str_in.
  cbn [existsb]. rewrite orb_false_r.
  destruct (String.eqb_spec task "pointing") as [->|Hp]; [done|].
  destruct (String.eqb task "affordance" || String.eqb task "grounding")%bool;
    [|done].
  cbn [andb]. by destruct (Regex.findall box_pattern answer).
Qed.

(** [float] accepts every numeral. *)
Hypothesis py_float_numeral :
  forall s, Numerals.is_numeral s = true -> is_Some (py_float s).

(** X11.  For the task trajectory: when the answer holds bracketed
    pairs, the result is the list of the points read from them, one per
    occurrence and in the order of the text; when it holds none but holds
    parenthesized pairs, the result is the list of the points read from
    those; when it holds neither, there is no result. *)
Theorem waypoints_in_textual_order (answer : string) :
  (Regex.findall bracket_pair_pattern answer <> [] ->
     exists pts, parse answer "trajectory" = Some (Points pts)
       /\ Forall2 reads_point (Regex.findall bracket_pair_pattern answer) pts)
  /\ (Regex.findall bracket_pair_pattern answer = [] ->
      Regex.findall point_pattern answer <> [] ->
      exists pts, parse answer "trajectory" = Some (Points pts)
        /\ Forall2 reads_point (Regex.findall point_pattern answer) pts)
  /\ (Regex.findall bracket_pair_pattern answer = [] ->
      Regex.findall point_pattern answer = [] ->
      parse answer "trajectory" = None).
Proof.
  unfold _parse_coordinates, parse_coordinates_body, str_in.
  cbn [String.eqb Ascii.eqb Bool.eqb existsb orb].
  destruct (ExtractionProps.points_of_matches py_float py_float_numeral
              point_pattern answer) as (pts & Hp & HFp); [by left|].
  destruct (ExtractionProps.points_of_matches py_float py_float_numeral
              bracket_pair_pattern answer) as (pts' & Hp' & HFp'); [by right|].
  split; [|split].
  - intros Hne. exists pts'. split; [|done].
    destruct (Regex.findall bracket_pair_pattern answer); [done|]. by rewrite Hp'.
  - intros -> Hne. exists pts. split; [|done].
    destruct (Regex.findall point_pattern answer); [done|]. by rewrite Hp.
  - by intros -> ->.
Qed.

(** X12.  For the task pointing the result is the list of the points
    read from the parenthesized pairs of the answer, in the order of the
    text; there is no fallback: without a parenthesized pair there is no
    result, whatever else the answer holds. *)
Theorem pointing_reads_parenthesized_pairs_only (answer : string) :
  (Regex.findall point_pattern answer <> [] ->
     exists pts, parse answer "pointing" = Some (Points pts)
       /\ Forall2 reads_point (Regex.findall point_pattern answer) pts)
  /\ (Regex.findall point_pattern answer = [] ->
      parse answer "pointing" = None).
Proof.
  unfold _parse_coordinates, parse_coordinates_body.
  cbn [String.eqb Ascii.eqb Bool.eqb].
  destruct (ExtractionProps.points_of_matches py_float py_float_numeral
              point_pattern answer) as (pts & Hp & HFp); [by left|].
  split.
  - intros Hne. exists pts. split; [|done].
    destruct (Regex.findall point_pattern answer); [done|]. by rewrite Hp.
  - by intros ->.
Qed.
End WithFloat.

Lemma no_geometry_for_other_tasks_witness :
  "general" <> "pointing" /\ "general" <> "grounding"
  /\ "general" <> "affordance" /\ "general" <> "trajectory"
  /\ Scripted.parse_coordinates "the cup is at [10, 20, 110, 220]" "general"
     = None.
Proof.
  repeat (split; [discriminate|]).
  apply (no_geometry_for_other_tasks Numerals.exact_float Numerals.exact_add
           Numerals.exact_sub Numerals.exact_of_int
           "the cup is at [10, 20, 110, 220]" "general"); discriminate.
Defined.

Lemma waypoints_in_textual_order_witness :
  (forall s, Numerals.is_numeral s = true -> is_Some (Numerals.exact_float s))
  /\ Scripted.parse_coordinates "go to [3,1] then [2,2] then [1,3]" "trajectory"
     = Some (Points [(3, 1); (2, 2); (1, 3)]%Q).
Proof.
  split; [exact ExtractionProps.exact_float_numeral|].
  destruct (waypoints_in_textual_order Numerals.exact_float Numerals.exact_add
              Numerals.exact_sub Numerals.exact_of_int
              ExtractionProps.exact_float_numeral
              "go to [3,1] then [2,2] then [1,3]") as (H & _ & _).
  destruct H as (pts & Hparse & _); [discriminate|].
  pose proof Hparse as Hpts. vm_compute in Hpts. injection Hpts as <-.
  exact Hparse.
Defined.

Lemma pointing_reads_parenthesized_pairs_only_witness :
  (forall s, Numerals.is_numeral s = true -> is_Some (Numerals.exact_float s))
  /\ Scripted.parse_coordinates "it is near [40, 50]" "pointing" = None.
Proof.
  split; [exact ExtractionProps.exact_float_numeral|].
  apply (pointing_reads_parenthesized_pairs_only Numerals.exact_float
           Numerals.exact_add Numerals.exact_sub Numerals.exact_of_int
           ExtractionProps.exact_float_numeral "it is near [40, 50]").
  reflexivity.
Defined.

End ExtractionFacts.

(** ** The decomposer: repair of trajectory prompts *)

Module DecomposerFacts.
Import PipelineChat.

Lemma dict_get_set_eq (key : string) (v : value) (d : dict) :
  dict_get key (dict_set key v d) = Some v.
Proof.
  induction d as [|[k v'] d IH]; cbn.
  - by rewrite String.eqb_refl.
  - destruct (String.eqb k key) eqn:E; cbn; rewrite E; done.
Qed.

Lemma dict_get_set_ne (key k' : string) (v : value) (d : dict) :
  k' <> key -> dict_get k' (dict_set key v d) = dict_get k' d.
Proof.
  intros Hne. induction d as [|[k v'] d IH]; cbn.
  - apply String.eqb_neq in Hne. rewrite String.eqb_sym in Hne. by rewrite Hne.
  - destruct (String.eqb_spec k key) as [->|Hk]; cbn.
    + apply String.eqb_neq in Hne. rewrite String.eqb_sym in Hne. by rewrite Hne.
    + by rewrite IH.
Qed.

Lemma len_append (a b : string) : PyStr.len (a ++ b) = PyStr.len a + PyStr.len b.
Proof. unfold PyStr.len. rewrite RegexProps.length_append. lia. Qed.

Section WithLibrary.
Variable json_loads : string -> option (list value).
Variable py_str : value -> string.

Local Abbreviation enhance_step := (enhance_step py_str).
Local Abbreviation enhance_steps := (enhance_steps py_str).
Local Abbreviation decompose := (decompose json_loads py_str).

Lemma enhance_step_spec step step' :
  enhance_step step = inr step' ->
  well_formed_step step' /\ same_but_prompt step step'
  /\ enhance_step step' = inr step'.
Proof.
  destruct step as [| | | | | |d]; try discriminate. cbn [PipelineChat.enhance_step].
  destruct (value_is_str (dict_get "task" d) "trajectory") eqn:Htask.
  2: { intros [= <-]. split; [|split].
       - exists d. split; [done|]. by rewrite Htask.
       - exists d, d. eauto.
       - cbn. by rewrite Htask. }
  destruct (py_len (default (VStr EmptyString) (dict_get "prompt" d)))
    as [e|n] eqn:Hlen; [discriminate|]. cbn.
  destruct (Z.ltb_spec n 50) as [Hlt|Hge].
  - intros [= <-].
    assert (Htask' : value_is_str (dict_get "task"
              (dict_set "prompt" (VStr ("generate trajectory waypoints for the robot end-effector to "
                 ++ format_value py_str (default (VStr EmptyString) (dict_get "prompt" d)))) d))
              "trajectory" = true).
    { by rewrite dict_get_set_ne. }
    assert (Hlong : 50 <= PyStr.len
              ("generate trajectory waypoints for the robot end-effector to "
                 ++ format_value py_str (default (VStr EmptyString) (dict_get "prompt" d)))).
    { rewrite len_append.
      replace (PyStr.len "generate trajectory waypoints for the robot end-effector to ")
        with 60 by reflexivity.
      unfold PyStr.len.
      generalize (String.length (format_value py_str
                    (default (VStr EmptyString) (dict_get "prompt" d)))).
      intros k. lia. }
    split; [|split].
    + eexists. split; [done|]. intros _. eexists _, _.
      rewrite dict_get_set_eq. split; [done|]. by split.
    + eexists _, _. split; [done|]. split; [done|]. split.
      * intros k Hk. by apply dict_get_set_ne.
      * by rewrite Htask.
    + cbn [PipelineChat.enhance_step]. rewrite Htask', dict_get_set_eq. cbn.
      destruct (Z.ltb_spec (PyStr.len
        ("generate trajectory waypoints for the robot end-effector to "
           ++ format_value py_str (default (VStr EmptyString) (dict_get "prompt" d)))) 50);
        [lia | done].
  - intros [= <-]. split; [|split].
    + exists d. split; [done|]. intros _.
      destruct (dict_get "prompt" d) as [p|] eqn:Hp.
      * exists p, n. by cbn in Hlen.
      * exfalso. cbn in Hlen. injection Hlen as <-. vm_compute in Hge.
        by apply Hge.
    + exists d, d. eauto.
    + cbn [PipelineChat.enhance_step]. rewrite Htask, Hlen. cbn.
      destruct (Z.ltb_spec n 50); [lia | done].
Qed.

Lemma enhance_steps_spec pipeline pipeline' :
  enhance_steps pipeline = inr pipeline' ->
  Forall well_formed_step pipeline'
  /\ Forall2 same_but_prompt pipeline pipeline'
  /\ enhance_steps pipeline' = inr pipeline'.
Proof.
  revert pipeline'. induction pipeline as [|step rest IH]; intros pipeline'.
  - intros [= <-]. by repeat constructor.
  - cbn [PipelineChat.enhance_steps].
    destruct (enhance_step step) as [e|step'] eqn:Hstep; [discriminate|]. cbn.
    destruct (enhance_steps rest) as [e|rest'] eqn:Hrest; [discriminate|]. cbn.
    intros [= <-].
    destruct (enhance_step_spec step step' Hstep) as (Hw & Hs & Hi).
    destruct (IH rest' eq_refl) as (Hws & Hss & His).
    split; [by constructor|]. split; [by constructor|].
    cbn [PipelineChat.enhance_steps]. rewrite Hi. cbn. by rewrite His.
Qed.

Lemma single_general_step_well_formed query description :
  Forall well_formed_step (single_general_step query description).
Proof.
  constructor; [|constructor]. eexists. split; [done|]. by cbn.
Qed.

(** X16.  Every step of the pipeline [decompose] returns is a
    dictionary, and every step whose task is trajectory has a prompt of
    at least 50 characters: a shorter one was rewritten with the prefix
    of 60 characters. *)
Theorem decompose_returns_well_formed_steps (response : completion)
    (query : string) :
  Forall well_formed_step (decompose response query).
Proof.
  unfold PipelineChat.decompose.
  destruct response as [e|raw]; [apply single_general_step_well_formed|].
  destruct (Regex.search json_array_pattern (PyStr.strip raw)) as [text|];
    [|apply single_general_step_well_formed].
  destruct (json_loads text) as [pipeline|];
    [|apply single_general_step_well_formed].
  destruct (enhance_steps pipeline) as [e|pipeline'] eqn:H;
    [apply single_general_step_well_formed|].
  by apply enhance_steps_spec in H as (H & _).
Qed.

(** X17.  When the reply decodes and its post-processing raises nothing,
    [decompose] returns as many steps as were decoded, in their order;
    each step keeps all its entries but possibly [prompt], and a step
    whose task is not trajectory is returned unchanged. *)
Theorem decompose_keeps_the_steps (raw text query : string)
    (pipeline pipeline' : list value) :
  Regex.search json_array_pattern (PyStr.strip raw) = Some text ->
  json_loads text = Some pipeline ->
  enhance_steps pipeline = inr pipeline' ->
  decompose (inr raw) query = pipeline'
  /\ length pipeline' = length pipeline
  /\ Forall2 same_but_prompt pipeline pipeline'.
Proof.
  intros Hs Hj He. unfold PipelineChat.decompose. rewrite Hs, Hj, He.
  apply enhance_steps_spec in He as (_ & HF & _).
  split; [done|]. split; [|done]. symmetry. by eapply Forall2_length.
Qed.

(** X18.  The rewriting of short trajectory prompts is idempotent: on a
    pipeline it has produced it changes nothing. *)
Theorem enhance_steps_is_idempotent (pipeline pipeline' : list value) :
  enhance_steps pipeline = inr pipeline' ->
  enhance_steps pipeline' = inr pipeline'.
Proof. intros H. by apply enhance_steps_spec in H as (_ & _ & H). Qed.
End WithLibrary.

(** X19.  [enhance_trajectory_prompt] never shortens a prompt: its
    result is the original prompt or a strictly longer text, and it is
    the original prompt when the call of the service raises. *)
Theorem enhancement_never_shortens (response : completion) (original : string) :
  let result := enhance_trajectory_prompt response original in
  PyStr.len original <= PyStr.len result
  /\ (result = original \/ PyStr.len original < PyStr.len result)
  /\ (forall e, response = inl e -> result = original).
Proof.
  unfold enhance_trajectory_prompt.
  destruct response as [e|raw]; cbn zeta.
  - split; [lia|]. split; [by left | done].
  - destruct (Z.gtb_spec (PyStr.len (PyStr.strip_by is_quote (PyStr.strip raw)))
                (PyStr.len original)).
    + split; [lia|]. split; [right; lia | done].
    + split; [lia|]. split; [by left | done].
Qed.

Lemma decompose_keeps_the_steps_witness :
  let raw := "Here is the pipeline: " ++ Scripted.two_steps_text in
  Regex.search json_array_pattern (PyStr.strip raw) = Some Scripted.two_steps_text
  /\ length (decompose Scripted.json_loads_two_steps Scripted.py_str
               (inr raw) "fetch the cup") = 2%nat.
Proof.
  split; [vm_compute; reflexivity|].
  destruct (decompose_keeps_the_steps Scripted.json_loads_two_steps Scripted.py_str
              ("Here is the pipeline: " ++ Scripted.two_steps_text)
              Scripted.two_steps_text "fetch the cup" Scripted.two_steps
              [VDict [("step", VInt 1); ("task", VStr "grounding");
                      ("prompt", VStr "the red cup")];
               VDict [("step", VInt 2); ("task", VStr "trajectory");
                      ("prompt", VStr "generate trajectory waypoints for the robot end-effector to move to the cup")]])
    as (H & _); [vm_compute; reflexivity | vm_compute; reflexivity | reflexivity |].
  rewrite H. reflexivity.
Defined.

Lemma enhance_steps_is_idempotent_witness :
  let repaired :=
    [VDict [("step", VInt 1); ("task", VStr "grounding");
            ("prompt", VStr "the red cup")];
     VDict [("step", VInt 2); ("task", VStr "trajectory");
            ("prompt", VStr "generate trajectory waypoints for the robot end-effector to move to the cup")]] in
  enhance_steps Scripted.py_str Scripted.two_steps = inr repaired
  /\ enhance_steps Scripted.py_str repaired = inr repaired.
Proof.
  split; [reflexivity|].
  apply (enhance_steps_is_idempotent Scripted.py_str Scripted.two_steps).
  reflexivity.
Defined.

End DecomposerFacts.

(** ** The executor *)

Module ExecutorFacts.
Import PipelineChat.

Lemma replace_from_absent (old new s : string) :
  PyStr.contains old s = false -> PyStr.replace_from old new O s = s.
Proof.
  induction s as [|c s IH]; [done|].
  cbn [PyStr.contains PyStr.replace_from].
  destruct (String.prefix old (String c s)); [done|].
  intros H. by rewrite IH.
Qed.

Lemma length_substring_le (n : nat) (s : string) :
  (String.length (substring 0 n s) <= n)%nat.
Proof.
  revert s. induction n as [|n IH]; intros [|c s]; cbn; try lia.
  specialize (IH s). lia.
Qed.

(** X23.  What the loop of [execute_pipeline] does to the prompt of a
    step before it is sent.  When the step does not ask for the previous
    result, or there is none or an empty one, the prompt is sent as it
    is.  Otherwise, when the prompt has no placeholder, the prompt is
    kept and a context of at most 200 characters of the previous result
    is appended to it; when it has the placeholder, every occurrence is
    replaced by the whole previous result and nothing is appended. *)
Theorem previous_result_injection (si : step_info) (previous : option string) :
  let prompt := default EmptyString (si_prompt si) in
  let uses := (default false (si_use_previous si) && PyStr.truthy previous)%bool in
  (uses = false -> inject_previous si previous = prompt)
  /\ (forall prev, previous = Some prev -> uses = true ->
        PyStr.contains PLACEHOLDER prompt = false ->
        inject_previous si previous
        = prompt ++ " (Context: " ++ PyStr.slice_to 200 prev ++ ")"
        /\ PyStr.len (PyStr.slice_to 200 prev) <= 200)
  /\ (forall prev, previous = Some prev -> uses = true ->
        PyStr.contains PLACEHOLDER prompt = true ->
        inject_previous si previous = PyStr.replace PLACEHOLDER prev prompt).
Proof.
  intros prompt uses. subst prompt uses. unfold inject_previous.
  split; [|split].
  - destruct previous as [prev|]; [|done]. by intros ->.
  - intros prev -> ->. intros H. rewrite H. cbn [negb].
    unfold PyStr.replace. rewrite replace_from_absent by done.
    split; [done|]. unfold PyStr.len, PyStr.slice_to.
    pose proof (length_substring_le 200 prev). lia.
  - intros prev -> ->. intros H. by rewrite H.
Qed.

Lemma filter_none {A} (f : A -> bool) (l : list A) :
  Forall (fun a => f a = false) l -> filter (fun a => f a = true) l = [].
Proof.
  induction 1 as [|a l Ha _ IH]; [done|].
  rewrite filter_cons, decide_False by (by rewrite Ha). done.
Qed.

(** X22.  When the ledger is not empty and every entry failed,
    [_combine_results] returns the empty text, not the text it returns
    for an empty ledger. *)
Theorem nothing_to_combine (F : Type) (steps : list (step_result (F:=F))) :
  steps <> [] ->
  Forall (fun r => sr_success r = false) steps ->
  _combine_results steps = EmptyString.
Proof.
  intros Hne Hall. unfold _combine_results.
  rewrite (filter_none sr_success steps Hall).
  by destruct steps.
Qed.

Section WithCollaborators.
Context {F World : Type}.
Variable py_float : string -> option F.
Variable float_add float_sub : F -> F -> F.
Variable float_of_int : Z -> F.
Variable chat_ask : World -> string -> string -> bool -> World * (string + ask_reply).
Variable groq_enhance : option (World -> string -> World * completion).
Variable visualize_step : World -> string -> string -> string -> Z -> World * option string.

Local Abbreviation execute_step :=
  (execute_step py_float float_add float_sub float_of_int
     chat_ask groq_enhance visualize_step).
Local Abbreviation run_steps :=
  (run_steps py_float float_add float_sub float_of_int
     chat_ask groq_enhance visualize_step).
Local Abbreviation execute_pipeline :=
  (execute_pipeline py_float float_add float_sub float_of_int
     chat_ask groq_enhance visualize_step).
Local Abbreviation prepare_step := (prepare_step (F:=F) groq_enhance).
Local Abbreviation consistent_entry :=
  (consistent_entry py_float float_add float_sub float_of_int).
Local Abbreviation parse :=
  (_parse_coordinates py_float float_add float_sub float_of_int).

Implicit Types (st : exec_state (F:=F) (World:=World)) (si : step_info)
  (r : step_result (F:=F)).

Local Abbreviation visualization_paths := (visualization_paths (F:=F)).
Local Abbreviation carried_result := (carried_result (F:=F)).

Ltac simp_entry :=
  cbn [steps st_results visualizations sr_success sr_answer sr_thinking
       sr_error sr_coordinates sr_visualization sr_task sr_prompt
       omap list_omap app].

(** An iteration appends one consistent entry, and appends its
    visualization, when it has one, to the list of the visualizations. *)
Lemma execute_step_entry th st si :
  exists r,
    steps (st_results (execute_step th st si))
    = (steps (st_results st) ++ [r])%list
    /\ consistent_entry r
    /\ sr_prompt r = (prepare_step st si).2
    /\ sr_task r = default "general" (si_task si)
    /\ visualizations (st_results (execute_step th st si))
       = (visualizations (st_results st) ++ visualization_paths [r])%list
    /\ (sr_success r = false ->
        exists w e, chat_ask (prepare_step st si).1 (prepare_step st si).2
                      (default "general" (si_task si)) th = (w, inl e)).
Proof.
  unfold PipelineChat.execute_step, PipelineChat.consistent_entry,
    PipelineChat.visualization_paths.
  destruct (prepare_step st si) as [w1 prompt]. cbn [fst snd].
  destruct (chat_ask w1 prompt _ th) as [w2 [e|reply]] eqn:Hask.
  - eexists. cbn. split; [done|]. rewrite app_nil_r.
    repeat split; eauto.
  - set (answer := default EmptyString (reply_answer reply)).
    set (task := default "general" (si_task si)).
    destruct (geometry_truthy (parse answer task)) eqn:Htruthy.
    + destruct (str_in task ["grounding"; "affordance"; "trajectory"; "pointing"])
        eqn:Hsp; cbn [andb].
      * destruct (visualize_step w2 answer task prompt _) as [w3 [path|]];
          eexists; (split; [simp_entry; reflexivity|]); simp_entry;
          rewrite ?app_nil_r; (split; [|done]);
          eexists _, _; do 3 (split; [reflexivity|]); rewrite Htruthy;
          (split; [reflexivity|]);
          first [ by intros _ | by intros [? [=]] ].
      * eexists. split; [simp_entry; reflexivity|]. simp_entry.
        rewrite ?app_nil_r. split; [|done].
        eexists _, _. do 3 (split; [reflexivity|]). rewrite Htruthy.
        split; [reflexivity|]. by intros [? [=]].
    + rewrite andb_false_r. eexists. split; [simp_entry; reflexivity|].
      simp_entry. rewrite ?app_nil_r. split; [|done].
      eexists _, _. do 3 (split; [reflexivity|]). rewrite Htruthy.
      split; [reflexivity|]. by intros [? [=]].
Qed.

Lemma run_steps_entries th p st :
  exists l,
    steps (st_results (run_steps th p st)) = (steps (st_results st) ++ l)%list
    /\ Forall consistent_entry l
    /\ visualizations (st_results (run_steps th p st))
       = (visualizations (st_results st) ++ visualization_paths l)%list.
Proof.
  revert st. induction p as [|si p IH]; intros st.
  - exists []. cbn. by rewrite !app_nil_r.
  - change (run_steps th (si :: p) st)
      with (run_steps th p (execute_step th st si)).
    destruct (execute_step_entry th st si) as (r & Hr & Hc & _ & _ & Hv & _).
    destruct (IH (execute_step th st si)) as (l & Hl & Hall & Hvis).
    exists (r :: l). rewrite Hl, Hr, Hvis, Hv, <- !app_assoc.
    split; [done|]. split; [by constructor|].
    f_equal. unfold PipelineChat.visualization_paths. cbn.
    by destruct (sr_visualization r).
Qed.

(** X20.  Every entry of the ledger [execute_pipeline] returns is
    consistent: a success has an answer and a reasoning and no error,
    its coordinates are what [_parse_coordinates] finds in its answer,
    and it has a visualization only for a spatial task with coordinates;
    a failure has an error and no answer, coordinates or
    visualization. *)
Theorem ledger_is_consistent w pipeline th :
  Forall consistent_entry (steps (execute_pipeline w pipeline th).2).
Proof.
  cbn. destruct (run_steps_entries th pipeline (initial_state w))
    as (l & Hl & Hall & _).
  cbn in Hl. by rewrite Hl.
Qed.

(** X21.  The list [visualizations] of the result is the list of the
    visualizations of the entries of the ledger, in the order of the
    entries. *)
Theorem visualizations_follow_the_ledger w pipeline th :
  let res := (execute_pipeline w pipeline th).2 in
  visualizations res = visualization_paths (steps res).
Proof.
  cbn. destruct (run_steps_entries th pipeline (initial_state w))
    as (l & Hl & _ & Hv).
  cbn in Hl, Hv. by rewrite Hl, Hv.
Qed.

(** What an iteration leaves as the previous result *)
Lemma execute_step_carries th st si :
  exists r,
    steps (st_results (execute_step th st si))
    = (steps (st_results st) ++ [r])%list
    /\ st_previous (execute_step th st si) = Some (carried_result r).
Proof.
  unfold PipelineChat.execute_step.
  destruct (prepare_step st si) as [w1 prompt].
  destruct (chat_ask w1 prompt _ th) as [w2 [e|reply]].
  - eexists. cbn. by split.
  - destruct (if (_ && _)%bool then _ else _) as [w3 vis].
    eexists. cbn. by split.
Qed.

(** What an iteration records when [chat.ask] returns *)
Lemma execute_step_returns th st si w2 reply :
  chat_ask (prepare_step st si).1 (prepare_step st si).2
    (default "general" (si_task si)) th = (w2, inr reply) ->
  exists r,
    steps (st_results (execute_step th st si))
    = (steps (st_results st) ++ [r])%list
    /\ sr_success r = true
    /\ sr_answer r = Some (default EmptyString (reply_answer reply))
    /\ sr_thinking r = Some (default EmptyString (reply_thinking reply))
    /\ sr_error r = None.
Proof.
  intros H. unfold PipelineChat.execute_step.
  destruct (prepare_step st si) as [w1 prompt]. cbn [fst snd] in H.
  rewrite H.
  destruct (if (_ && _)%bool then _ else _) as [w3 vis].
  eexists. cbn. by split.
Qed.

Lemma run_steps_snoc th p si st :
  run_steps th (p ++ [si])%list st = execute_step th (run_steps th p st) si.
Proof. unfold PipelineChat.run_steps. by rewrite fold_left_app. Qed.

(** After a run from the initial state the previous result is the one
    carried by the last entry of the ledger. *)
Lemma run_steps_previous th p w :
  st_previous (run_steps th p (initial_state w))
  = carried_result
      <$> last (steps (st_results (run_steps th p (initial_state w)))).
Proof.
  induction p as [|si p _] using rev_ind; [done|].
  rewrite run_steps_snoc.
  destruct (execute_step_carries th (run_steps th p (initial_state w)) si)
    as (r & Hr & Hp).
  by rewrite Hp, Hr, last_snoc.
Qed.

(** The entry of the step at a position of the pipeline is the one its
    iteration appends in the state reached after the steps before it,
    and the entries before it are those of the run of these steps. *)
Lemma entry_at th w pre si post :
  exists r,
    steps (execute_pipeline w (pre ++ si :: post)%list th).2 !! length pre
    = Some r
    /\ take (length pre) (steps (execute_pipeline w (pre ++ si :: post)%list th).2)
       = steps (st_results (run_steps th pre (initial_state w)))
    /\ steps (st_results
                (execute_step th (run_steps th pre (initial_state w)) si))
       = (steps (st_results (run_steps th pre (initial_state w))) ++ [r])%list.
Proof.
  cbn. unfold PipelineChat.run_steps. rewrite fold_left_app. cbn [fold_left].
  fold (run_steps th pre (initial_state w)).
  set (st := run_steps th pre (initial_state w)).
  destruct (execute_step_entry th st si) as (r & Hr & _).
  fold (run_steps th post (execute_step th st si)).
  destruct (run_steps_entries th post (execute_step th st si)) as (l & Hl & _).
  destruct (ExecutorProps.run_steps_ledger py_float float_add float_sub
              float_of_int chat_ask groq_enhance visualize_step th pre
              (initial_state w)) as (lpre & Hlpre & Hlen & _).
  fold st in Hlpre. cbn in Hlpre.
  exists r. rewrite Hl, Hr, Hlpre, <- app_assoc. cbn [app]. rewrite <- Hlen.
  split; [by apply list_lookup_middle|]. split; [|done].
  by rewrite take_app_length.
Qed.

(** Without a decomposer, or for a task other than trajectory, the
    prompt is not enhanced. *)
Lemma prepare_step_plain st si :
  groq_enhance = None \/ default "general" (si_task si) <> "trajectory" ->
  prepare_step st si = (st_world st, inject_previous si (st_previous st)).
Proof.
  intros H. unfold PipelineChat.prepare_step.
  destruct groq_enhance as [enhance|]; [|done].
  destruct H as [H|H]; [done|].
  apply String.eqb_neq in H. by rewrite H.
Qed.

(** X24.  Without a decomposer, or for a step whose task is not
    trajectory, the prompt recorded for a step is its own prompt with
    the result carried by the entry just before it in the ledger
    injected: the answer of that entry, or [Error: ] and its error when
    it failed.  The prompt of the first step is recorded as it is, even
    when the step asks for the previous result. *)
Theorem prompt_comes_from_previous_entry th w pre si post :
  groq_enhance = None \/ default "general" (si_task si) <> "trajectory" ->
  let res := (execute_pipeline w (pre ++ si :: post)%list th).2 in
  exists r,
    steps res !! length pre = Some r
    /\ sr_prompt r
       = inject_previous si
           (carried_result <$> last (take (length pre) (steps res)))
    /\ (pre = [] -> sr_prompt r = default EmptyString (si_prompt si)).
Proof.
  intros Hplain res. subst res.
  destruct (entry_at th w pre si post) as (r & Hr & Htake & Hstep).
  exists r. split; [done|].
  destruct (execute_step_entry th (run_steps th pre (initial_state w)) si)
    as (r' & Hr' & _ & Hp & _).
  rewrite Hstep in Hr'. apply app_inj_tail in Hr' as [_ <-].
  rewrite prepare_step_plain in Hp by done. cbn [snd] in Hp.
  rewrite run_steps_previous, <- Htake in Hp.
  split; [done|]. intros ->. by rewrite Hp.
Qed.

(** When [chat.ask] never raises, every entry of a run is a success. *)
Lemma run_steps_all_succeed th p st :
  (forall w prompt task, exists w' reply,
      chat_ask w prompt task th = (w', inr reply)) ->
  exists l,
    steps (st_results (run_steps th p st)) = (steps (st_results st) ++ l)%list
    /\ Forall (fun r => sr_success r = true) l.
Proof.
  intros Hask. revert st. induction p as [|si p IH]; intros st.
  - exists []. cbn. by rewrite app_nil_r.
  - change (run_steps th (si :: p) st)
      with (run_steps th p (execute_step th st si)).
    destruct (execute_step_entry th st si) as (r & Hr & _ & _ & _ & _ & Hf).
    destruct (IH (execute_step th st si)) as (l & Hl & Hall).
    exists (r :: l). rewrite Hl, Hr, <- app_assoc. split; [done|].
    constructor; [|done].
    destruct (sr_success r); [done|].
    destruct (Hf eq_refl) as (w' & e & He).
    destruct (Hask (prepare_step st si).1 (prepare_step st si).2
                (default "general" (si_task si))) as (w'' & reply & Hreply).
    congruence.
Qed.

End WithCollaborators.

(** X24 on a scripted run: the second step asks for the previous result
    and has no placeholder. *)
Lemma prompt_comes_from_previous_entry_witness :
  let script := [Scripted.answers "a cup at [1,2,3,4]"; Scripted.answers "done"] in
  let s1 := Scripted.step 1 "grounding" "the cup" "find the cup" false in
  let s2 := Scripted.step 2 "general" "what next" "plan" true in
  (@None (Scripted.world -> string -> Scripted.world * completion) = None
   \/ default "general" (si_task s2) <> "trajectory")
  /\ exists r,
       steps (Scripted.execute_pipeline script [s1; s2] false).2 !! 1%nat = Some r
       /\ sr_prompt r = "what next (Context: a cup at [1,2,3,4])".
Proof.
  split; [by left|].
  destruct (prompt_comes_from_previous_entry Numerals.exact_float
              Numerals.exact_add Numerals.exact_sub Numerals.exact_of_int
              Scripted.chat_ask None Scripted.visualize_step false
              [Scripted.answers "a cup at [1,2,3,4]"; Scripted.answers "done"]
              [Scripted.step 1 "grounding" "the cup" "find the cup" false]
              (Scripted.step 2 "general" "what next" "plan" true) []
              (or_introl eq_refl)) as (r & Hr & Hp & _).
  exists r. split; [exact Hr|]. rewrite Hp. reflexivity.
Defined.

(** X22 on a ledger with one failed entry *)
Lemma nothing_to_combine_witness :
  let failed := failed_step (F:=Q) 1 "general" "what is this" "describe" "boom" in
  [failed] <> [] /\ Forall (fun r => sr_success r = false) [failed]
  /\ _combine_results [failed] = EmptyString.
Proof.
  assert (Hne : [failed_step (F:=Q) 1 "general" "what is this" "describe" "boom"] <> [])
    by discriminate.
  assert (Hall : Forall (fun r => sr_success r = false)
                   [failed_step (F:=Q) 1 "general" "what is this" "describe" "boom"])
    by (repeat constructor).
  split; [exact Hne|]. split; [exact Hall|].
  exact (nothing_to_combine Q _ Hne Hall).
Defined.

(** *** The executor on the chat object of the repository *)

Local Abbreviation int_step :=
  (PipelineChat.execute_step Numerals.exact_float Numerals.exact_add
     Numerals.exact_sub Numerals.exact_of_int Integrated.chat_ask None
     Integrated.visualize_step).
Local Abbreviation int_run :=
  (PipelineChat.run_steps Numerals.exact_float Numerals.exact_add
     Numerals.exact_sub Numerals.exact_of_int Integrated.chat_ask None
     Integrated.visualize_step).

(** [ask] without a new image keeps the current image. *)
Lemma ask_keeps_image model prompt tk th ds plot now_user now_reply c :
  ConversationMemory.current_image
    (ConversationMemory.memory
       (ConversationMemory.ask model prompt None tk th ds plot
          now_user now_reply c).1)
  = ConversationMemory.current_image (ConversationMemory.memory c).
Proof.
  unfold ConversationMemory.ask. cbn [PyStr.or_else PyStr.truthy].
  destruct (ConversationMemory.current_image (ConversationMemory.memory c))
    as [img|] eqn:Himg; [|exact Himg].
  destruct (negb (negb _)); [exact Himg|].
  pose proof (MemoryFacts.add_user_turn_fields prompt None tk now_user
                (ConversationMemory.memory c)) as [Hu _].
  cbn [PyStr.or_else PyStr.truthy] in Hu. rewrite Himg in Hu.
  destruct (model _ img tk th ds plot) as [e|result].
  - cbn [fst ConversationMemory.memory].
    destruct (last _) as [t|]; [|done].
    by destruct (String.eqb (ConversationMemory.role t) "user").
  - destruct result as [|d|s|shown]; cbn [fst ConversationMemory.memory];
      unfold ConversationMemory.add_assistant_turn;
      match goal with |- context [ConversationMemory._trim_history ?x] =>
        destruct (MemoryProps.trim_history_fields x) as [-> _] end; done.
Qed.

(** A call of [chat.ask] consumes one outcome of the model, keeps the
    current image and returns. *)
Lemma chat_ask_world w prompt tk th :
  exists w' reply,
    Integrated.chat_ask w prompt tk th = (w', inr reply)
    /\ Integrated.model_outcomes w' = tail (Integrated.model_outcomes w)
    /\ ConversationMemory.current_image
         (ConversationMemory.memory (Integrated.chat w'))
       = ConversationMemory.current_image
           (ConversationMemory.memory (Integrated.chat w)).
Proof.
  unfold Integrated.chat_ask.
  match goal with |- context [ConversationMemory.ask ?m ?p None ?t ?a ?b ?c ?u ?r ?ch] =>
    pose proof (ask_keeps_image m p t a b c u r ch) as Himg;
    destruct (ConversationMemory.ask m p None t a b c u r ch) as [chat' d]
  end.
  eexists _, _. split; [reflexivity|]. by split.
Qed.

(** When the next outcome of the model is an exception, the answer of
    [chat.ask] is the message of [ask]. *)
Lemma chat_ask_on_error w prompt tk th img e rest :
  ConversationMemory.current_image
    (ConversationMemory.memory (Integrated.chat w)) = Some img ->
  img <> EmptyString ->
  Integrated.model_outcomes w = inl e :: rest ->
  exists w' reply,
    Integrated.chat_ask w prompt tk th = (w', inr reply)
    /\ reply_answer reply = Some ("Inference error: " ++ e).
Proof.
  intros Himg Hne Hout. unfold Integrated.chat_ask, ConversationMemory.ask.
  rewrite Hout. cbn [PyStr.or_else PyStr.truthy]. rewrite Himg.
  apply String.eqb_neq in Hne. cbn [PyStr.truthy]. rewrite Hne. cbn [negb].
  eexists _, _. split; reflexivity.
Qed.

Lemma int_step_world th st si :
  Integrated.model_outcomes (st_world (int_step th st si))
  = tail (Integrated.model_outcomes (st_world st))
  /\ ConversationMemory.current_image
       (ConversationMemory.memory (Integrated.chat (st_world (int_step th st si))))
     = ConversationMemory.current_image
         (ConversationMemory.memory (Integrated.chat (st_world st))).
Proof.
  unfold PipelineChat.execute_step, PipelineChat.prepare_step.
  destruct (chat_ask_world (st_world st) (inject_previous si (st_previous st))
              (default "general" (si_task si)) th) as (w' & reply & -> & Ho & Hi).
  unfold Integrated.visualize_step.
  destruct (str_in _ _ && _)%bool; cbn [st_world]; by split.
Qed.

Lemma drop_tail {A} (n : nat) (l : list A) : drop n (tail l) = drop (S n) l.
Proof. destruct l; cbn [tail]; [by rewrite !drop_nil|done]. Qed.

Lemma int_run_world th p st :
  Integrated.model_outcomes (st_world (int_run th p st))
  = drop (length p) (Integrated.model_outcomes (st_world st))
  /\ ConversationMemory.current_image
       (ConversationMemory.memory (Integrated.chat (st_world (int_run th p st))))
     = ConversationMemory.current_image
         (ConversationMemory.memory (Integrated.chat (st_world st))).
Proof.
  revert st. induction p as [|si p IH]; intros st; [done|].
  change (int_run th (si :: p) st) with (int_run th p (int_step th st si)).
  destruct (IH (int_step th st si)) as [-> ->].
  destruct (int_step_world th st si) as [-> ->].
  by rewrite drop_tail.
Qed.

(** X25.  With the chat object the executor builds for itself and an
    image set, an exception of the model never fails a step: [ask]
    catches it, so every entry of the ledger is a success and the flag
    [success] is true; the entry of the step whose inference raised [e]
    has the answer [Inference error: e] and no error. *)
Theorem model_error_becomes_an_answer
    (image : string) (outcomes : list (string + ConversationMemory.model_result))
    (pipeline : list step_info) (th : bool) (k : nat) (si : step_info)
    (e : string) :
  image <> EmptyString ->
  pipeline !! k = Some si ->
  outcomes !! k = Some (inl e) ->
  let res := (Integrated.execute_pipeline
                (Integrated.new_world image outcomes) pipeline th).2 in
  success res = true
  /\ Forall (fun r => sr_success r = true) (steps res)
  /\ exists r, steps res !! k = Some r
       /\ sr_answer r = Some ("Inference error: " ++ e)
       /\ sr_error r = None.
Proof.
  intros Himg Hk Hout res. subst res.
  set (w := Integrated.new_world image outcomes).
  assert (Hall : Forall (fun r => sr_success r = true)
                   (steps (Integrated.execute_pipeline w pipeline th).2)).
  { destruct (run_steps_all_succeed Numerals.exact_float Numerals.exact_add
                Numerals.exact_sub Numerals.exact_of_int Integrated.chat_ask
                None Integrated.visualize_step th pipeline (initial_state w))
      as (l & Hl & Hall).
    - intros w0 prompt tk.
      destruct (chat_ask_world w0 prompt tk th) as (w' & reply & H & _).
      by exists w', reply.
    - unfold Integrated.execute_pipeline. cbn. cbn in Hl. by rewrite Hl. }
  split; [|split; [done|]].
  { destruct (ExecutorProps.execute_pipeline_ledger Numerals.exact_float
                Numerals.exact_add Numerals.exact_sub Numerals.exact_of_int
                Integrated.chat_ask None Integrated.visualize_step
                w pipeline th) as (_ & _ & _ & Hs & _).
    unfold Integrated.execute_pipeline. rewrite Hs.
    by apply ExecutorProps.forallb_Forall. }
  pose proof (take_drop_middle pipeline k si Hk) as Hsplit.
  pose proof (lookup_lt_Some _ _ _ Hk) as Hlt.
  set (pre := take k pipeline) in *. set (post := drop (S k) pipeline) in *.
  assert (Hlen : length pre = k) by (subst pre; rewrite length_take; lia).
  set (st := int_run th pre (initial_state w)).
  destruct (int_run_world th pre (initial_state w)) as [Ho Hi].
  fold st in Ho, Hi. cbn in Ho, Hi. rewrite Hlen in Ho.
  destruct (chat_ask_on_error (st_world st) (inject_previous si (st_previous st))
              (default "general" (si_task si)) th image e (drop (S k) outcomes)
              Hi Himg)
    as (w' & reply & Hask & Hans).
  { rewrite Ho. by apply drop_S. }
  destruct (execute_step_returns Numerals.exact_float Numerals.exact_add
              Numerals.exact_sub Numerals.exact_of_int Integrated.chat_ask
              None Integrated.visualize_step th st si w' reply Hask)
    as (r & Hr & _ & Ha & _ & He).
  destruct (entry_at Numerals.exact_float Numerals.exact_add
              Numerals.exact_sub Numerals.exact_of_int Integrated.chat_ask
              None Integrated.visualize_step th w pre si post)
    as (r' & Hr' & _ & Hstep).
  fold st in Hstep. rewrite Hstep in Hr. apply app_inj_tail in Hr as [_ ->].
  rewrite Hsplit, Hlen in Hr'.
  exists r. split; [exact Hr'|]. split; [|done].
  by rewrite Ha, Hans.
Qed.

(** X25 on a run of two steps whose second inference raises *)
Lemma model_error_becomes_an_answer_witness :
  let outcomes := [inr (ConversationMemory.MStr "a cup at [1,2,3,4]");
                   inl "out of memory"] in
  let s1 := Scripted.step 1 "grounding" "the cup" "find the cup" false in
  let s2 := Scripted.step 2 "general" "what next" "plan" false in
  "scene.jpg" <> EmptyString
  /\ [s1; s2] !! 1%nat = Some s2
  /\ outcomes !! 1%nat = Some (inl "out of memory")
  /\ success (Integrated.execute_pipeline
                (Integrated.new_world "scene.jpg" outcomes) [s1; s2] false).2
     = true.
Proof.
  assert (Himg : "scene.jpg" <> EmptyString) by discriminate.
  split; [exact Himg|]. split; [reflexivity|]. split; [reflexivity|].
  apply (model_error_becomes_an_answer "scene.jpg"
           [inr (ConversationMemory.MStr "a cup at [1,2,3,4]");
            inl "out of memory"]
           [Scripted.step 1 "grounding" "the cup" "find the cup" false;
            Scripted.step 2 "general" "what next" "plan" false]
           false 1
           (Scripted.step 2 "general" "what next" "plan" false)
           "out of memory" Himg eq_refl eq_refl).
Defined.

End ExecutorFacts.

(** ** The backend *)

Module BackendFacts.
Import Backend.

(** X26.  [classify_task_with_groq] always returns one of the five
    tasks.  With an API key it returns what [classify_single] of the
    pipeline script returns for the same reply; without one it returns
    [general]. *)
Theorem backend_classifier_agrees (api_key : option string)
    (response : PipelineChat.completion) (query : string) :
  let task := classify_task_with_groq api_key response in
  PipelineChat.str_in task PipelineChat.ROBOBRAIN_TASKS = true
  /\ (PyStr.truthy api_key = true ->
      task = PipelineChat.classify_single response query)
  /\ (PyStr.truthy api_key = false -> task = "general").
Proof.
  intros task. subst task.
  unfold classify_task_with_groq, PipelineChat.classify_single,
    PipelineChat.ROBOBRAIN_TASKS.
  destruct (PyStr.truthy api_key); cbn [negb].
  2: { split; [reflexivity|]. split; [discriminate|reflexivity]. }
  destruct response as [e|content].
  { split; [reflexivity|]. split; [reflexivity|discriminate]. }
  cbv zeta.
  destruct (PipelineChat.str_in (PyStr.lower (PyStr.strip content)) _) eqn:Hin;
    cbn [negb].
  - split; [exact Hin|]. split; [reflexivity|discriminate].
  - split; [reflexivity|]. split; [reflexivity|discriminate].
Qed.

Lemma server_eta (s : server) :
  {| model_loaded := model_loaded s; sessions := sessions s |} = s.
Proof. by destruct s. Qed.

Lemma delete_session_found session_id s c :
  sessions s !! session_id = Some c ->
  delete_session session_id s
  = (set_sessions (delete session_id (sessions s)) s,
     (VDict [("status", VStr "deleted")], 200)).
Proof. intros H. unfold delete_session. by rewrite H. Qed.

Lemma delete_session_missing session_id s :
  sessions s !! session_id = None ->
  delete_session session_id s = (s, session_not_found).
Proof. intros H. unfold delete_session. by rewrite H. Qed.

(** X27.  [delete_session] answers 200 exactly when the session
    exists, and leaves the store as it is otherwise.  After it, the
    history, a reset and a second deletion of that session are answered
    with [Session not found], and the histories of the other sessions
    are what they were.  Deleting a session that was just created under
    a new identifier gives back the store there was. *)
Theorem deleted_session_is_gone (session_id : string) (s : server) :
  let s' := (delete_session session_id s).1 in
  ((delete_session session_id s).2.2 = 200
   <-> is_Some (sessions s !! session_id))
  /\ (sessions s !! session_id = None ->
      delete_session session_id s = (s, session_not_found))
  /\ get_history session_id s' = session_not_found
  /\ reset_session session_id s' = (s', session_not_found)
  /\ delete_session session_id s' = (s', session_not_found)
  /\ (forall other, other <> session_id ->
        get_history other s' = get_history other s)
  /\ (model_loaded s = true -> sessions s !! session_id = None ->
      (delete_session session_id (create_session session_id s).1).1 = s).
Proof.
  intros s'. subst s'.
  assert (Hgone : sessions (delete_session session_id s).1 !! session_id = None).
  { destruct (sessions s !! session_id) as [c|] eqn:Hc.
    - rewrite (delete_session_found _ _ _ Hc). cbn. apply lookup_delete_eq.
    - by rewrite (delete_session_missing _ _ Hc). }
  split; [|split; [apply delete_session_missing|]].
  { destruct (sessions s !! session_id) as [c|] eqn:Hc.
    - rewrite (delete_session_found _ _ _ Hc). cbn. split; eauto.
    - rewrite (delete_session_missing _ _ Hc). cbn.
      split; [discriminate|]. by intros [? [=]]. }
  split; [unfold get_history; by rewrite Hgone|].
  split; [unfold reset_session; by rewrite Hgone|].
  split; [by apply delete_session_missing|].
  split.
  - intros other Hne. unfold get_history.
    destruct (sessions s !! session_id) as [c|] eqn:Hc.
    + rewrite (delete_session_found _ _ _ Hc). cbn.
      by rewrite lookup_delete_ne.
    + by rewrite (delete_session_missing _ _ Hc).
  - intros Hm Hnone. unfold create_session. rewrite Hm. cbn [negb fst].
    erewrite delete_session_found
      by (unfold set_sessions; cbn [sessions]; apply lookup_insert_eq).
    unfold set_sessions. cbn [fst sessions model_loaded].
    rewrite delete_insert_id by done. apply server_eta.
Qed.

(** X28.  [reset_session] on an existing session answers [reset]; the
    session is still there, its history is empty and it has no current
    image, while its bound and its use of the context are kept; the
    histories of the other sessions and the number of sessions are what
    they were. *)
Theorem reset_session_clears_history (session_id : string) (s : server)
    (c : ConversationMemory.MultiTurnInference) :
  sessions s !! session_id = Some c ->
  let s' := (reset_session session_id s).1 in
  (reset_session session_id s).2 = (VDict [("status", VStr "reset")], 200)
  /\ get_history session_id s' = (VList [], 200)
  /\ (exists c',
        sessions s' !! session_id = Some c'
        /\ ConversationMemory.current_image (ConversationMemory.memory c') = None
        /\ ConversationMemory.max_turns (ConversationMemory.memory c')
           = ConversationMemory.max_turns (ConversationMemory.memory c)
        /\ ConversationMemory.use_context c' = ConversationMemory.use_context c)
  /\ (forall other, other <> session_id ->
        get_history other s' = get_history other s)
  /\ health_check s' = health_check s.
Proof.
  intros Hc s'. subst s'. unfold reset_session. rewrite Hc. cbn [fst snd].
  split; [done|].
  unfold get_history, health_check, set_sessions. cbn [sessions model_loaded].
  rewrite lookup_insert_eq. split; [done|]. split; [by eexists|]. split.
  - intros other Hne. by rewrite lookup_insert_ne.
  - rewrite map_size_insert_Some; [done|]. by rewrite Hc.
Qed.

Lemma reset_session_clears_history_witness :
  let c := ConversationMemory.set_image "scene.jpg" ConversationMemory.new_chat in
  let s := {| model_loaded := true; sessions := {["a" := c]} |} in
  sessions s !! "a" = Some c
  /\ get_history "a" (reset_session "a" s).1 = (VList [], 200).
Proof.
  assert (H : sessions {| model_loaded := true;
                sessions := {["a" := ConversationMemory.set_image "scene.jpg"
                                       ConversationMemory.new_chat]} |} !! "a"
              = Some (ConversationMemory.set_image "scene.jpg"
                        ConversationMemory.new_chat))
    by (cbn [sessions]; apply lookup_singleton_eq).
  split; [exact H|].
  destruct (reset_session_clears_history "a" _ _ H) as (_ & Hh & _).
  exact Hh.
Defined.

(** X29.  The history [get_history] returns for a session is the list
    of records [save] writes for its memory, one per turn, and the
    decoding of [load] reads the turns of the session back from it. *)
Theorem history_can_be_loaded (session_id : string) (s : server)
    (c : ConversationMemory.MultiTurnInference) :
  sessions s !! session_id = Some c ->
  exists h,
    get_history session_id s = (VList h, 200)
    /\ ConversationMemory.saved_document (ConversationMemory.memory c)
       = VDict [("current_image",
                 value_of_opt_str
                   (ConversationMemory.current_image (ConversationMemory.memory c)));
                ("turns", VList h)]
    /\ ConversationMemory.load_turns h
       = inr (ConversationMemory.turns (ConversationMemory.memory c))
    /\ length h
       = length (ConversationMemory.turns (ConversationMemory.memory c)).
Proof.
  intros Hc. unfold get_history. rewrite Hc. eexists. split; [done|].
  split; [done|]. split; [apply MemoryProps.load_turns_records|].
  by rewrite length_map.
Qed.

Lemma history_can_be_loaded_witness :
  let c := ConversationMemory.set_image "scene.jpg" ConversationMemory.new_chat in
  let s := {| model_loaded := true; sessions := {["a" := c]} |} in
  sessions s !! "a" = Some c
  /\ exists h, get_history "a" s = (VList h, 200).
Proof.
  assert (H : sessions {| model_loaded := true;
                sessions := {["a" := ConversationMemory.set_image "scene.jpg"
                                       ConversationMemory.new_chat]} |} !! "a"
              = Some (ConversationMemory.set_image "scene.jpg"
                        ConversationMemory.new_chat))
    by (cbn [sessions]; apply lookup_singleton_eq).
  split; [exact H|].
  destruct (history_can_be_loaded "a" _ _ H) as (h & Hh & _).
  by exists h.
Defined.

End BackendFacts.

(** * The code on objects *)

(** ** The untyped memory: persistence *)

Module DynamicMemoryProps.
Import PyObj DynamicMemory.

(** Induction on objects *)
Section PyvalInd.
Variable P : pyval -> Prop.
Hypothesis HNone : P PNone.
Hypothesis HBool : forall b, P (PBool b).
Hypothesis HInt : forall n, P (PInt n).
Hypothesis HFloat : forall r, P (PFloat r).
Hypothesis HStr : forall s, P (PStr s).
Hypothesis HList : forall l, Forall P l -> P (PList l).
Hypothesis HTuple : forall l, Forall P l -> P (PTuple l).
Hypothesis HDict : forall d, Forall (fun kv => P kv.2) d -> P (PDict d).

Lemma pyval_induction (v : pyval) : P v.
Proof.
  revert v. fix IH 1.
  intros [| | | | |l|l|d];
    [apply HNone|apply HBool|apply HInt|apply HFloat|apply HStr| | |].
  - apply HList. induction l as [|x l IHl]; constructor; [apply IH | exact IHl].
  - apply HTuple. induction l as [|x l IHl]; constructor; [apply IH | exact IHl].
  - apply HDict. induction d as [|[k x] d IHd]; constructor; [apply IH | exact IHd].
Qed.
End PyvalInd.

Lemma pset_fresh (k : string) (v : pyval) (d : pdict) :
  k ∉ str_keys d -> pset k v d = (d ++ [(PStr k, v)])%list.
Proof.
  induction d as [|[k' v'] d IH]; [done|]. intros Hk. cbn.
  assert (Hne : eq_str k' k = false).
  { destruct k'; try done. cbn. apply String.eqb_neq. intros ->.
    apply Hk. cbn. by left. }
  rewrite Hne, IH; [done|].
  intros Hin. apply Hk. unfold str_keys. cbn.
  destruct k'; try done. cbn. by right.
Qed.

(** [json.load] after [json.dump] gives back an object a document
    stands for. *)
Lemma of_json_to_json (v : pyval) :
  json_like v = true -> exists j, to_json v = Some j /\ of_json j = v.
Proof.
  induction v as [| | | | |l IH|l IH|d IH] using pyval_induction;
    try (intros _; eexists; split; reflexivity).
  - intros Hl. cbn [json_like] in Hl. cbn [to_json].
    assert (H : exists js,
      (fix go (l : list pyval) : option (list value) :=
         match l with
         | [] => Some []
         | x :: l' =>
             match to_json x, go l' with
             | Some j, Some js => Some (j :: js)
             | _, _ => None
             end
         end) l = Some js /\ map of_json js = l).
    { induction l as [|x l IHl]; [by exists []|].
      cbn in Hl. apply andb_true_iff in Hl as [Hx Hl].
      apply Forall_cons in IH as [IHx IH].
      destruct (IHx Hx) as (j & -> & Hj).
      destruct (IHl IH Hl) as (js & -> & Hjs).
      exists (j :: js). cbn. by rewrite Hj, Hjs. }
    destruct H as (js & -> & Hjs). exists (VList js). cbn. by rewrite Hjs.
  - discriminate.
  - intros Hd. cbn [json_like] in Hd. apply andb_true_iff in Hd as [Hd Hnd].
    apply bool_decide_eq_true in Hnd. cbn [to_json].
    assert (H : forall acc, NoDup (str_keys acc ++ str_keys d) ->
      exists js,
      (fix go (d : pdict) : option (list (string * value)) :=
         match d with
         | [] => Some []
         | (k, x) :: d' =>
             match json_key k, to_json x, go d' with
             | Some s, Some j, Some js => Some ((s, j) :: js)
             | _, _, _ => None
             end
         end) d = Some js
      /\ (fix go (d : list (string * value)) (acc : pdict) : pdict :=
            match d with
            | [] => acc
            | (k, x) :: d' => go d' (pset k (of_json x) acc)
            end) js acc = (acc ++ d)%list).
    { clear Hnd. induction d as [|[k x] d IHd]; intros acc Hnd.
      { exists []. by rewrite app_nil_r. }
      destruct k as [| | | |k| | |]; try discriminate.
      apply andb_true_iff in Hd as [Hx Hd].
      apply Forall_cons in IH as [IHx IH]. cbn in IHx.
      destruct (IHx Hx) as (j & Hj & Hjx).
      change (str_keys ((PStr k, x) :: d)) with (k :: str_keys d) in Hnd.
      assert (Hfresh : k ∉ str_keys acc).
      { apply NoDup_app in Hnd as (_ & Hdisj & _). intros Hin.
        apply (Hdisj k Hin). by left. }
      destruct (IHd IH Hd (acc ++ [(PStr k, x)])%list) as (js & Hjs & Hgo).
      { unfold str_keys at 1. rewrite omap_app. cbn.
        fold (str_keys acc). rewrite <- app_assoc. exact Hnd. }
      exists ((k, j) :: js). cbn [json_key]. rewrite Hj, Hjs.
      split; [done|]. rewrite Hjx, pset_fresh by done.
      rewrite Hgo. by rewrite <- app_assoc. }
    destruct (H [] Hnd) as (js & -> & Hgo).
    exists (VDict js). split; [done|]. cbn [of_json]. by rewrite Hgo.
Qed.

Lemma load_turn_of_record (t : Turn) : load_turn (turn_record t) = inr t.
Proof. by destruct t. Qed.

Lemma load_turns_of_records (ts : list Turn) :
  load_turns (map turn_record ts) = inr ts.
Proof.
  induction ts as [|t ts IH]; [done|].
  cbn [map load_turns]. rewrite load_turn_of_record, IH. done.
Qed.

Lemma turn_record_json_like (t : Turn) :
  turn_json_like t = true -> json_like (turn_record t) = true.
Proof.
  unfold turn_json_like. rewrite !andb_true_iff.
  intros [[[[[H1 H2] H3] H4] H5] H6].
  cbn. rewrite H1, H2, H3, H4, H5, H6. reflexivity.
Qed.

Lemma saved_data_json_like (m : Memory) :
  memory_json_like m = true -> json_like (saved_data m) = true.
Proof.
  unfold memory_json_like. rewrite andb_true_iff. intros [Hi Hts].
  cbn. rewrite Hi. cbn.
  assert (H : forallb json_like (map turn_record (turns m)) = true).
  { induction (turns m) as [|t ts IH]; [done|]. cbn in Hts.
    apply andb_true_iff in Hts as [Ht Hts]. cbn [map forallb].
    rewrite (turn_record_json_like t Ht), (IH Hts). done. }
  rewrite H. reflexivity.
Qed.

(** C9, as the code has it.  For every memory whose fields hold objects
    a document stands for (no tuple, dictionaries with distinct string
    keys), [save] raises nothing, and a [load] of the same file, by any
    memory, reproduces the turns, in their order and with every field of
    every turn, and the current image.  The bound of the loading memory
    is kept: it is not stored. *)
Theorem save_then_load (filepath : string) (fs : gmap string file)
    (m other : Memory) :
  memory_json_like m = true ->
  (save filepath m fs).2 = None
  /\ load filepath (save filepath m fs).1 other
     = ({| turns := turns m; current_image := current_image m;
           max_turns := max_turns other |}, None).
Proof.
  intros Hm. unfold save.
  destruct (of_json_to_json (saved_data m) (saved_data_json_like m Hm))
    as (doc & -> & Hdoc).
  cbn [fst snd]. split; [done|].
  unfold load. rewrite lookup_insert_eq, Hdoc.
  cbn. by rewrite load_turns_of_records.
Qed.

(** C9 on a memory with a user turn and an assistant turn. *)
Lemma save_then_load_witness :
  let m :=
    add_assistant_turn (PStr "a red cup")
      (PDict [(PStr "thinking", PStr EmptyString);
              (PStr "task", PStr "general");
              (PStr "output_image", PNone)]) "t1"
      (add_user_turn (PStr "what is this") (PStr "scene.jpg")
         (PStr "general") "t0" new_memory) in
  memory_json_like m = true
  /\ load "chat.json" (save "chat.json" m ∅).1 new_memory = (m, None).
Proof.
  assert (Hm : memory_json_like
                 (add_assistant_turn (PStr "a red cup")
                    (PDict [(PStr "thinking", PStr EmptyString);
                            (PStr "task", PStr "general");
                            (PStr "output_image", PNone)]) "t1"
                    (add_user_turn (PStr "what is this") (PStr "scene.jpg")
                       (PStr "general") "t0" new_memory)) = true)
    by reflexivity.
  split; [exact Hm|].
  destruct (save_then_load "chat.json" ∅ _ new_memory Hm) as [_ H].
  exact H.
Defined.

(** The claim C9 does not hold of every memory.  A turn whose metadata
    holds a tuple is saved without an error and loaded without an error,
    and its metadata comes back with a list in the place of the
    tuple. *)
Lemma tuple_metadata_is_not_restored :
  let m :=
    add_assistant_turn (PStr "a red cup")
      (PDict [(PStr "box", PTuple [PInt 1; PInt 2])]) "t0"
      (set_current_image (PStr "scene.jpg") new_memory) in
  let saved := save "chat.json" m ∅ in
  let loaded := load "chat.json" saved.1 new_memory in
  saved.2 = None
  /\ loaded.2 = None
  /\ map metadata (turns m) = [PDict [(PStr "box", PTuple [PInt 1; PInt 2])]]
  /\ map metadata (turns loaded.1)
     = [PDict [(PStr "box", PList [PInt 1; PInt 2])]]
  /\ turns loaded.1 <> turns m.
Proof.
  vm_compute. repeat split. discriminate.
Qed.

(** Two more cases: a key that is not a string comes back as a string,
    and a key that is a tuple makes [save] raise, after which the file
    cannot be loaded. *)
Example other_metadata_is_not_restored :
  let with_metadata md :=
    add_assistant_turn (PStr "a red cup") md "t0" new_memory in
  let m1 := with_metadata (PDict [(PInt 1, PStr "one")]) in
  let m2 := with_metadata (PDict [(PTuple [PInt 1; PInt 2], PStr "pair")]) in
  map metadata (turns (load "chat.json" (save "chat.json" m1 ∅).1 new_memory).1)
  = [PDict [(PStr "1", PStr "one")]]
  /\ (save "chat.json" m2 ∅).2 = Some TypeError
  /\ load "chat.json" (save "chat.json" m2 ∅).1 new_memory
     = (new_memory, Some JSONDecodeError).
Proof. vm_compute. repeat split. Qed.

End DynamicMemoryProps.

(** ** The executor on objects *)

Module DynamicExecutorProps.
Import PyObj DynamicExecutor.

Lemma error_text_not_empty (s : string) :
  truthy (PStr ("Error: " ++ s)) = true.
Proof. by rewrite !RegexProps.append_cons. Qed.

Lemma sliceable_slice_to (n : nat) (v : pyval) :
  sliceable v = true -> exists shown, slice_to n v = inr shown.
Proof. destruct v; try discriminate; intros _; eexists; reflexivity. Qed.

Lemma slice_to_sliceable (n : nat) (v shown : pyval) :
  slice_to n v = inr shown -> sliceable v = true.
Proof. by destruct v. Qed.

Lemma slice_to_raises (n : nat) (v : pyval) (x : exn) :
  slice_to n v = inl x -> x = CannotSlice v /\ sliceable v = false.
Proof. destruct v; try discriminate; by intros [= <-]. Qed.

Section WithCollaborators.
Context {F Env : Type}.
Variable py_float : string -> option F.
Variable float_add float_sub : F -> F -> F.
Variable float_of_int : Z -> F.
Variable container_str : pyval -> string.
Variable exn_str : exn -> string.
Variable clock : Env -> Env * string.
Variable inference :
  Env -> pyval -> pyval -> pyval -> bool -> bool -> bool -> Env * (string + pyval).
Variable groq_enhance : option (Env -> pyval -> Env * PipelineChat.completion).
Variable visualize_step :
  Env -> pyval -> pyval -> string -> pyval -> pyval -> Env * option string.

Local Abbreviation to_text := (to_text container_str).
Local Abbreviation ask := (DynamicMemory.ask container_str clock inference).
Local Abbreviation inject_previous := (inject_previous container_str).
Local Abbreviation prepare_step := (prepare_step container_str groq_enhance).
Local Abbreviation guarded :=
  (guarded py_float float_add float_sub float_of_int container_str
     clock inference visualize_step).
Local Abbreviation execute_step :=
  (execute_step py_float float_add float_sub float_of_int container_str
     exn_str clock inference groq_enhance visualize_step).
Local Abbreviation run_steps :=
  (run_steps py_float float_add float_sub float_of_int container_str
     exn_str clock inference groq_enhance visualize_step).
Local Abbreviation execute_pipeline :=
  (execute_pipeline py_float float_add float_sub float_of_int container_str
     exn_str clock inference groq_enhance visualize_step).
Local Abbreviation _combine_results := (_combine_results (F:=F) container_str).
Local Abbreviation step_summary := (step_summary (F:=F) container_str).
Local Abbreviation summaries := (summaries (F:=F) container_str).
Local Abbreviation initial_state := (initial_state (F:=F)).

Implicit Types (w : World (Env:=Env)) (st : loop_state (F:=F))
  (r : step_result (F:=F)) (p : prepared) (si : pyval).

Local Abbreviation entry_of := (entry_of (F:=F)).
Local Abbreviation answered := (answered (F:=F)).

(** A step that is prepared is a dictionary, whose [step], [task] and
    [description] are taken as they are. *)
Lemma prepare_step_inv e count previous si e1 p :
  prepare_step e count previous si = (e1, inr p) ->
  exists d, si = PDict d
    /\ pr_step p = get_default "step" (PInt (Z.of_nat count + 1)) d
    /\ PStr (pr_task p) = get_default "task" (PStr "general") d
    /\ pr_description p = get_default "description" (PStr EmptyString) d.
Proof.
  unfold DynamicExecutor.prepare_step. intros H.
  destruct si as [| | | | | | |d]; try discriminate.
  exists d. split; [done|].
  destruct (inject_previous _ _ _) as [x|prompt1]; [discriminate|].
  destruct (match groq_enhance with Some _ => _ | None => _ end)
    as [e' [x|prompt2]]; [discriminate|].
  destruct (get_default "task" (PStr "general") d) as [| | | |t| | |];
    try discriminate.
  destruct (slice_to 100 prompt2); [discriminate|].
  by injection H as <- <-.
Qed.

(** The prompt of a step that asks for the previous result, after an
    error: the text [Error: ...] replaces the placeholder; without a
    placeholder the prompt is kept and the first 200 characters of the
    text are appended as a context. *)
Lemma prepare_step_after_error e count detail d body e1 p :
  truthy (get_default "use_previous" (PBool false) d) = true ->
  get_default "prompt" (PStr EmptyString) d = PStr body ->
  (groq_enhance = None
   \/ eq_str (get_default "task" (PStr "general") d) "trajectory" = false) ->
  prepare_step e count (PStr ("Error: " ++ detail)) (PDict d) = (e1, inr p) ->
  pr_prompt p
  = PStr (if PyStr.contains PipelineChat.PLACEHOLDER body
          then PyStr.replace PipelineChat.PLACEHOLDER ("Error: " ++ detail) body
          else body ++ " (Context: "
                 ++ PyStr.slice_to 200 ("Error: " ++ detail) ++ ")").
Proof.
  intros Huse Hprompt Hplain. unfold DynamicExecutor.prepare_step.
  rewrite Hprompt. unfold DynamicExecutor.inject_previous.
  rewrite Huse, error_text_not_empty. cbn [andb].
  set (prompt1 :=
         PStr (if PyStr.contains PipelineChat.PLACEHOLDER body
               then PyStr.replace PipelineChat.PLACEHOLDER ("Error: " ++ detail) body
               else body ++ " (Context: "
                      ++ PyStr.slice_to 200 ("Error: " ++ detail) ++ ")")).
  assert (Hinj :
    (if negb (PyStr.contains PipelineChat.PLACEHOLDER body)
     then context ← slice_to 200 (PStr ("Error: " ++ detail));
          inr (PStr (PyStr.replace PipelineChat.PLACEHOLDER
                       (to_text (PStr ("Error: " ++ detail))) body
                     ++ " (Context: " ++ to_text context ++ ")"))
     else inr (PStr (PyStr.replace PipelineChat.PLACEHOLDER
                       (to_text (PStr ("Error: " ++ detail))) body)))
    = (inr prompt1 : exn + pyval)).
  { subst prompt1.
    destruct (PyStr.contains PipelineChat.PLACEHOLDER body) eqn:Hc; cbn; [done|].
    unfold PyStr.replace. by rewrite ExecutorFacts.replace_from_absent. }
  rewrite Hinj.
  assert (Henh :
    match groq_enhance with
    | Some enhance =>
        if eq_str (get_default "task" (PStr "general") d) "trajectory"
        then
          match len prompt1 with
          | inl x => (e, inl x)
          | inr n =>
              if (n <? 80)%Z
              then let '(e', response) := enhance e prompt1 in
                   (e', inr (enhance_trajectory_prompt response prompt1))
              else (e, inr prompt1)
          end
        else (e, inr prompt1)
    | None => (e, inr prompt1)
    end = (e, inr prompt1)).
  { destruct groq_enhance as [enhance|]; [|done].
    destruct Hplain as [|Htask]; [done|]. by rewrite Htask. }
  rewrite Henh.
  destruct (get_default "task" (PStr "general") d); try discriminate.
  destruct (slice_to 100 prompt1); [discriminate|].
  by intros [= _ <-].
Qed.

(** When the answer of the reply cannot be sliced, the body of the
    [try] raises; it raises in no other case. *)
Lemma guarded_raises w p th w1 reply x :
  ask (pr_prompt p) PNone (PStr (pr_task p)) th true false w = (w1, reply) ->
  slice_to 300 (get_default "answer" (PStr EmptyString) reply) = inl x ->
  guarded w p th = (w1, inl x).
Proof.
  intros Hask Hx. unfold DynamicExecutor.guarded. by rewrite Hask, Hx.
Qed.

Lemma guarded_inv w p th w2 x :
  guarded w p th = (w2, inl x) ->
  exists reply,
    ask (pr_prompt p) PNone (PStr (pr_task p)) th true false w = (w2, reply)
    /\ x = CannotSlice (get_default "answer" (PStr EmptyString) reply)
    /\ sliceable (get_default "answer" (PStr EmptyString) reply) = false.
Proof.
  unfold DynamicExecutor.guarded.
  destruct (ask _ _ _ _ _ _ _) as [w1 reply].
  destruct (slice_to 300 _) as [y|shown] eqn:Hs.
  - intros [= <- <-]. exists reply. split; [done|].
    by apply slice_to_raises in Hs.
  - destruct (_ && _)%bool.
    + destruct w1 as [c1 e1].
      by destruct (visualize_step _ _ _ _ _ _) as [e2 path].
    + discriminate.
Qed.

Lemma guarded_returns w p th w2 o :
  guarded w p th = (w2, inr o) -> sliceable (oc_answer o) = true.
Proof.
  unfold DynamicExecutor.guarded.
  destruct (ask _ _ _ _ _ _ _) as [w1 reply].
  destruct (slice_to 300 _) as [x|shown] eqn:Hs; [discriminate|].
  apply slice_to_sliceable in Hs.
  destruct (_ && _)%bool.
  - destruct w1 as [c1 e1]. destruct (visualize_step _ _ _ _ _ _) as [e2 path].
    by intros [= _ <-].
  - by intros [= _ <-].
Qed.

(** An iteration that does not end the call appends one entry. *)
Lemma execute_step_inv th w st si w' st' :
  execute_step th w st si = (w', inr st') ->
  exists d r,
    si = PDict d
    /\ steps (ls_results st') = (steps (ls_results st) ++ [r])%list
    /\ entry_of (length (steps (ls_results st))) d r
    /\ answered r
    /\ success (ls_results st')
       = (success (ls_results st) && sr_success r)%bool.
Proof.
  unfold DynamicExecutor.execute_step.
  destruct (prepare_step _ _ _ _) as [e1 [x|p]] eqn:Hp; [discriminate|].
  destruct (prepare_step_inv _ _ _ _ _ _ Hp) as (d & -> & H1 & H2 & H3).
  destruct (guarded _ p th) as [w2 [x|o]] eqn:Hg.
  - intros [= _ <-]. exists d. eexists. split; [done|]. cbn.
    split; [done|]. split; [done|]. split; [by intros [=]|].
    by rewrite andb_false_r.
  - intros [= _ <-]. exists d. eexists. split; [done|]. cbn.
    split; [done|]. split; [done|]. split.
    + intros _. exists (oc_answer o). split; [done|].
      by apply (guarded_returns _ _ _ _ _ Hg).
    + by rewrite andb_true_r.
Qed.

Lemma run_steps_append th w st (l1 l2 : list pyval) :
  run_steps th w st (l1 ++ l2)%list
  = match run_steps th w st l1 with
    | (w', inr st') => run_steps th w' st' l2
    | (w', inl x) => (w', inl x)
    end.
Proof.
  revert w st. induction l1 as [|si l1 IH]; intros w st; [done|].
  cbn [app DynamicExecutor.run_steps].
  destruct (execute_step th w st si) as [w' [x|st']]; [done|]. apply IH.
Qed.

(** The ledger after a run that was not ended by an exception: one
    entry per step, in the order of the steps. *)
Lemma run_ledger th pipeline w st w' st' :
  run_steps th w st pipeline = (w', inr st') ->
  exists l,
    steps (ls_results st') = (steps (ls_results st) ++ l)%list
    /\ length l = length pipeline
    /\ (forall i d, pipeline !! i = Some (PDict d) ->
          exists r, l !! i = Some r
                    /\ entry_of (length (steps (ls_results st)) + i) d r)
    /\ Forall answered l
    /\ success (ls_results st')
       = (success (ls_results st) && forallb sr_success l)%bool.
Proof.
  revert w st. induction pipeline as [|si pipeline IH]; intros w st.
  - intros [= <- <-]. exists []. rewrite app_nil_r, andb_true_r.
    repeat split; [|constructor]. by intros i d ?.
  - cbn [DynamicExecutor.run_steps].
    destruct (execute_step th w st si) as [w1 [x|st1]] eqn:Hstep; [discriminate|].
    destruct (execute_step_inv _ _ _ _ _ _ Hstep)
      as (d0 & r & -> & Hr & Hentry & Hans & Hsucc).
    intros Hrun. destruct (IH _ _ Hrun) as (l & Hl & Hlen & Hidx & Hall & Hs).
    exists (r :: l). rewrite Hl, Hr, <- app_assoc. cbn.
    split; [done|]. split; [by rewrite Hlen|]. split; [|split].
    + intros [|i] d Hi; cbn in Hi.
      * injection Hi as <-. exists r. split; [done|].
        by rewrite Nat.add_0_r.
      * destruct (Hidx i d Hi) as (r' & Hr' & He). exists r'. split; [done|].
        rewrite Hr, length_app in He. cbn in He.
        by replace (length (steps (ls_results st)) + S i)%nat
          with (length (steps (ls_results st)) + 1 + i)%nat by lia.
    + by constructor.
    + by rewrite Hs, Hsucc, andb_assoc.
Qed.

Lemma summaries_total (l : list (step_result (F:=F))) :
  Forall (fun r => exists a, sr_answer r = Some a /\ sliceable a = true) l ->
  exists parts, summaries l = inr parts.
Proof.
  induction 1 as [|r l (a & Ha & Hs) _ (parts & IH)]; [by exists []|].
  destruct (sliceable_slice_to 200 a Hs) as (shown & Hshown).
  cbn [DynamicExecutor.summaries]. unfold DynamicExecutor.step_summary.
  rewrite Ha. cbn. rewrite Hshown. cbn. rewrite IH. cbn. by eexists.
Qed.

(** On the ledger of a run [_combine_results] raises nothing. *)
Lemma combine_results_total (l : list (step_result (F:=F))) :
  Forall answered l -> exists answer, _combine_results l = inr answer.
Proof.
  intros Hall. unfold DynamicExecutor._combine_results.
  destruct l as [|r0 l]; [by eexists|].
  set (ok := filter (fun s => sr_success s = true) (r0 :: l)).
  assert (Hok : Forall (fun r => exists a, sr_answer r = Some a
                                   /\ sliceable a = true) ok).
  { apply Forall_forall. intros r Hin.
    apply list_elem_of_filter in Hin as [Hs Hin].
    rewrite Forall_forall in Hall. by apply (Hall r Hin). }
  destruct (summaries_total ok Hok) as (parts & Hparts).
  destruct ok as [|r1 [|r2 ok']]; [by eexists|by eexists|].
  rewrite Hparts. by eexists.
Qed.

(** A run that no step ended returns its results. *)
Lemma execute_pipeline_returns th w pipeline w' st' :
  run_steps th w initial_state pipeline = (w', inr st') ->
  exists answer,
    _combine_results (steps (ls_results st')) = inr answer
    /\ execute_pipeline w pipeline th
       = (w', inr {| steps := steps (ls_results st');
                     final_answer := answer;
                     visualizations := visualizations (ls_results st');
                     success := success (ls_results st') |}).
Proof.
  intros Hrun. unfold DynamicExecutor.execute_pipeline. rewrite Hrun.
  destruct (run_ledger _ _ _ _ _ _ Hrun) as (l & Hl & _ & _ & Hall & _).
  cbn in Hl. rewrite Hl.
  destruct (combine_results_total l Hall) as (answer & Ha).
  exists answer. by rewrite Ha.
Qed.

(** The results of a call that returned, in terms of its run *)
Lemma execute_pipeline_inv th w pipeline w' res :
  execute_pipeline w pipeline th = (w', inr res) ->
  exists st',
    run_steps th w initial_state pipeline = (w', inr st')
    /\ steps res = steps (ls_results st')
    /\ success res = success (ls_results st')
    /\ _combine_results (steps res) = inr (final_answer res).
Proof.
  unfold DynamicExecutor.execute_pipeline.
  destruct (run_steps th w initial_state pipeline) as [w1 [x|st']];
    [discriminate|].
  destruct (_combine_results _) as [x|answer] eqn:Hc; [discriminate|].
  intros [= <- <-]. exists st'. by cbn.
Qed.


(** The dictionary [ask] returns has no answer, when no image is set,
    or a text, when the model raised, or the answer [ask] read from the
    result of the model. *)
Lemma ask_answer prompt tk th w w1 reply :
  ask prompt PNone tk th true false w = (w1, reply) ->
  pget "answer" reply = None
  \/ (exists s, pget "answer" reply = Some (PStr s))
  \/ (exists e fp img e' result,
        inference e fp img tk th true false = (e', inr result)
        /\ pget "answer" reply
           = Some (DynamicMemory.reply_of container_str result).1.1).
Proof.
  unfold DynamicMemory.ask. destruct w as [c e].
  destruct (negb _); [intros [= <- <-]; by left|].
  destruct (clock e) as [e1 now_user].
  destruct (inference e1 _ _ tk th true false) as [e2 [s|result]] eqn:Hinf.
  - intros [= <- <-]. right. left. by eexists.
  - destruct (DynamicMemory.reply_of container_str result)
      as [[answer thinking] output_image] eqn:Hreply.
    destruct (clock e2) as [e3 now_reply].
    intros [= <- <-]. right. right.
    eexists _, _, _, _, _. split; [exact Hinf|]. by rewrite Hreply.
Qed.

(** When the model only returns results from which [ask] reads an
    answer that can be sliced (text, in particular), the guarded part of
    an iteration never raises, and the flag of a call that returns is
    true. *)
Lemma sliceable_answers_never_fail th w pipeline w' res :
  (forall e fp img tk a b c e' result,
      inference e fp img tk a b c = (e', inr result) ->
      sliceable (DynamicMemory.reply_of container_str result).1.1 = true) ->
  execute_pipeline w pipeline th = (w', inr res) ->
  success res = true.
Proof.
  intros Hmodel Hres.
  destruct (execute_pipeline_inv _ _ _ _ _ Hres) as (st' & Hrun & _ & -> & _).
  assert (Hgen : forall pl w0 st0 w1 st1,
            success (ls_results st0) = true ->
            run_steps th w0 st0 pl = (w1, inr st1) ->
            success (ls_results st1) = true).
  { induction pl as [|si pl IH]; intros w0 st0 w1 st1 Hs.
    { by intros [= _ <-]. }
    cbn [DynamicExecutor.run_steps].
    destruct (execute_step th w0 st0 si) as [w2 [x|st2]] eqn:Hstep;
      [discriminate|].
    apply IH. clear IH.
    unfold DynamicExecutor.execute_step in Hstep.
    destruct (prepare_step _ _ _ _) as [e1 [x|p]]; [discriminate|].
    destruct (guarded _ p th) as [w3 [x|o]] eqn:Hg.
    2: { injection Hstep as _ <-. exact Hs. }
    exfalso. destruct (guarded_inv _ _ _ _ _ Hg) as (reply & Hask & _ & Hns).
    unfold get_default in Hns.
    destruct (ask_answer _ _ _ _ _ _ Hask)
      as [Hnone | [(s & Hstr) | (e & fp & img & e' & result & Hinf & Hans)]].
    - by rewrite Hnone in Hns.
    - by rewrite Hstr in Hns.
    - rewrite Hans in Hns. by rewrite (Hmodel _ _ _ _ _ _ _ _ _ Hinf) in Hns. }
  by apply (Hgen pipeline w initial_state w' st').
Qed.


End WithCollaborators.

Local Abbreviation scripted_run_steps :=
  (run_steps Numerals.exact_float Numerals.exact_add Numerals.exact_sub
     Numerals.exact_of_int ScriptedModel.container_str ScriptedModel.exn_str
     ScriptedModel.clock ScriptedModel.inference None
     ScriptedModel.visualize_step).
Local Abbreviation scripted_prepare_step :=
  (prepare_step ScriptedModel.container_str (Env:=ScriptedModel.env) None).
Local Abbreviation scripted_ask :=
  (DynamicMemory.ask ScriptedModel.container_str ScriptedModel.clock
     ScriptedModel.inference).




(** The run above, evaluated: three entries, the second failed with
    the text of the exception, the third prepared from the synthesized
    previous result, the flag false, and the summaries of the first and
    of the third entry as the combined answer. *)
Example three_steps_second_reply_unreadable :
  let run := ScriptedModel.execute_pipeline
               (ScriptedModel.new_world "scene.jpg"
                  [ScriptedModel.answers (PStr "a cup at [1,2,3,4]");
                   ScriptedModel.answers PNone;
                   ScriptedModel.answers (PStr "done")])
               [ScriptedModel.step (PStr "grounding") (PStr "the cup") false;
                ScriptedModel.step (PStr "general") (PStr "what next") true;
                ScriptedModel.step (PStr "general")
                  (PStr "then {previous_result}!") true]
               false in
  exists res,
    run.2 = inr res
    /\ map sr_step (steps res) = [PInt 1; PInt 2; PInt 3]
    /\ map sr_success (steps res) = [true; false; true]
    /\ map sr_error (steps res)
       = [None; Some "'NoneType' object is not subscriptable"; None]
    /\ map sr_prompt (steps res)
       = [PStr "the cup"; PStr "what next (Context: a cup at [1,2,3,4])";
          PStr "then Error: 'NoneType' object is not subscriptable!"]
    /\ success res = false
    /\ final_answer res
       = PStr ("Step 1 (grounding): a cup at [1,2,3,4]"
                 ++ PipelineChat.blank_line ++ "Step 3 (general): done").
Proof. eexists. vm_compute. repeat split. Qed.


(** With this chat object an exception of the model itself is no
    failure of the step: [ask] catches it, and the entry is a success
    whose answer is the message. *)
Example model_exception_is_a_success :
  let run := ScriptedModel.execute_pipeline
               (ScriptedModel.new_world "scene.jpg" [inl "out of memory"])
               [ScriptedModel.step (PStr "general") (PStr "what is this") false]
               false in
  exists res,
    run.2 = inr res
    /\ map sr_success (steps res) = [true]
    /\ map sr_answer (steps res) = [Some (PStr "Inference error: out of memory")]
    /\ success res = true.
Proof. eexists. vm_compute. repeat split. Qed.

End DynamicExecutorProps.
